(** * node-opcua-pki: the CertificateManager trust store

    A shallow embedding of [lib/pki/certificate_manager.ts].  The class keeps
    a file-backed trust store: certificates live as PEM files under
    [<root>/trusted] and [<root>/rejected], an in-memory index [_thumbs]
    records the thumbprints found there, and [verifyCertificate] runs an
    ordered chain of checks over a peer certificate.

    The embedding threads one [State] (disk, index, a log of the system
    calls performed) through every method.  A node-style callback
    [callback(err, value)] becomes a returned [Error + value]; an
    [ErrorCallback] becomes a returned [option Error]; a synchronous
    exception becomes the outcome [Thrown].

    [toolbox.ts] and [certificate_authority.ts] are not part of the sources
    at hand: the few functions of theirs that the class calls are modelled
    from the specification, each under a comment that says so.  The
    functions of [node-opcua-crypto] and the openssl subprocess are
    parameters ([NodeOpcuaCrypto], [Toolchain]).

    The development also covers the two methods that issue certificates
    for the manager's own key, [lib/misc/hostname.ts], and three pieces of
    the command line ([construct_CertificateManager],
    [find_module_root_folder] and the text the [fingerprint] command
    prints).  A method that can throw on its own returns a [Completion];
    the module variables of the command line and of [hostname.ts] are
    passed in and returned. *)

From Stdlib Require Import ZArith Lia.
From Stdlib.Strings Require Import Byte Ascii String.
From stdpp Require Import base option list strings pretty gmap sets.

Local Open Scope Z_scope.
#[local] Set Warnings "-clear-no-such-hyp".

(** ** Paths, buffers, the disk *)

(** A path is the list of its components: [path.join(a, "own/certs")] is
    [a ++ ["own"; "certs"]]. *)
Abbreviation Path := (list string).
(** A node [Buffer]. *)
Abbreviation Buffer := (list byte).
Abbreviation Certificate := (list byte).
Abbreviation Thumbprint := string.
Abbreviation KeySize := Z.

Module Fs.

Record FileSystem := mkFs {
  dirs : gset Path;
  files : gmap Path Buffer
}.

(** [path.dirname] *)
Definition dirname (p : Path) : Path := removelast p.

(** [fs.existsSync]: the path names a directory or a file. *)
Definition existsSync (p : Path) (d : FileSystem) : bool :=
  bool_decide (p ∈ dirs d) || bool_decide (is_Some (files d !! p)).

(** [p] lies strictly below [folder]. *)
Fixpoint under (folder p : Path) : bool :=
  match folder, p with
  | [], [] => false
  | [], _ :: _ => true
  | _ :: _, [] => false
  | f :: folder', x :: p' => if String.eqb f x then under folder' p' else false
  end.

(** The files met by [walk.walk(folder)]: every regular file below
    [folder], at any depth, with its content. *)
Definition walk (folder : Path) (d : FileSystem) : list (Path * Buffer) :=
  List.filter (λ e, under folder e.1) (map_to_list (files d)).

(** [p] is [folder] or lies below it. *)
Definition within (folder p : Path) : bool :=
  bool_decide (p = folder) || under folder p.

(** A proper ancestor of [p] is a regular file. *)
Definition through_file (p : Path) (d : FileSystem) : bool :=
  existsb (λ n, bool_decide (is_Some (files d !! take n p))) (seq 0 (length p)).

(** [folder] has an entry below it. *)
Definition occupied (folder : Path) (d : FileSystem) : bool :=
  existsb (under folder) (elements (dirs d))
  || existsb (λ e, under folder e.1) (map_to_list (files d)).

(** The place below [dst] of an entry that is [src] or lies below it. *)
Definition rebase (src dst p : Path) : Path :=
  if within src p then dst ++ drop (length src) p else p.

(** The disk once the directory [src] and all it holds have been moved
    to [dst]. *)
Definition move_tree (src dst : Path) (d : FileSystem) : FileSystem :=
  mkFs (set_map (rebase src dst) (dirs d))
       (list_to_map (prod_map (rebase src dst) id <$> map_to_list (files d))).

End Fs.

Import Fs.

(** ** Errors and outcomes *)

Inductive Error :=
  | BadSecurityChecksFailed      (* new Error("BadSecurityChecksFailed") *)
  | BadCertificateTimeInvalid    (* new Error("BadCertificateTimeInvalid") *)
  | BadCertificateUntrusted      (* new Error("BadCertificateUntrusted") *)
  | BadCertificateRevoked        (* named only in a TODO comment of verifyCertificate *)
  | ENOENT (p : Path)            (* a failed fs call on [p]: no such entry *)
  | EISDIR (p : Path)            (* [p] is a directory where a file is meant *)
  | ENOTDIR (p : Path)           (* a regular file where a directory is meant *)
  | EEXIST (p : Path)            (* [p] exists already *)
  | ENOTEMPTY (p : Path)         (* the directory [p] is not empty *)
  | EINVAL (p : Path)            (* a directory moved below itself *)
  | ToolchainFailure             (* the openssl subprocess failed *)
  | CertificateParseError        (* exploreCertificateInfo could not decode *)
  | TypeError                    (* property access on undefined *)
  | CannotAccessLocation (p : Path).

Inductive Outcome (A : Type) :=
  | Returned (a : A)
  | Thrown (e : Error).
Arguments Returned {A} a.
Arguments Thrown {A} e.

(** ** The state *)

Inductive CertificateStatus := unknown | trusted | rejected.

Definition status_name (s : CertificateStatus) : string :=
  match s with
  | unknown => "unknown"
  | trusted => "trusted"
  | rejected => "rejected"
  end.

#[global] Instance CertificateStatus_eq_dec : EqDecision CertificateStatus.
Proof. solve_decision. Defined.

(** [_thumbs]: two objects used as sets ([index[thumbprint] = 1],
    [hasOwnProperty], [delete]). *)
Module Thumbs.
Record t := mk {
  rejected : gset Thumbprint;
  trusted : gset Thumbprint
}.
Definition set_rejected (index : gset Thumbprint) (th : t) : t := mk index (trusted th).
Definition set_trusted (index : gset Thumbprint) (th : t) : t := mk (rejected th) index.
End Thumbs.

(** [this._thumbs[status]]: [undefined] for ["unknown"]. *)
Definition thumbs_get (s : CertificateStatus) (th : Thumbs.t) : option (gset Thumbprint) :=
  match s with
  | rejected => Some (Thumbs.rejected th)
  | trusted => Some (Thumbs.trusted th)
  | unknown => None
  end.

(** [this._thumbs[status] = index] (the slot objects are never replaced by
    the source, only mutated; the model writes the mutated set back). *)
Definition thumbs_put (s : CertificateStatus) (index : gset Thumbprint) (th : Thumbs.t) : Thumbs.t :=
  match s with
  | rejected => Thumbs.set_rejected index th
  | trusted => Thumbs.set_trusted index th
  | unknown => th
  end.

(** The system calls a method performs, in order. *)
Inductive Event :=
  | EvMkdir (p : Path)
  | EvWriteFile (p : Path) (data : Buffer)
  | EvRename (src dst : Path)
  | EvWalk (folder : Path)
  | EvCreatePrivateKey (p : Path) (size : KeySize)
  | EvRevoke (identity : Thumbprint).

(** An entry of the CertificateAuthority's revocation record. *)
Record RevocationEntry := mkRevocation {
  rev_identity : Thumbprint;
  rev_date : Z;
  rev_reason : string
}.

Record State := mkState {
  disk : FileSystem;
  _thumbs : Thumbs.t;
  events : list Event;
  (* number of keys requested from the toolchain so far *)
  draws : nat;
  (* the CertificateAuthority's revocation record *)
  revocations : list RevocationEntry
}.

Definition set_disk (d : FileSystem) (st : State) : State :=
  mkState d (_thumbs st) (events st) (draws st) (revocations st).
Definition set_thumbs (th : Thumbs.t) (st : State) : State :=
  mkState (disk st) th (events st) (draws st) (revocations st).
Definition add_event (e : Event) (st : State) : State :=
  mkState (disk st) (_thumbs st) (events st ++ [e]) (draws st) (revocations st).
Definition next_draw (st : State) : State :=
  mkState (disk st) (_thumbs st) (events st) (S (draws st)) (revocations st).
Definition add_revocation (r : RevocationEntry) (st : State) : State :=
  mkState (disk st) (_thumbs st) (events st) (draws st) (revocations st ++ [r]).

(** ** The monad of methods *)

Definition M (A : Type) : Type := State → Outcome A * State.

#[global] Instance M_ret : MRet M := λ A a st, (Returned a, st).
#[global] Instance M_bind : MBind M := λ A B f m st,
  match m st with
  | (Returned a, st') => f a st'
  | (Thrown e, st') => (Thrown e, st')
  end.

Definition throw {A} (e : Error) : M A := λ st, (Thrown e, st).
Definition get_state : M State := λ st, (Returned st, st).
Definition modify (f : State → State) : M unit := λ st, (Returned tt, f st).

(** [async.series(tasks, callback)]: run the tasks in order, stop at the
    first one that calls back with an error. *)
Fixpoint series (tasks : list (M (option Error))) : M (option Error) :=
  match tasks with
  | [] => mret None
  | task :: rest =>
      err ← task;
      match err with
      | Some e => mret (Some e)
      | None => series rest
      end
  end.

(** ** node's [fs]

    The calls fail as the system calls behind them do on a POSIX system:
    an entry is made only below an existing directory, a regular file on
    the way gives [ENOTDIR], a file is never written or moved onto a
    directory ([EISDIR]), and a directory is moved with all it holds,
    onto nothing or onto an empty directory. *)

(** The failure of reaching [p], which does not exist. *)
Definition missing (p : Path) (d : FileSystem) : Error :=
  if bool_decide (dirname p ∈ dirs d) then ENOENT p
  else if through_file p d then ENOTDIR p
  else ENOENT p.

Definition fs_exists (p : Path) : M bool :=
  st ← get_state; mret (existsSync p (disk st)).

Definition fs_mkdirSync (p : Path) : M unit :=
  st ← get_state;
  modify (add_event (EvMkdir p));;
  if existsSync p (disk st) then throw (EEXIST p)
  else if bool_decide (dirname p ∈ dirs (disk st))
  then modify (set_disk (mkFs ({[p]} ∪ dirs (disk st)) (files (disk st))))
  else throw (missing p (disk st)).

(** The write both [fs.writeFile] and [fs.writeFileSync] perform. *)
Definition write_result (p : Path) (data : Buffer) : M (option Error) :=
  st ← get_state;
  modify (add_event (EvWriteFile p data));;
  if bool_decide (p ∈ dirs (disk st)) then mret (Some (EISDIR p))
  else if bool_decide (dirname p ∈ dirs (disk st))
  then modify (set_disk (mkFs (dirs (disk st)) (<[p := data]> (files (disk st)))));;
       mret None
  else mret (Some (missing p (disk st))).

Definition fs_writeFile (p : Path) (data : Buffer) : M (option Error) :=
  write_result p data.

Definition fs_writeFileSync (p : Path) (data : Buffer) : M unit :=
  err ← write_result p data;
  match err with
  | Some e => throw e
  | None => mret tt
  end.

(** [fs.rename(src, dst, callback)], as rename(2). *)
Definition fs_rename (src dst : Path) : M (option Error) :=
  st ← get_state;
  modify (add_event (EvRename src dst));;
  let d := disk st in
  match files d !! src with
  | Some data =>
      (* a regular file *)
      if bool_decide (dst ∈ dirs d) then mret (Some (EISDIR dst))
      else if bool_decide (dirname dst ∈ dirs d)
      then modify (set_disk (mkFs (dirs d) (<[dst := data]> (delete src (files d)))));;
           mret None
      else mret (Some (missing dst d))
  | None =>
      if bool_decide (src ∈ dirs d) then
        (* a directory *)
        if bool_decide (dst = src) then mret None
        else if under src dst then mret (Some (EINVAL dst))
        else if bool_decide (is_Some (files d !! dst)) then mret (Some (ENOTDIR dst))
        else if bool_decide (dst ∈ dirs d) && occupied dst d then mret (Some (ENOTEMPTY dst))
        else if bool_decide (dirname dst ∈ dirs d)
        then modify (set_disk (move_tree src dst d));;
             mret None
        else mret (Some (missing dst d))
      else mret (Some (missing src d))
  end.

(** ** External collaborators *)

(** [node-opcua-crypto], used as an opaque library. *)
Class NodeOpcuaCrypto := {
  (* the 20-byte SHA-1 digest of the buffer *)
  makeSHA1Thumbprint : Buffer → Buffer;
  (* toPem(raw, pemType) *)
  toPem : Buffer → string → Buffer;
  (* the decoding readCertificate applies to the bytes of a file *)
  convertPEMtoDER : Buffer → Certificate;
  (* exploreCertificateInfo: (notBefore, notAfter) in milliseconds, or a
     decoding exception *)
  exploreCertificateInfo : Certificate → option (Z * Z)
}.

(** The openssl subprocess behind [createPrivateKey], and the static
    assets of [toolbox.ts]. *)
Class Toolchain := {
  (* the [n]-th key the subprocess is asked for, or its failure *)
  openssl_genrsa : KeySize → nat → option Buffer;
  configurationFileSimpleTemplate : Buffer
}.

(** [buffer.toString("hex")] *)
Definition hex_digit (n : N) : ascii :=
  ascii_of_N (if (n <? 10)%N then 48 + n else 87 + n)%N.

Definition toString_hex (b : Buffer) : string :=
  foldr (λ x s, String (hex_digit (Byte.to_N x / 16)) (String (hex_digit (Byte.to_N x mod 16)) s))
        EmptyString b.

(** ** [toolbox.ts] *)

(** Modelled from the spec: [mkdir] of toolbox.ts is not among the sources;
    the spec asks for "create-if-missing, tolerate already-exists", and
    makes a failed creation fatal. *)
Definition mkdir (folder : Path) : M unit :=
  ex ← fs_exists folder;
  if (ex : bool) then mret tt else fs_mkdirSync folder.

(** Modelled from the spec: [createPrivateKey] of toolbox.ts is not among
    the sources; the spec's [generateKey(path, size)] "either succeeds or
    returns a failure", and on success the key file exists at [path]. *)
Definition createPrivateKey `{Toolchain} (privateKey : Path) (keySize : KeySize)
  : M (option Error) :=
  st ← get_state;
  modify (add_event (EvCreatePrivateKey privateKey keySize));;
  modify next_draw;;
  match openssl_genrsa keySize (draws st) with
  | Some key =>
      if bool_decide (dirname privateKey ∈ dirs (disk st))
      then modify (set_disk (mkFs (dirs (disk st)) (<[privateKey := key]> (files (disk st)))));;
           mret None
      else mret (Some (ENOENT privateKey))
  | None => mret (Some ToolchainFailure)
  end.

(** ** certificate_authority.ts *)

(** Modelled from the spec: [CertificateAuthority.revokeCertificate] is not
    among the sources; the spec has it append "an entry (identity, date,
    reason) to the permanent Revocation Record". *)
Definition revokeCertificate `{NodeOpcuaCrypto} (certificate : Certificate)
    (date : Z) (reason : string) : M (option Error) :=
  let identity := toString_hex (makeSHA1Thumbprint certificate) in
  modify (add_event (EvRevoke identity));;
  modify (add_revocation (mkRevocation identity date reason));;
  mret None.

(** ** certificate_manager.ts *)

Record CertificateManagerOptions := mkOptions {
  opt_keySize : option KeySize;
  opt_location : Path
}.

(** The read-only members of the class; the mutable [_thumbs] is in the
    [State]. *)
Record CertificateManager := mkManager {
  keySize : KeySize;
  location : Path
}.

(** [options.keySize || 2048]: an absent (or falsy) size gives 2048. *)
Definition keySize_or_default (size : option KeySize) : KeySize :=
  match size with
  | Some k => if k =? 0 then 2048 else k
  | None => 2048
  end.

(** [constructor(options)]; [make_path(options.location, "")] only
    normalises the separators of the path and is the identity on a list of
    components. *)
Definition constructor (options : CertificateManagerOptions) : M CertificateManager :=
  let keySize := keySize_or_default (opt_keySize options) in
  let location := opt_location options in
  mkdir location;;
  ex ← fs_exists location;
  if negb ex then throw (CannotAccessLocation location)
  else
    modify (set_thumbs (Thumbs.mk ∅ ∅));;
    mret (mkManager keySize location).

Section Methods.

Context `{NodeOpcuaCrypto} `{Toolchain}.
Variable this : CertificateManager.

Definition rootDir : Path := location this.
Definition configFile : Path := rootDir ++ ["own"; "openssl.cnf"].
Definition privateKey : Path := rootDir ++ ["own"; "private"; "private_key.pem"].
Definition randomFile : Path := rootDir ++ ["own"; "private"; "random.rnd"].

(** [makeSHA1Thumbprint(certificate).toString("hex")] *)
Definition thumbprint_of (certificate : Certificate) : Thumbprint :=
  toString_hex (makeSHA1Thumbprint certificate).

(** [initialize(callback)] *)
Definition initialize : M (option Error) :=
  let pkiDir := location this in
  mkdir pkiDir;;
  mkdir (pkiDir ++ ["own"]);;
  mkdir (pkiDir ++ ["own"; "certs"]);;
  mkdir (pkiDir ++ ["own"; "private"]);;
  mkdir (pkiDir ++ ["trusted"]);;
  mkdir (pkiDir ++ ["rejected"]);;
  (* ensure_openssl_installed: its callback takes no error *)
  fs_writeFileSync configFile configurationFileSimpleTemplate;;
  ex ← fs_exists privateKey;
  if negb ex then
    (* setEnv("RANDFILE", this.randomFile) *)
    createPrivateKey privateKey (keySize this)
  else
    mret None.

(** [readThumbprint] of [_readCertificates], on the bytes of the file. *)
Definition readThumbprint (data : Buffer) : Thumbprint :=
  let certificate := convertPEMtoDER data in
  toString_hex (makeSHA1Thumbprint certificate).

(** [_f(folder, index, callback)]: [index] is one of the two objects of
    [_thumbs], given by how it is read from and written back to it. *)
Definition _f (folder : Path)
    (index : Thumbs.t → gset Thumbprint)
    (store : gset Thumbprint → Thumbs.t → Thumbs.t) : M (option Error) :=
  st ← get_state;
  modify (add_event (EvWalk folder));;
  let index' := foldl (λ idx e, {[readThumbprint e.2]} ∪ idx) (index (_thumbs st))
                      (walk folder (disk st)) in
  modify (set_thumbs (store index' (_thumbs st)));;
  mret None.

(** [_readCertificates(callback)] *)
Definition _readCertificates : M (option Error) :=
  series [ _f (rootDir ++ ["trusted"]) Thumbs.trusted Thumbs.set_trusted;
           _f (rootDir ++ ["rejected"]) Thumbs.rejected Thumbs.set_rejected ].

(** [_getCertificateStatus(certificate, callback)] *)
Definition _getCertificateStatus (certificate : Certificate)
  : M (Error + CertificateStatus) :=
  let thumbprint := thumbprint_of certificate in
  err ← _readCertificates;
  match err with
  | Some e => mret (inl e)
  | None =>
      st ← get_state;
      if bool_decide (thumbprint ∈ Thumbs.rejected (_thumbs st)) then mret (inr rejected)
      else if bool_decide (thumbprint ∈ Thumbs.trusted (_thumbs st)) then mret (inr trusted)
      else mret (inr unknown)
  end.

(** [getCertificateStatus(certificate, callback)] *)
Definition getCertificateStatus (certificate : Certificate)
  : M (Error + CertificateStatus) :=
  (* the callback given to initialize takes no error *)
  initialize;;
  r ← _getCertificateStatus certificate;
  match r with
  | inl err => mret (inl err)
  | inr unknown =>
      let thumbprint := thumbprint_of certificate in
      let certificateName := rootDir ++ ["rejected"; thumbprint +:+ ".pem"] in
      let pem := toPem certificate "CERTIFICATE" in
      err ← fs_writeFile certificateName pem;
      match err with
      | Some e => mret (inl e)
      | None => mret (inr rejected)
      end
  | inr status => mret (inr status)
  end.

(** [_moveCertificate(certificate, newStatus, callback)] *)
Definition _moveCertificate (certificate : Certificate) (newStatus : CertificateStatus)
  : M (option Error) :=
  let thumbprint := thumbprint_of certificate in
  r ← getCertificateStatus certificate;
  match r with
  | inl err => mret (Some err)
  | inr status =>
      if bool_decide (status ≠ newStatus) then
        let certificateSrc := rootDir ++ [status_name status; thumbprint +:+ ".pem"] in
        let certificateDest := rootDir ++ [status_name newStatus; thumbprint +:+ ".pem"] in
        err ← fs_rename certificateSrc certificateDest;
        (* delete this._thumbs[status][thumbprint] *)
        st ← get_state;
        match thumbs_get status (_thumbs st) with
        | None => throw TypeError
        | Some index =>
            modify (set_thumbs (thumbs_put status (index ∖ {[thumbprint]}) (_thumbs st)))
        end;;
        (* this._thumbs[newStatus][thumbprint] = 1 *)
        st ← get_state;
        match thumbs_get newStatus (_thumbs st) with
        | None => throw TypeError
        | Some index =>
            modify (set_thumbs (thumbs_put newStatus ({[thumbprint]} ∪ index) (_thumbs st)))
        end;;
        mret err
      else
        mret None
  end.

(** [rejectCertificate(certificate, callback)] *)
Definition rejectCertificate (certificate : Certificate) : M (option Error) :=
  _moveCertificate certificate rejected.

(** [trustCertificate(certificate, callback)] *)
Definition trustCertificate (certificate : Certificate) : M (option Error) :=
  _moveCertificate certificate trusted.

(** [verifyCertificate(certificate, callback)]; [None] is a missing
    ([null] or [undefined]) argument, [now] is [new Date().getTime()]. *)
Definition verifyCertificate (certificate : option Certificate) (now : Z)
  : M (option Error) :=
  match certificate with
  | None => mret (Some BadSecurityChecksFailed)
  | Some certificate =>
      match exploreCertificateInfo certificate with
      | None => throw CertificateParseError
      | Some (notBefore, notAfter) =>
          series [
            (* check that certificate is active *)
            (if notBefore >? now then mret (Some BadCertificateTimeInvalid)
             else mret None);
            (* check that certificate has not expired *)
            (if notAfter <=? now then mret (Some BadCertificateTimeInvalid)
             else mret None);
            (* check that certificate is not untrusted *)
            (r ← _getCertificateStatus certificate;
             match r with
             | inl err => mret (Some err)
             | inr rejected => mret (Some BadCertificateUntrusted)
             | inr trusted => mret None
             | inr unknown => mret (Some BadCertificateUntrusted)
             end);
            (* _check_that_certificate_has_not_been_revoked_by_issuer *)
            mret None;
            (* check that issuer certificate has not been revoked by the CA authority *)
            mret None;
            (* check that ApplicationDescription matches URI in certificate *)
            mret None
          ]
      end
  end.

End Methods.

(** ** Vocabulary of the statements *)

Section Vocabulary.

Context `{NodeOpcuaCrypto} `{Toolchain}.
Variable this : CertificateManager.

Definition trustedDir : Path := rootDir this ++ ["trusted"].
Definition rejectedDir : Path := rootDir this ++ ["rejected"].

(** The file [getCertificateStatus] and [_moveCertificate] name for a
    thumbprint under [<root>/<status>]. *)
Definition certificateName (s : CertificateStatus) (t : Thumbprint) : Path :=
  rootDir this ++ [status_name s; t +:+ ".pem"].

(** The thumbprints a walk of [folder] records. *)
Definition scanned (folder : Path) (d : FileSystem) : gset Thumbprint :=
  list_to_set (readThumbprint <$> (walk folder d).*2).

(** The index once both folders have been walked. *)
Definition rescanned (st : State) : Thumbs.t :=
  Thumbs.mk (Thumbs.rejected (_thumbs st) ∪ scanned rejectedDir (disk st))
            (Thumbs.trusted (_thumbs st) ∪ scanned trustedDir (disk st)).

(** The state [_readCertificates] leaves. *)
Definition rescan (st : State) : State :=
  mkState (disk st) (rescanned st)
          (events st ++ [EvWalk trustedDir; EvWalk rejectedDir])
          (draws st) (revocations st).

(** The answer [_getCertificateStatus] reads from an index. *)
Definition lookup_status (t : Thumbprint) (th : Thumbs.t) : CertificateStatus :=
  if bool_decide (t ∈ Thumbs.rejected th) then rejected
  else if bool_decide (t ∈ Thumbs.trusted th) then trusted
  else unknown.

(** The directory skeleton [initialize] makes is in place. *)
Definition layout_ready (d : FileSystem) : Prop :=
  rootDir this ∈ dirs d ∧
  rootDir this ++ ["own"] ∈ dirs d ∧
  rootDir this ++ ["own"; "certs"] ∈ dirs d ∧
  rootDir this ++ ["own"; "private"] ∈ dirs d ∧
  trustedDir ∈ dirs d ∧
  rejectedDir ∈ dirs d.

(** The folder of a status. *)
Definition statusDir (s : CertificateStatus) : Path :=
  rootDir this ++ [status_name s].

(** Every file below [trusted/] or [rejected/] sits directly in its
    folder under the name [<thumbprint of its content>.pem]. *)
Definition store_wf (d : FileSystem) : Prop :=
  ∀ p data s,
    files d !! p = Some data →
    s ≠ unknown →
    under (statusDir s) p = true →
    p = certificateName s (readThumbprint data).

(** Every file below [trusted/] or [rejected/] that holds a certificate
    of thumbprint [t] sits directly in its folder under the name
    [<t>.pem]. *)
Definition named_for (t : Thumbprint) (d : FileSystem) : Prop :=
  ∀ p data s,
    files d !! p = Some data →
    s ≠ unknown →
    under (statusDir s) p = true →
    readThumbprint data = t →
    p = certificateName s t.

(** No directory sits where the class puts a file: at the configuration
    file, or at the name of a certificate below [trusted/] or
    [rejected/]. *)
Definition unblocked (d : FileSystem) : Prop :=
  (configFile this ∉ dirs d) ∧
  ∀ s t, s ≠ unknown → certificateName s t ∉ dirs d.

(** Decoding the PEM file written for a certificate gives back a
    certificate of the same thumbprint. *)
Definition pem_roundtrip : Prop :=
  ∀ c, readThumbprint (toPem c "CERTIFICATE") = thumbprint_of c.

(** What a status lookup answers for a thumbprint in a state. *)
Definition status_in (st : State) (t : Thumbprint) : CertificateStatus :=
  lookup_status t (rescanned st).

(** [st'] has the index of [st], its directories, and its files below
    [trusted/] and [rejected/]. *)
Definition same_store (st st' : State) : Prop :=
  _thumbs st' = _thumbs st ∧
  dirs (disk st') = dirs (disk st) ∧
  ∀ p s, s ≠ unknown → under (statusDir s) p = true →
         files (disk st') !! p = files (disk st) !! p.

(** The state the write of [getCertificateStatus] leaves. *)
Definition persisted (c : Certificate) (st : State) : State :=
  set_disk (mkFs (dirs (disk st))
                 (<[certificateName rejected (thumbprint_of c) := toPem c "CERTIFICATE"]>
                    (files (disk st))))
           (add_event (EvWriteFile (certificateName rejected (thumbprint_of c))
                                   (toPem c "CERTIFICATE")) st).

(** The log [initialize] appends on a store whose skeleton is in place. *)
Definition bootstrap_log (evs : list Event) : Prop :=
  ∀ e, e ∈ evs →
       e = EvWriteFile (configFile this) configurationFileSimpleTemplate ∨
       e = EvCreatePrivateKey (privateKey this) (keySize this).

(** The calls a client of the class can make. *)
Inductive Call :=
  | CallInitialize
  | CallGetCertificateStatus (certificate : Certificate)
  | CallStatusLookup (certificate : Certificate)     (* _getCertificateStatus *)
  | CallTrustCertificate (certificate : Certificate)
  | CallRejectCertificate (certificate : Certificate)
  | CallVerifyCertificate (certificate : option Certificate) (now : Z)
  | CallRevokeCertificate (certificate : Certificate) (date : Z) (reason : string).

Definition perform (call : Call) (st : State) : State :=
  match call with
  | CallInitialize => (initialize this st).2
  | CallGetCertificateStatus c => (getCertificateStatus this c st).2
  | CallStatusLookup c => (_getCertificateStatus this c st).2
  | CallTrustCertificate c => (trustCertificate this c st).2
  | CallRejectCertificate c => (rejectCertificate this c st).2
  | CallVerifyCertificate c now => (verifyCertificate this c now st).2
  | CallRevokeCertificate c date reason => (revokeCertificate c date reason st).2
  end.

Definition run (calls : list Call) (st : State) : State :=
  foldl (λ st call, perform call st) st calls.

(** [call] asks to move a certificate of thumbprint [t] to [target]. *)
Definition moves_to (target : CertificateStatus) (t : Thumbprint) (call : Call) : Prop :=
  match call with
  | CallTrustCertificate c => target = trusted ∧ thumbprint_of c = t
  | CallRejectCertificate c => target = rejected ∧ thumbprint_of c = t
  | _ => False
  end.

End Vocabulary.

(** A root directory that exists and has no children. *)
Definition fresh_root (root : Path) (d : FileSystem) : Prop :=
  root ∈ dirs d ∧
  ∀ p, under root p = true → (p ∉ dirs d) ∧ files d !! p = None.

(** The number of directory walks in a log. *)
Definition count_walks (evs : list Event) : nat :=
  length (List.filter (λ e, match e with EvWalk _ => true | _ => false end) evs).

(** What a call appended to the log. *)
Definition new_events (before after : State) : list Event :=
  drop (length (events before)) (events after).

(** A write of the file [p] is in the log. *)
Definition writes_to (p : Path) (evs : list Event) : Prop :=
  ∃ data, EvWriteFile p data ∈ evs.

(** A key generation is in the log. *)
Definition generates_key (evs : list Event) : Prop :=
  ∃ p size, EvCreatePrivateKey p size ∈ evs.

(** ** More of the code: completions

    The functions below throw errors of their own; their result is a
    [Completion]: a normal return, or the exception raised. *)

Inductive Exception :=
  | AssertionError                               (* a failed assert(...) *)
  | RootDirShouldNotBeSpecified (rootDir : Path) (* new Error("rootDir should not be specified " + ...) *)
  | JsTypeError                                  (* a method called on undefined *)
  | Uncaught (e : Error).                        (* an exception of the methods above *)

Inductive Completion (A : Type) :=
  | Normal (a : A)
  | Raised (e : Exception).
Arguments Normal {A} a.
Arguments Raised {A} e.

(** ** [Date.prototype.toISOString] and [String.prototype.slice] *)

Module JsDate.

Definition digit (n : Z) : ascii := ascii_of_N (48 + Z.to_N (n mod 10)).
Definition pad2 (n : Z) : string := String (digit (n / 10)) (String (digit n) EmptyString).
Definition pad3 (n : Z) : string := String (digit (n / 100)) (pad2 n).
Definition pad4 (n : Z) : string := String (digit (n / 1000)) (pad3 n).
Definition pad6 (n : Z) : string :=
  String (digit (n / 100000)) (String (digit (n / 10000)) (pad4 n)).

(** The proleptic Gregorian date (year, month, day) of a day number
    counted from 1970-01-01. *)
Definition civil_from_days (days : Z) : Z * Z * Z :=
  let z := days + 719468 in
  let era := z / 146097 in
  let doe := z - era * 146097 in
  let yoe := (doe - doe / 1460 + doe / 36524 - doe / 146096) / 365 in
  let y := yoe + era * 400 in
  let doy := doe - (365 * yoe + yoe / 4 - yoe / 100) in
  let mp := (5 * doy + 2) / 153 in
  let d := doy - (153 * mp + 2) / 5 + 1 in
  let m := if mp <? 10 then mp + 3 else mp - 9 in
  (if m <=? 2 then y + 1 else y, m, d).

(** The ISO string of a time value in milliseconds; years outside
    0..9999 take the signed six-digit form. *)
Definition toISOString (t : Z) : string :=
  let ms := t mod 86400000 in
  let '(y, m, d) := civil_from_days (t / 86400000) in
  let year := if (0 <=? y) && (y <=? 9999) then pad4 y
              else String (if 0 <=? y then "+"%char else "-"%char) (pad6 (Z.abs y)) in
  year +:+ "-" +:+ pad2 m +:+ "-" +:+ pad2 d +:+ "T" +:+ pad2 (ms / 3600000)
       +:+ ":" +:+ pad2 (ms / 60000 mod 60) +:+ ":" +:+ pad2 (ms / 1000 mod 60)
       +:+ "." +:+ pad3 (ms mod 1000) +:+ "Z".

(** [s.slice(0, n)] *)
Definition slice_from_0 (n : nat) (s : string) : string := String.substring 0 n s.

End JsDate.

(** ** certificate_manager.ts: certificates for the manager's own key *)

(** The fields of [Params] the class reads or writes; the other fields
    of the interface are only handed on to the toolchain. *)
Record Params := mkParams {
  applicationUri : option string;
  outputFile : option Path;
  params_rootDir : option Path;
  params_configFile : option Path;
  params_privateKey : option Path
}.

(** The error a method of this part calls back with. *)
Inductive IssuanceError :=
  | CannotFindPrivateKey (p : Path)   (* new Error("Cannot find private key " + ...) *)
  | Toolbox (e : Error).

(** The openssl subprocess behind [createSelfSignCertificate] and
    [createCertificateSigningRequest] of toolbox.ts: the file the [n]-th
    run produces for the parameters, or its failure. *)
Class IssuanceToolchain := {
  openssl_self_signed : Params → nat → option Buffer;
  openssl_req : Params → nat → option Buffer
}.

(** Modelled from the spec: [createSelfSignCertificate] and
    [createCertificateSigningRequest] of toolbox.ts are not among the
    sources; the spec's [selfSign(path, params)] and
    [createCSR(path, params)] "either succeed or return a failure", and
    the output is the file at [path]. *)
Definition openssl_to_file (produce : nat → option Buffer) (file : Path) : M (option Error) :=
  st ← get_state;
  modify next_draw;;
  match produce (draws st) with
  | Some data => fs_writeFile file data
  | None => mret (Some ToolchainFailure)
  end.

Definition createSelfSignCertificate `{IssuanceToolchain} (certificate : Path) (params : Params)
  : M (option Error) :=
  openssl_to_file (openssl_self_signed params) certificate.

Definition createCertificateSigningRequest `{IssuanceToolchain} (csr : Path) (params : Params)
  : M (option Error) :=
  openssl_to_file (openssl_req params) csr.

Section Issuance.

Context `{IssuanceToolchain}.
Variable this : CertificateManager.

(** [params.rootDir = ...; params.configFile = ...; params.privateKey = ...] *)
Definition with_manager_paths (params : Params) : Params :=
  mkParams (applicationUri params) (outputFile params)
           (Some (rootDir this)) (Some (configFile this)) (Some (privateKey this)).

(** [createSelfSignedCertificate(params, callback)]; the result carries
    the [params] object as the call leaves it. *)
Definition createSelfSignedCertificate (params : Params)
  : State → Completion (Params * option IssuanceError) * State :=
  λ st,
  match applicationUri params with
  | None => (Raised AssertionError, st)
  | Some _ =>
      if negb (existsSync (privateKey this) (disk st)) then
        (Normal (params, Some (CannotFindPrivateKey (privateKey this))), st)
      else
        let certificateFilename :=
          default (rootDir this ++ ["own"; "certs"; "self_signed_certificate.pem"])
                  (outputFile params) in
        let params := with_manager_paths params in
        match createSelfSignCertificate certificateFilename params st with
        | (Returned err, st') => (Normal (params, Toolbox <$> err), st')
        | (Thrown e, st') => (Raised (Uncaught e), st')
        end
  end.

(** The name [createCertificateRequest] composes for the request. *)
Definition certificateSigningRequestFilename (now : Z) : Path :=
  let today := JsDate.slice_from_0 10 (JsDate.toISOString now) +:+ "_" +:+ pretty now in
  rootDir this ++ ["own"; "certs"; "certificate_" +:+ today +:+ ".csr"].

(** [createCertificateRequest(params, callback)] at the time [now]; a
    normal result is the [params] object as the call leaves it and the two
    arguments of the callback. *)
Definition createCertificateRequest (params : Params) (now : Z)
  : State → Completion (Params * option IssuanceError * Path) * State :=
  λ st,
  match params_rootDir params with
  | Some rootDir => (Raised (RootDirShouldNotBeSpecified rootDir), st)
  | None =>
      match params_configFile params, params_privateKey params with
      | None, None =>
          let params := with_manager_paths params in
          let filename := certificateSigningRequestFilename now in
          match createCertificateSigningRequest filename params st with
          | (Returned err, st') => (Normal (params, Toolbox <$> err, filename), st')
          | (Thrown e, st') => (Raised (Uncaught e), st')
          end
      | _, _ => (Raised AssertionError, st)
      end
  end.

End Issuance.

(** ** misc/hostname.ts *)

Module Hostname.

(** What the module reads from the process and the system. *)
Record Environment := mkEnvironment {
  platform : string;                (* process.platform *)
  COMPUTERNAME : option string;     (* process.env.COMPUTERNAME *)
  USERDNSDOMAIN : option string;    (* process.env.USERDNSDOMAIN *)
  fqdn : option string;             (* require("fqdn")(), or its exception *)
  hostname : string                 (* os.hostname() *)
}.

(** [trim(str, length)] *)
Definition trim (str : string) (length : Z) : string :=
  if length =? 0 then str
  else String.substring 0 (Z.to_nat (Z.min (Z.of_nat (String.length str)) length)) str.

(** [/sethostname/.test(s)] *)
Definition mentions_sethostname (s : string) : bool :=
  bool_decide (is_Some (String.index 0 "sethostname" s)).

(** [get_fully_qualified_domain_name(maxLength)]: the result and the
    module variable [_fullyQualifiedDomainNameCache] it leaves. *)
Definition get_fully_qualified_domain_name (maxLength : option Z) (env : Environment)
    (_fullyQualifiedDomainNameCache : option string) : string * option string :=
  let maxLength := default 0 maxLength in
  match _fullyQualifiedDomainNameCache with
  | Some (String a cached) =>
      (trim (String a cached) maxLength, _fullyQualifiedDomainNameCache)
  | _ =>
      if String.eqb (platform env) "win32" then
        let fqdn :=
          default "undefined" (COMPUTERNAME env)
          +:+ match USERDNSDOMAIN env with
              | Some (String a domain) => "." +:+ String a domain
              | _ => ""
              end in
        (trim fqdn maxLength, Some fqdn)
      else
        let name :=
          match fqdn env with
          | Some name => if mentions_sethostname name then hostname env else name
          | None => hostname env
          end in
        (trim name maxLength, Some name)
  end.

End Hostname.

(** ** The command line (crypto_create_CA) *)

Module Cli.

(** The fields of [gLocalConfig] that [construct_CertificateManager]
    reads. *)
Record LocalConfig := mkLocalConfig {
  PKIFolder : option Path;
  keySize : option KeySize
}.

(** [construct_CertificateManager(callback)]: the module variable
    [certificateManager] before and after the call. *)
Definition construct_CertificateManager `{NodeOpcuaCrypto} `{Toolchain}
    (gLocalConfig : LocalConfig) (certificateManager : option CertificateManager)
  : State → Completion (option Error) * option CertificateManager * State :=
  λ st,
  match PKIFolder gLocalConfig with
  | None => (Raised AssertionError, certificateManager, st)
  | Some folder =>
      match certificateManager with
      | Some _ => (Normal None, certificateManager, st)
      | None =>
          match constructor (mkOptions (keySize gLocalConfig) folder) st with
          | (Thrown e, st1) => (Raised (Uncaught e), None, st1)
          | (Returned this, st1) =>
              match initialize this st1 with
              | (Returned err, st2) => (Normal err, Some this, st2)
              | (Thrown e, st2) => (Raised (Uncaught e), Some this, st2)
              end
          end
      end
  end.

(** The loop of [find_module_root_folder]: [inl] is the folder returned
    from inside the loop, [inr] the folder the loop ends on. *)
Fixpoint climb (rounds : nat) (rootFolder : Path) (d : FileSystem) : Path + Path :=
  match rounds with
  | O => inr rootFolder
  | S rounds =>
      if existsSync (rootFolder ++ ["package.json"]) d then inl rootFolder
      else climb rounds (dirname rootFolder) d   (* path.join(rootFolder, "..") *)
  end.

(** [find_module_root_folder()], from the absolute path [__dirname]. *)
Definition find_module_root_folder (__dirname : Path) (d : FileSystem) : Completion Path :=
  match climb 4 __dirname d with
  | inl rootFolder => Normal rootFolder
  | inr rootFolder =>
      if existsSync (rootFolder ++ ["package.json"]) d then Normal rootFolder
      else Raised AssertionError
  end.

(** [s.split(sep)] for a separator of one character. *)
Fixpoint split (sep : ascii) (s : string) : list string :=
  match s with
  | EmptyString => [EmptyString]
  | String a s' =>
      if Ascii.eqb a sep then EmptyString :: split sep s'
      else match split sep s' with
           | x :: xs => String a x :: xs
           | [] => [String a EmptyString]
           end
  end.

(** The white space [trim] removes, among the characters below 256. *)
Definition is_white_space (a : ascii) : bool :=
  let n := N_of_ascii a in
  ((9 <=? n) && (n <=? 13) || (n =? 32) || (n =? 160))%N.

Fixpoint trimStart (s : string) : string :=
  match s with
  | String a s' => if is_white_space a then trimStart s' else s
  | EmptyString => EmptyString
  end.

Fixpoint trimEnd (s : string) : string :=
  match s with
  | String a s' =>
      match trimEnd s' with
      | EmptyString => if is_white_space a then EmptyString else String a EmptyString
      | rest => String a rest
      end
  | EmptyString => EmptyString
  end.

(** [s.trim()] *)
Definition trim (s : string) : string := trimEnd (trimStart s).

(** What [cmdFingerPrint] prints for the output of the toolchain:
    [data.split("=")[1].split(":").join("").trim()]. *)
Definition printed_fingerprint (data : string) : Completion string :=
  match split "=" data !! 1%nat with
  | None => Raised JsTypeError
  | Some digest => Normal (trim (String.concat "" (split ":" digest)))
  end.

End Cli.

(** ** Vocabulary of the further statements *)

Section StoreVocabulary.

Context `{NodeOpcuaCrypto} `{Toolchain}.
Variable this : CertificateManager.

(** No thumbprint is both rejected and trusted in the index a status
    query would build. *)
Definition classified_once (st : State) : Prop :=
  ∀ t, ¬ (t ∈ Thumbs.rejected (rescanned this st) ∧ t ∈ Thumbs.trusted (rescanned this st)).

End StoreVocabulary.

(** Every character of the string passes the test. *)
Fixpoint all_chars (P : ascii → bool) (s : string) : bool :=
  match s with
  | EmptyString => true
  | String a s' => P a && all_chars P s'
  end.

(** A character of a digest group: no separator and no white space. *)
Definition digest_char (a : ascii) : bool :=
  negb (Ascii.eqb a "=") && negb (Ascii.eqb a ":") && negb (Cli.is_white_space a).

(** ** A concrete instance of the collaborators

    Stand-ins used to run the methods on concrete stores: the digest is the
    buffer itself, the PEM armour keeps the payload as it is between the
    BEGIN and END lines, and a certificate carries its validity window in
    its first two bytes (in seconds). *)
Module Fixture.

Definition pem_header (pemType : string) : Buffer :=
  list_byte_of_string ("-----BEGIN " +:+ pemType +:+ "-----").
Definition pem_footer (pemType : string) : Buffer :=
  list_byte_of_string ("-----END " +:+ pemType +:+ "-----").

Definition armour (raw : Buffer) (pemType : string) : Buffer :=
  pem_header pemType ++ raw ++ pem_footer pemType.

Definition strip (data : Buffer) : Certificate :=
  let hl := length (pem_header "CERTIFICATE") in
  let fl := length (pem_footer "CERTIFICATE") in
  take (length data - hl - fl)%nat (drop hl data).

Definition window (certificate : Certificate) : option (Z * Z) :=
  match certificate with
  | nb :: na :: _ => Some (1000 * Z.of_N (Byte.to_N nb), 1000 * Z.of_N (Byte.to_N na))
  | _ => None
  end.

#[global] Instance crypto : NodeOpcuaCrypto := {|
  makeSHA1Thumbprint := λ b, b;
  toPem := armour;
  convertPEMtoDER := strip;
  exploreCertificateInfo := window
|}.

#[global] Instance toolchain : Toolchain := {|
  openssl_genrsa := λ size n, Some (list_byte_of_string "key" ++ [default x00 (Byte.of_N (N.of_nat n))]);
  configurationFileSimpleTemplate := list_byte_of_string "[ req ]"
|}.

Definition root : Path := ["pki"].
Definition manager : CertificateManager := mkManager 2048 root.

(** valid from second 16 to second 32 *)
Definition cert1 : Certificate := [x10; x20; xaa].
(** valid from second 16 to second 48 *)
Definition cert2 : Certificate := [x10; x30; xbb].

(** A fresh root: the directory exists and has no children. *)
Definition fresh : State :=
  mkState (mkFs {[ root ]} ∅) (Thumbs.mk ∅ ∅) [] 0 [].

Definition after {A} (m : M A) (st : State) : State := (m st).2.

(** A file put into the store from outside the class. *)
Definition copy_in (p : Path) (data : Buffer) (st : State) : State :=
  set_disk (mkFs (dirs (disk st)) (<[p := data]> (files (disk st)))) st.

(** An initialized root. *)
Definition ready : State := after (initialize manager) fresh.

(** An initialized root into which an administrator has copied the PEM
    file of [cert1] as [trusted/peer.pem]. *)
Definition dropped_in : State :=
  copy_in (root ++ ["trusted"; "peer.pem"]) (armour cert1 "CERTIFICATE") ready.

(** An initialized root holding the PEM file of [cert1] under both
    [trusted/] and [rejected/]. *)
Definition in_both : State :=
  copy_in (root ++ ["trusted"; "1020aa.pem"]) (armour cert1 "CERTIFICATE")
    (copy_in (root ++ ["rejected"; "1020aa.pem"]) (armour cert1 "CERTIFICATE") ready).

(** A directory made in the store from outside the class. *)
Definition mkdir_in (p : Path) (st : State) : State :=
  set_disk (mkFs ({[p]} ∪ dirs (disk st)) (files (disk st))) st.

(** An initialized root with a directory where the PEM file of [cert1]
    would be filed. *)
Definition obstructed : State := mkdir_in (root ++ ["rejected"; "1020aa.pem"]) ready.

(** An initialized root that holds the PEM file of [cert1] twice under
    [rejected/]: under its own name, and as a copy named [peer.pem]. *)
Definition twice_rejected : State :=
  copy_in (root ++ ["rejected"; "peer.pem"]) (armour cert1 "CERTIFICATE")
    (copy_in (root ++ ["rejected"; "1020aa.pem"]) (armour cert1 "CERTIFICATE") ready).

(** The toolchain behind the certificates of the manager's own key. *)
#[global] Instance issuance : IssuanceToolchain := {|
  openssl_self_signed := λ params n, Some (armour (list_byte_of_string "self") "CERTIFICATE");
  openssl_req := λ params n, Some (armour (list_byte_of_string "csr") "CERTIFICATE REQUEST")
|}.

(** A toolchain whose key generation fails. *)
Definition broken : Toolchain := {|
  openssl_genrsa := λ size n, None;
  configurationFileSimpleTemplate := list_byte_of_string "[ req ]"
|}.

(** A toolchain whose key generation fails on its first run only. *)
Definition flaky : Toolchain := {|
  openssl_genrsa := λ size n, if (n =? 0)%nat then None else Some (list_byte_of_string "key");
  configurationFileSimpleTemplate := list_byte_of_string "[ req ]"
|}.

Definition params : Params := mkParams (Some "urn:host:application") None None None None.

Definition config : Cli.LocalConfig := Cli.mkLocalConfig (Some root) None.

(** A POSIX host whose [fqdn] package answers. *)
Definition host : Hostname.Environment :=
  Hostname.mkEnvironment "linux" None None (Some "build.example.org") "build".

(** The same host after its name has been changed. *)
Definition renamed_host : Hostname.Environment :=
  Hostname.mkEnvironment "linux" None None (Some "other.example.org") "other".

(** A checkout with the package file two levels above the script. *)
Definition checkout : FileSystem :=
  mkFs {[ ["repo"]; ["repo"; "bin"]; ["repo"; "bin"; "cli"] ]}
       {[ ["repo"; "package.json"] := list_byte_of_string "{}" ]}.

End Fixture.

(** * Properties *)

(** ** Tactics *)

Ltac st_simpl := cbn [disk dirs files _thumbs events draws revocations set_disk set_thumbs add_event next_draw add_revocation fst snd negb] in *.
Ltac path_neq :=
    let E := fresh in
    intros E; apply app_inv_head in E; discriminate E.

(** ** Paths *)

Lemma under_app (base folder p : Path) :
  under (base ++ folder) (base ++ p) = under folder p.
Proof.
  induction base as [|b base IH]; simpl; [done|].
  by rewrite String.eqb_refl.
Qed.

Lemma under_spec (folder p : Path) :
  under folder p = true ↔ ∃ rest, rest ≠ [] ∧ p = folder ++ rest.
Proof.
  revert p. induction folder as [|f folder IH]; intros [|x p]; simpl.
  - split; [done|]. by intros ([|??] & ? & ?).
  - split; [|done]. intros _. by exists (x :: p).
  - split; [done|]. by intros (? & ? & ?).
  - destruct (String.eqb_spec f x) as [->|Hne].
    + rewrite IH. split; intros (rest & ? & ?); exists rest; split; congruence.
    + split; [done|]. intros (rest & ? & ?). congruence.
Qed.

Lemma under_irrefl (folder : Path) : under folder folder = false.
Proof. induction folder as [|f folder IH]; simpl; [done|]. by rewrite String.eqb_refl. Qed.

(** ** The directory walk *)

Section Walk.

Context `{NodeOpcuaCrypto} `{Toolchain}.
Variable this : CertificateManager.

Lemma elem_of_walk folder d p data :
  (p, data) ∈ walk folder d ↔ files d !! p = Some data ∧ under folder p = true.
Proof.
  unfold walk. rewrite list_elem_of_In, List.filter_In, <- list_elem_of_In.
  by rewrite elem_of_map_to_list.
Qed.

Lemma elem_of_scanned folder d t :
  t ∈ scanned folder d ↔
  ∃ p data, files d !! p = Some data ∧ under folder p = true ∧ readThumbprint data = t.
Proof.
  unfold scanned. rewrite elem_of_list_to_set, list_elem_of_fmap. split.
  - intros (data & -> & Hin). apply list_elem_of_fmap in Hin as ([p data'] & -> & Hin).
    apply elem_of_walk in Hin as [??]. by exists p, data'.
  - intros (p & data & Hf & Hu & <-). exists data. split; [done|].
    apply list_elem_of_fmap. exists (p, data). split; [done|]. by apply elem_of_walk.
Qed.

Lemma foldl_index (l : list (Path * Buffer)) (index : gset Thumbprint) :
  foldl (λ idx e, {[readThumbprint e.2]} ∪ idx) index l
  = index ∪ list_to_set (readThumbprint <$> l.*2).
Proof.
  revert index. induction l as [|e l IH]; intros index; simpl.
  - set_solver.
  - rewrite IH. set_solver.
Qed.

Lemma _readCertificates_eq st :
  _readCertificates this st = (Returned None, rescan this st).
Proof.
  unfold _readCertificates, series, _f, rescan, rescanned, scanned.
  unfold mbind, M_bind, mret, M_ret, get_state, modify. simpl.
  rewrite !foldl_index. unfold set_thumbs, add_event; simpl.
  by rewrite <- app_assoc.
Qed.

Lemma _getCertificateStatus_eq c st :
  _getCertificateStatus this c st
  = (Returned (inr (lookup_status (thumbprint_of c) (rescanned this st))), rescan this st).
Proof.
  unfold _getCertificateStatus, mbind, M_bind. rewrite _readCertificates_eq.
  unfold lookup_status, get_state, mret, M_ret. simpl.
  by repeat case_bool_decide.
Qed.

Lemma rescanned_idem st : rescanned this (rescan this st) = rescanned this st.
Proof.
  unfold rescanned. simpl. f_equal; set_solver.
Qed.

End Walk.

(** ** Status lookup *)

Section StatusLookup.

Context `{NodeOpcuaCrypto} `{Toolchain}.
Variable this : CertificateManager.

(** The lookup never fails and never throws. *)
Lemma _getCertificateStatus_returns c st :
  ∃ s, (_getCertificateStatus this c st).1 = Returned (inr s).
Proof. rewrite _getCertificateStatus_eq. eauto. Qed.

Lemma lookup_status_rejected t th :
  lookup_status t th = rejected ↔ t ∈ Thumbs.rejected th.
Proof. unfold lookup_status. repeat case_bool_decide; naive_solver. Qed.

Lemma lookup_status_trusted t th :
  lookup_status t th = trusted ↔ (t ∉ Thumbs.rejected th) ∧ t ∈ Thumbs.trusted th.
Proof. unfold lookup_status. repeat case_bool_decide; naive_solver. Qed.

Lemma lookup_status_unknown t th :
  lookup_status t th = unknown ↔ (t ∉ Thumbs.rejected th) ∧ (t ∉ Thumbs.trusted th).
Proof. unfold lookup_status. repeat case_bool_decide; naive_solver. Qed.

(** C10: a thumbprint recorded as rejected and as trusted, in the index
    or by a file below each folder, is answered [rejected]: the rejected
    set is looked up first. *)
Theorem rejected_wins_tie c st :
  thumbprint_of c ∈ Thumbs.rejected (_thumbs st) ∪ scanned (rejectedDir this) (disk st) →
  thumbprint_of c ∈ Thumbs.trusted (_thumbs st) ∪ scanned (trustedDir this) (disk st) →
  (_getCertificateStatus this c st).1 = Returned (inr rejected).
Proof.
  intros Hrej _. rewrite _getCertificateStatus_eq. simpl. do 2 f_equal.
  by apply lookup_status_rejected.
Qed.

(** C3, as the code has it: a status query always answers; it walks
    [trusted/] then [rejected/] every time it is called, the second
    query as the first; the thumbprints of the files met are added to
    the index, which keeps what it held, and the answer is read from
    that merged index, the rejected set first; a second query on the
    unmodified store gives the same answer and leaves the index as the
    first query left it. *)
Theorem status_query_rescans c st :
  let first := _getCertificateStatus this c st in
  let second := _getCertificateStatus this c first.2 in
  let found folder t :=
    ∃ p data, files (disk st) !! p = Some data ∧ under folder p = true ∧
              readThumbprint data = t in
  (∃ s, first.1 = Returned (inr s)) ∧
  second.1 = first.1 ∧
  _thumbs second.2 = _thumbs first.2 ∧
  disk second.2 = disk st ∧
  new_events st first.2 = [EvWalk (trustedDir this); EvWalk (rejectedDir this)] ∧
  new_events first.2 second.2 = [EvWalk (trustedDir this); EvWalk (rejectedDir this)] ∧
  (∀ t, t ∈ Thumbs.trusted (_thumbs first.2) ↔
        t ∈ Thumbs.trusted (_thumbs st) ∨ found (trustedDir this) t) ∧
  (∀ t, t ∈ Thumbs.rejected (_thumbs first.2) ↔
        t ∈ Thumbs.rejected (_thumbs st) ∨ found (rejectedDir this) t) ∧
  first.1 = Returned (inr (
    if bool_decide (thumbprint_of c ∈ Thumbs.rejected (_thumbs first.2)) then rejected
    else if bool_decide (thumbprint_of c ∈ Thumbs.trusted (_thumbs first.2)) then trusted
    else unknown)).
Proof.
  cbv zeta. rewrite !_getCertificateStatus_eq. cbn [fst snd].
  rewrite rescanned_idem. unfold new_events, rescan. st_simpl.
  rewrite !drop_app_length. split_and!; eauto.
  - apply (rescanned_idem this st).
  - intros t. unfold rescanned. cbn [Thumbs.trusted].
    by rewrite elem_of_union, elem_of_scanned.
  - intros t. unfold rescanned. cbn [Thumbs.rejected].
    by rewrite elem_of_union, elem_of_scanned.
Qed.

End StatusLookup.

(** ** Verification *)

Section Verify.

Context `{NodeOpcuaCrypto} `{Toolchain}.
Variable this : CertificateManager.

(** C6, as the code has it: a missing certificate is refused with
    [BadSecurityChecksFailed] by the first check, and nothing else is
    done: the state is left as it was. *)
Theorem verify_missing_certificate now st :
  verifyCertificate this None now st = (Returned (Some BadSecurityChecksFailed), st).
Proof. done. Qed.

(** A certificate that is present, even of length zero, is never
    answered with the code of the first check. *)
Lemma verify_present_not_missing c now st :
  (verifyCertificate this (Some c) now st).1 ≠ Returned (Some BadSecurityChecksFailed).
Proof.
  unfold verifyCertificate. destruct (exploreCertificateInfo c) as [[nb na]|]; [|done].
  unfold series, mbind, M_bind, mret, M_ret.
  destruct (nb >? now); [done|]. destruct (na <=? now); [done|].
  rewrite _getCertificateStatus_eq.
  by destruct (lookup_status _ _).
Qed.

(** C7: a certificate that is not yet active, or that has expired, is
    refused with [BadCertificateTimeInvalid] whatever the store and the
    index hold; the trust status is not looked up. *)
Theorem verify_time_invalid c notBefore notAfter now st :
  exploreCertificateInfo c = Some (notBefore, notAfter) →
  now < notBefore ∨ notAfter <= now →
  verifyCertificate this (Some c) now st
  = (Returned (Some BadCertificateTimeInvalid), st).
Proof.
  intros Hinfo Htime. unfold verifyCertificate. rewrite Hinfo.
  unfold series, mbind, M_bind, mret, M_ret.
  destruct (Z.gtb_spec notBefore now) as [|Hnb]; [done|].
  destruct (Z.leb_spec notAfter now) as [|Hna]; [done|]. lia.
Qed.

(** The answer of the chain for a certificate inside its validity
    window. *)
Lemma verify_in_window c notBefore notAfter now st :
  exploreCertificateInfo c = Some (notBefore, notAfter) →
  notBefore <= now < notAfter →
  verifyCertificate this (Some c) now st
  = (Returned (match lookup_status (thumbprint_of c) (rescanned this st) with
               | trusted => None
               | _ => Some BadCertificateUntrusted
               end), rescan this st).
Proof.
  intros Hinfo Htime. unfold verifyCertificate. rewrite Hinfo.
  unfold series, mbind, M_bind, mret, M_ret.
  destruct (Z.gtb_spec notBefore now) as [|Hnb]; [lia|].
  destruct (Z.leb_spec notAfter now) as [|Hna]; [lia|].
  rewrite _getCertificateStatus_eq.
  by destruct (lookup_status _ _).
Qed.

(** C8: inside the validity window, a certificate whose status is
    [unknown] or [rejected] is refused with [BadCertificateUntrusted],
    and the chain passes exactly when the status is [trusted]. *)
Theorem verify_untrusted c notBefore notAfter now st s :
  exploreCertificateInfo c = Some (notBefore, notAfter) →
  notBefore <= now < notAfter →
  (_getCertificateStatus this c st).1 = Returned (inr s) →
  (s = unknown ∨ s = rejected →
     (verifyCertificate this (Some c) now st).1 = Returned (Some BadCertificateUntrusted)) ∧
  ((verifyCertificate this (Some c) now st).1 = Returned None ↔ s = trusted).
Proof.
  intros Hinfo Htime Hs. rewrite (verify_in_window _ _ _ _ _ Hinfo Htime).
  rewrite _getCertificateStatus_eq in Hs. simpl in *.
  injection Hs as <-.
  destruct (lookup_status (thumbprint_of c) (rescanned this st));
    (split; [intros [?|?]|split; intros ?]); congruence.
Qed.

(** The chain never asks for the revocation record: its outcome and the
    store it leaves are the same whatever has been revoked. *)
Lemma verify_ignores_revocations oc now st revs :
  let st' := mkState (disk st) (_thumbs st) (events st) (draws st) revs in
  (verifyCertificate this oc now st').1 = (verifyCertificate this oc now st).1.
Proof.
  simpl. unfold verifyCertificate. destruct oc as [c|]; [|done].
  destruct (exploreCertificateInfo c) as [[nb na]|]; [|done].
  unfold series, mbind, M_bind, mret, M_ret.
  destruct (nb >? now); [done|]. destruct (na <=? now); [done|].
  rewrite !_getCertificateStatus_eq. unfold rescanned. simpl.
  by destruct (lookup_status _ _).
Qed.

(** No outcome of the chain is [BadCertificateRevoked]. *)
Lemma verify_never_revoked oc now st :
  (verifyCertificate this oc now st).1 ≠ Returned (Some BadCertificateRevoked).
Proof.
  unfold verifyCertificate. destruct oc as [c|]; [|done].
  destruct (exploreCertificateInfo c) as [[nb na]|]; [|done].
  unfold series, mbind, M_bind, mret, M_ret.
  destruct (nb >? now); [done|]. destruct (na <=? now); [done|].
  rewrite _getCertificateStatus_eq.
  by destruct (lookup_status _ _).
Qed.

(** A trusted certificate inside its validity window passes, whatever
    the revocation record holds. *)
Lemma verify_trusted_passes c notBefore notAfter now st :
  exploreCertificateInfo c = Some (notBefore, notAfter) →
  notBefore <= now < notAfter →
  (_getCertificateStatus this c st).1 = Returned (inr trusted) →
  (verifyCertificate this (Some c) now st).1 = Returned None.
Proof.
  intros Hinfo Htime Hs. rewrite (verify_in_window _ _ _ _ _ Hinfo Htime).
  rewrite _getCertificateStatus_eq in Hs. simpl in *. injection Hs as ->. done.
Qed.

End Verify.

(** ** Bootstrap *)

Section Bootstrap.
Context `{NodeOpcuaCrypto} `{Toolchain}.
Variable this : CertificateManager.

Lemma existsSync_dir p d : p ∈ dirs d → existsSync p d = true.
Proof. intros Hp. unfold existsSync. by rewrite bool_decide_eq_true_2. Qed.

Lemma existsSync_file p d : is_Some (files d !! p) → existsSync p d = true.
Proof. intros Hp. unfold existsSync. rewrite (bool_decide_eq_true_2 (is_Some _)) by done. apply orb_true_r. Qed.

Lemma existsSync_false p d : p ∉ dirs d → files d !! p = None → existsSync p d = false.
Proof.
  intros Hp Hf. unfold existsSync. rewrite bool_decide_eq_false_2 by done.
  rewrite bool_decide_eq_false_2; [done|]. rewrite Hf. by intros [??].
Qed.

Lemma dirname_1 (base : Path) a : dirname (base ++ [a]) = base.
Proof. unfold dirname. apply removelast_last. Qed.
Lemma dirname_2 (base : Path) a b : dirname (base ++ [a; b]) = base ++ [a].
Proof. replace (base ++ [a; b]) with ((base ++ [a]) ++ [b]) by (by rewrite <- app_assoc). apply dirname_1. Qed.
Lemma dirname_3 (base : Path) a b c : dirname (base ++ [a; b; c]) = base ++ [a; b].
Proof. replace (base ++ [a; b; c]) with ((base ++ [a; b]) ++ [c]) by (by rewrite <- app_assoc). apply dirname_1. Qed.

Lemma mkdir_exists folder st :
  existsSync folder (disk st) = true → mkdir folder st = (Returned tt, st).
Proof. intros Hex. unfold mkdir, fs_exists, mbind, M_bind, get_state, mret, M_ret. by rewrite Hex. Qed.

Lemma mkdir_new folder st :
  existsSync folder (disk st) = false →
  dirname folder ∈ dirs (disk st) →
  mkdir folder st
  = (Returned tt,
     set_disk (mkFs ({[folder]} ∪ dirs (disk st)) (files (disk st)))
              (add_event (EvMkdir folder) st)).
Proof.
  intros Hex Hdir.
  unfold mkdir, fs_exists, fs_mkdirSync, mbind, M_bind, get_state, mret, M_ret, modify.
  rewrite Hex. st_simpl. rewrite Hex. by rewrite bool_decide_eq_true_2.
Qed.


Lemma under_base (base : Path) x l : under base (base ++ x :: l) = true.
Proof. induction base as [|b base IH]; simpl; [done|]. by rewrite String.eqb_refl. Qed.

Lemma fs_writeFileSync_ok p data st :
  p ∉ dirs (disk st) →
  dirname p ∈ dirs (disk st) →
  fs_writeFileSync p data st
  = (Returned tt,
     set_disk (mkFs (dirs (disk st)) (<[p := data]> (files (disk st))))
              (add_event (EvWriteFile p data) st)).
Proof.
  intros Hfree Hdir.
  unfold fs_writeFileSync, write_result, mbind, M_bind, get_state, modify, mret, M_ret.
  st_simpl. rewrite bool_decide_eq_false_2 by done. by rewrite bool_decide_eq_true_2.
Qed.

Lemma fs_writeFileSync_isdir p data st :
  p ∈ dirs (disk st) →
  fs_writeFileSync p data st = (Thrown (EISDIR p), add_event (EvWriteFile p data) st).
Proof.
  intros Hdir.
  unfold fs_writeFileSync, write_result, mbind, M_bind, get_state, modify, mret, M_ret.
  st_simpl. by rewrite bool_decide_eq_true_2.
Qed.

Lemma createPrivateKey_ok p size key st :
  openssl_genrsa size (draws st) = Some key →
  dirname p ∈ dirs (disk st) →
  createPrivateKey p size st
  = (Returned None,
     set_disk (mkFs (dirs (disk st)) (<[p := key]> (files (disk st))))
              (next_draw (add_event (EvCreatePrivateKey p size) st))).
Proof.
  intros Hkey Hdir. unfold createPrivateKey, mbind, M_bind, get_state, modify, mret, M_ret.
  simpl. rewrite Hkey. by rewrite bool_decide_eq_true_2.
Qed.

Lemma initialize_fresh st key :
  fresh_root (rootDir this) (disk st) →
  openssl_genrsa (keySize this) (draws st) = Some key →
  ∃ st1, initialize this st = (Returned None, st1) ∧
    layout_ready this (disk st1) ∧
    files (disk st1) !! configFile this = Some configurationFileSimpleTemplate ∧
    files (disk st1) !! privateKey this = Some key ∧
    new_events st st1 =
      [EvMkdir (rootDir this ++ ["own"]); EvMkdir (rootDir this ++ ["own"; "certs"]);
       EvMkdir (rootDir this ++ ["own"; "private"]); EvMkdir (trustedDir this);
       EvMkdir (rejectedDir this);
       EvWriteFile (configFile this) configurationFileSimpleTemplate;
       EvCreatePrivateKey (privateKey this) (keySize this)] ∧
    _thumbs st1 = _thumbs st ∧
    (∀ p, p ≠ configFile this → p ≠ privateKey this →
          files (disk st1) !! p = files (disk st) !! p) ∧
    ∀ p, p ∈ dirs (disk st1) →
         p ∈ dirs (disk st) ∨
         p ∈ [rootDir this ++ ["own"]; rootDir this ++ ["own"; "certs"];
              rootDir this ++ ["own"; "private"]; trustedDir this; rejectedDir this].
Proof.
  intros [Hroot Hfresh] Hkey.
  assert (Hnew : ∀ x l, (rootDir this ++ x :: l ∉ dirs (disk st)) ∧
                        files (disk st) !! (rootDir this ++ x :: l) = None).
  { intros x l. apply Hfresh, under_base. }
  unfold initialize, configFile, privateKey, rootDir in *.
  unfold mbind at 1, M_bind at 1.
  rewrite mkdir_exists by by apply existsSync_dir.
  unfold mbind at 1, M_bind at 1.
  rewrite mkdir_new; cycle 1.
  { apply existsSync_false; apply Hnew. }
  { by rewrite dirname_1. }
  unfold mbind at 1, M_bind at 1.
  rewrite mkdir_new; cycle 1.
  { apply existsSync_false; simpl; [|apply Hnew].
    rewrite not_elem_of_union, not_elem_of_singleton. split; [path_neq|apply Hnew]. }
  { rewrite dirname_2. simpl. set_solver. }
  unfold mbind at 1, M_bind at 1.
  rewrite mkdir_new; cycle 1.
  { apply existsSync_false; simpl; [|apply Hnew].
    rewrite !not_elem_of_union, !not_elem_of_singleton. split_and!; [path_neq..|apply Hnew]. }
  { rewrite dirname_2. simpl. set_solver. }
  unfold mbind at 1, M_bind at 1.
  rewrite mkdir_new; cycle 1.
  { apply existsSync_false; simpl; [|apply Hnew].
    rewrite !not_elem_of_union, !not_elem_of_singleton. split_and!; [path_neq..|apply Hnew]. }
  { rewrite dirname_1. simpl. set_solver. }
  unfold mbind at 1, M_bind at 1.
  rewrite mkdir_new; cycle 1.
  { apply existsSync_false; simpl; [|apply Hnew].
    rewrite !not_elem_of_union, !not_elem_of_singleton. split_and!; [path_neq..|apply Hnew]. }
  { rewrite dirname_1. simpl. set_solver. }
  unfold mbind at 1, M_bind at 1.
  rewrite fs_writeFileSync_ok; cycle 1.
  { simpl. rewrite !not_elem_of_union, !not_elem_of_singleton. split_and!; [path_neq..|apply Hnew]. }
  { rewrite dirname_2. simpl. set_solver. }
  unfold mbind at 1, M_bind at 1. unfold fs_exists at 1, mbind at 1, M_bind at 1, get_state, mret, M_ret.
  rewrite existsSync_false; cycle 1.
  { simpl. rewrite !not_elem_of_union, !not_elem_of_singleton. split_and!; [path_neq..|apply Hnew]. }
  { simpl. rewrite lookup_insert_ne by path_neq. apply Hnew. }
  cbn [negb]. cbv iota.
  rewrite (createPrivateKey_ok _ _ key); cycle 1.
  { done. }
  { rewrite dirname_3. simpl. set_solver. }
  eexists. split; [reflexivity|]. st_simpl. unfold new_events. st_simpl.
  split_and!.
  - unfold layout_ready, trustedDir, rejectedDir, rootDir. simpl. set_solver.
  - rewrite lookup_insert_ne by path_neq. by rewrite lookup_insert_eq.
  - by rewrite lookup_insert_eq.
  - rewrite <- !app_assoc. simpl. by rewrite drop_app_length.
  - done.
  - intros p Hcfg Hpk. by rewrite !lookup_insert_ne.
  - intros p. unfold trustedDir, rejectedDir, rootDir. set_solver.
Qed.

(** After a bootstrap of a fresh root the only directories below the
    root are those of the skeleton. *)
Lemma fresh_not_dir st st1 rest :
  fresh_root (rootDir this) (disk st) →
  (∀ p, p ∈ dirs (disk st1) →
        p ∈ dirs (disk st) ∨
        p ∈ [rootDir this ++ ["own"]; rootDir this ++ ["own"; "certs"];
             rootDir this ++ ["own"; "private"]; trustedDir this; rejectedDir this]) →
  rest ≠ [] →
  rest ∉ [["own"]; ["own"; "certs"]; ["own"; "private"]; ["trusted"]; ["rejected"]] →
  rootDir this ++ rest ∉ dirs (disk st1).
Proof.
  intros [_ Hfresh] Hdirs Hrest Hskel [Hin|Hin]%Hdirs.
  - destruct rest as [|x l]; [done|].
    by destruct (Hfresh (rootDir this ++ x :: l) (under_base _ _ _)).
  - apply Hskel. unfold trustedDir, rejectedDir in Hin.
    rewrite !elem_of_cons in Hin. rewrite !elem_of_cons.
    destruct Hin as [E|[E|[E|[E|[E|E]]]]];
      [apply app_inv_head in E; subst rest; tauto..|by apply elem_of_nil in E].
Qed.

Lemma initialize_fresh_unblocked st key :
  fresh_root (rootDir this) (disk st) →
  openssl_genrsa (keySize this) (draws st) = Some key →
  unblocked this (disk (initialize this st).2).
Proof.
  intros Hfresh Hkey.
  destruct (initialize_fresh st key Hfresh Hkey) as (st1 & -> & _ & _ & _ & _ & _ & _ & Hdirs).
  cbn [snd]. split.
  - apply (fresh_not_dir st st1 ["own"; "openssl.cnf"] Hfresh Hdirs); [done|].
    rewrite !not_elem_of_cons. split_and!; try done. apply not_elem_of_nil.
  - intros s t Hs. apply (fresh_not_dir st st1 [status_name s; t +:+ ".pem"] Hfresh Hdirs); [done|].
    rewrite !not_elem_of_cons. split_and!; try done; [by destruct s..|apply not_elem_of_nil].
Qed.

(** On a store whose skeleton is in place, [initialize] rewrites the
    configuration asset and asks for a key only when there is none. *)
Lemma initialize_ready st :
  layout_ready this (disk st) →
  configFile this ∉ dirs (disk st) →
  let st' := set_disk (mkFs (dirs (disk st))
                            (<[configFile this := configurationFileSimpleTemplate]> (files (disk st))))
                      (add_event (EvWriteFile (configFile this) configurationFileSimpleTemplate) st) in
  initialize this st
  = if existsSync (privateKey this) (disk st') then (Returned None, st')
    else createPrivateKey (privateKey this) (keySize this) st'.
Proof.
  intros (Hroot & Hown & Hcerts & Hprivate & Htrusted & Hrejected) Hfree. simpl.
  unfold trustedDir, rejectedDir, rootDir in *.
  unfold initialize, configFile, privateKey, rootDir in *.
  do 6 (unfold mbind at 1, M_bind at 1; rewrite mkdir_exists by by apply existsSync_dir).
  unfold mbind at 1, M_bind at 1.
  rewrite fs_writeFileSync_ok; [|done|by rewrite dirname_2].
  unfold mbind at 1, M_bind at 1, fs_exists at 1, mbind at 1, M_bind at 1, get_state, mret, M_ret.
  by destruct (existsSync _ _).
Qed.

(** With a directory where the configuration asset goes, [initialize]
    throws out of [fs.writeFileSync]. *)
Lemma initialize_blocked st :
  layout_ready this (disk st) →
  configFile this ∈ dirs (disk st) →
  initialize this st
  = (Thrown (EISDIR (configFile this)),
     add_event (EvWriteFile (configFile this) configurationFileSimpleTemplate) st).
Proof.
  intros (Hroot & Hown & Hcerts & Hprivate & Htrusted & Hrejected) Hdir.
  unfold trustedDir, rejectedDir, rootDir in *.
  unfold initialize, configFile, privateKey, rootDir in *.
  do 6 (unfold mbind at 1, M_bind at 1; rewrite mkdir_exists by by apply existsSync_dir).
  unfold mbind at 1, M_bind at 1.
  by rewrite fs_writeFileSync_isdir.
Qed.

Lemma constructor_existing options st :
  opt_location options ∈ dirs (disk st) →
  constructor options st
  = (Returned (mkManager (keySize_or_default (opt_keySize options)) (opt_location options)),
     set_thumbs (Thumbs.mk ∅ ∅) st).
Proof.
  intros Hloc. unfold constructor.
  unfold mbind at 1, M_bind at 1. rewrite mkdir_exists by by apply existsSync_dir.
  unfold mbind at 1, M_bind at 1, fs_exists at 1, mbind at 1, M_bind at 1, get_state, mret, M_ret.
  rewrite existsSync_dir by done. done.
Qed.
End Bootstrap.

Section BootstrapTwice.

Context `{NodeOpcuaCrypto} `{Toolchain}.

(** C9: on a fresh root the manager the constructor makes has the
    configured key size ([options.keySize], or 2048 when it is absent or
    zero), and a first [initialize] makes the skeleton, writes the
    configuration asset and has a key of exactly that size generated; a
    second [initialize] succeeds, leaves the whole disk as the first call
    left it, asks for no key, and the key file still holds the same
    bytes. *)
Theorem initialize_idempotent options size st key :
  fresh_root (opt_location options) (disk st) →
  size = match opt_keySize options with
         | Some configured => if configured =? 0 then 2048 else configured
         | None => 2048
         end →
  openssl_genrsa size (draws st) = Some key →
  ∃ this st0,
    constructor options st = (Returned this, st0) ∧
    keySize this = size ∧
    location this = opt_location options ∧
    let first := initialize this st0 in
    let second := initialize this first.2 in
    first.1 = Returned None ∧
    layout_ready this (disk first.2) ∧
    files (disk first.2) !! configFile this = Some configurationFileSimpleTemplate ∧
    files (disk first.2) !! privateKey this = Some key ∧
    new_events st0 first.2 =
      [EvMkdir (rootDir this ++ ["own"]); EvMkdir (rootDir this ++ ["own"; "certs"]);
       EvMkdir (rootDir this ++ ["own"; "private"]); EvMkdir (trustedDir this);
       EvMkdir (rejectedDir this);
       EvWriteFile (configFile this) configurationFileSimpleTemplate;
       EvCreatePrivateKey (privateKey this) size] ∧
    second.1 = Returned None ∧
    disk second.2 = disk first.2 ∧
    ¬ generates_key (new_events first.2 second.2) ∧
    files (disk second.2) !! privateKey this = Some key.
Proof.
  intros Hfresh Hsize Hkey.
  assert (Hsize' : keySize_or_default (opt_keySize options) = size) by (by subst size).
  eexists _, _. split; [apply constructor_existing, Hfresh|].
  rewrite Hsize'. split; [done|]. split; [done|].
  set (this := mkManager _ _). set (st0 := set_thumbs _ st).
  assert (Hfree : unblocked this (disk (initialize this st0).2))
    by (by apply (initialize_fresh_unblocked this st0 key)).
  destruct (initialize_fresh this st0 key) as (st1 & Hinit & Hready & Hcfg & Hpk & Hev & _ & _ & _);
    [done..|].
  cbv zeta. rewrite Hinit in Hfree |- *. cbn [fst snd] in *. rewrite Hev.
  rewrite (initialize_ready this st1 Hready (proj1 Hfree)). cbv zeta.
  rewrite existsSync_file; cycle 1.
  { st_simpl. rewrite lookup_insert_ne by path_neq. done. }
  cbn [fst snd]. st_simpl. unfold new_events. st_simpl.
  rewrite drop_app_length, (insert_id _ _ _ Hcfg).
  split_and!; try done.
  - by destruct (disk st1).
  - intros (p & size' & Hin). set_solver.
Qed.
End BootstrapTwice.

(** ** Names in the store *)

Lemma append_inj_r (s1 s2 x : string) : s1 +:+ x = s2 +:+ x → s1 = s2.
Proof.
  assert (Hlen : ∀ a b : string, String.length (a +:+ b) = (String.length a + String.length b)%nat).
  { intros a b. induction a as [|ch a IH]; simpl; [done|]. by rewrite IH. }
  revert s2. induction s1 as [|a s1 IH]; intros [|b s2] E; simpl in *.
  - done.
  - apply (f_equal String.length) in E. simpl in E. rewrite !Hlen in E. simpl in E. lia.
  - apply (f_equal String.length) in E. simpl in E. rewrite !Hlen in E. simpl in E. lia.
  - injection E as -> E. f_equal. by apply IH.
Qed.

Lemma status_name_inj s s' : status_name s = status_name s' → s = s'.
Proof. by destruct s, s'. Qed.

Section Names.
Context `{NodeOpcuaCrypto} `{Toolchain}.
Variable this : CertificateManager.

Lemma certificateName_inj s t s' t' :
  certificateName this s t = certificateName this s' t' → s = s' ∧ t = t'.
Proof.
  unfold certificateName. intros E%app_inv_head. injection E as Hs Ht.
  split; [by apply status_name_inj|by eapply append_inj_r].
Qed.

Lemma under_statusDir_name s s' t :
  under (statusDir this s) (certificateName this s' t) = true ↔ s = s'.
Proof.
  unfold statusDir, certificateName. rewrite under_app. simpl.
  destruct (String.eqb_spec (status_name s) (status_name s')) as [E|E].
  - split; [intros _; by apply status_name_inj|done].
  - split; [done|]. intros ->. done.
Qed.

Lemma configFile_outside s : under (statusDir this s) (configFile this) = false.
Proof. unfold statusDir, configFile, rootDir. rewrite under_app. by destruct s. Qed.

Lemma privateKey_outside s : under (statusDir this s) (privateKey this) = false.
Proof. unfold statusDir, privateKey, rootDir. rewrite under_app. by destruct s. Qed.

Lemma dirname_certificateName s t : dirname (certificateName this s t) = statusDir this s.
Proof. unfold certificateName, statusDir. apply dirname_2. Qed.

Lemma layout_statusDir s d : layout_ready this d → s ≠ unknown → statusDir this s ∈ dirs d.
Proof. intros (_ & _ & _ & _ & Ht & Hr) Hs. by destruct s. Qed.

(** Under [store_wf], a thumbprint is found by a walk of a folder exactly
    when the file of its name is there. *)
Lemma scanned_wf d s t :
  store_wf this d → s ≠ unknown →
  t ∈ scanned (statusDir this s) d ↔ is_Some (files d !! certificateName this s t).
Proof.
  intros Hwf Hs. rewrite elem_of_scanned. split.
  - intros (p & data & Hf & Hu & <-). rewrite <- (Hwf p data s Hf Hs Hu). eauto.
  - intros [data Hf]. exists (certificateName this s t), data. split; [done|].
    split; [by apply under_statusDir_name|].
    assert (Hname := Hwf _ data s Hf Hs (proj2 (under_statusDir_name s s t) eq_refl)).
    by apply certificateName_inj in Hname as [_ <-].
Qed.

Lemma same_store_refl st : same_store this st st.
Proof. done. Qed.

Lemma same_store_trans st1 st2 st3 :
  same_store this st1 st2 → same_store this st2 st3 → same_store this st1 st3.
Proof.
  intros (Ht & Hd & Hf) (Ht' & Hd' & Hf'). split_and!; [congruence..|].
  intros p s Hs Hu. by rewrite (Hf' p s Hs Hu), (Hf p s Hs Hu).
Qed.

Lemma same_store_scanned st st' s :
  same_store this st st' → s ≠ unknown →
  scanned (statusDir this s) (disk st') = scanned (statusDir this s) (disk st).
Proof.
  intros (_ & _ & Hf) Hs. apply set_eq. intros t. rewrite !elem_of_scanned.
  split; intros (p & data & Hp & Hu & Ht); exists p, data; split_and!; try done.
  - by rewrite <- (Hf p s Hs Hu).
  - by rewrite (Hf p s Hs Hu).
Qed.

Lemma same_store_rescanned st st' :
  same_store this st st' → rescanned this st' = rescanned this st.
Proof.
  intros Hs. unfold rescanned.
  change (rejectedDir this) with (statusDir this rejected).
  change (trustedDir this) with (statusDir this trusted).
  rewrite !(same_store_scanned st st') by done.
  destruct Hs as (-> & _). done.
Qed.

Lemma same_store_wf st st' :
  same_store this st st' → store_wf this (disk st) → store_wf this (disk st').
Proof.
  intros (_ & _ & Hf) Hwf p data s Hp Hs Hu. rewrite (Hf p s Hs Hu) in Hp. eauto.
Qed.

Lemma same_store_layout st st' :
  same_store this st st' → layout_ready this (disk st) → layout_ready this (disk st').
Proof. intros (_ & Hd & _). unfold layout_ready. by rewrite Hd. Qed.

(** A first [initialize] on a fresh root leaves the skeleton in place and
    a well-formed (empty) store. *)
Lemma bootstrap_store_ok st key :
  fresh_root (rootDir this) (disk st) →
  openssl_genrsa (keySize this) (draws st) = Some key →
  layout_ready this (disk (initialize this st).2) ∧
  store_wf this (disk (initialize this st).2).
Proof.
  intros Hfresh Hkey.
  destruct (initialize_fresh this st key Hfresh Hkey)
    as (st1 & -> & Hready & _ & _ & _ & _ & Hframe & _).
  cbn [snd]. split; [done|]. intros p data s Hp Hs Hu.
  rewrite Hframe in Hp.
  - destruct Hfresh as [_ Hfresh]. destruct (Hfresh p) as [_ Hnone]; [|congruence].
    apply under_spec in Hu as (rest & Hrest & ->). unfold statusDir.
    rewrite <- app_assoc. apply under_base.
  - intros ->. by rewrite configFile_outside in Hu.
  - intros ->. by rewrite privateKey_outside in Hu.
Qed.

Lemma store_wf_named d : store_wf this d ↔ ∀ t, named_for this t d.
Proof.
  split.
  - intros Hwf t p data s Hp Hs Hu <-. by apply Hwf.
  - intros Hnamed p data s Hp Hs Hu. by apply (Hnamed (readThumbprint data) p data s).
Qed.

Lemma same_store_named st st' t :
  same_store this st st' → named_for this t (disk st) → named_for this t (disk st').
Proof.
  intros (_ & _ & Hf) Hnamed p data s Hp Hs Hu. rewrite (Hf p s Hs Hu) in Hp. eauto.
Qed.

Lemma same_store_unblocked st st' :
  same_store this st st' → unblocked this (disk st) → unblocked this (disk st').
Proof. intros (_ & Hd & _). unfold unblocked. by rewrite Hd. Qed.

(** Under [named_for], the thumbprint is found by a walk of a folder
    exactly when the file of its name is there and holds it. *)
Lemma scanned_named d s t :
  named_for this t d → s ≠ unknown →
  t ∈ scanned (statusDir this s) d ↔
  ∃ data, files d !! certificateName this s t = Some data ∧ readThumbprint data = t.
Proof.
  intros Hnamed Hs. rewrite elem_of_scanned. split.
  - intros (p & data & Hp & Hu & Ht). exists data.
    by rewrite <- (Hnamed p data s Hp Hs Hu Ht).
  - intros (data & Hp & Ht). exists (certificateName this s t), data.
    split_and!; [done| |done]. by apply under_statusDir_name.
Qed.

End Names.

(** ** The trust store *)

Section TrustStore.
Context `{NodeOpcuaCrypto} `{Toolchain}.
Variable this : CertificateManager.

Lemma initialize_ready_post st :
  layout_ready this (disk st) →
  configFile this ∉ dirs (disk st) →
  ∃ r st1 evs,
    initialize this st = (Returned r, st1) ∧
    same_store this st st1 ∧
    events st1 = events st ++ evs ∧ bootstrap_log this evs.
Proof.
  intros Hready Hfree. rewrite (initialize_ready this st Hready Hfree). cbv zeta.
  set (st' := set_disk _ _).
  assert (Hsame : same_store this st st').
  { split_and!; [done..|]. intros p s Hs Hu. subst st'. st_simpl.
    rewrite lookup_insert_ne; [done|]. intros <-. by rewrite configFile_outside in Hu. }
  destruct (existsSync _ _).
  { exists None, st', [EvWriteFile (configFile this) configurationFileSimpleTemplate].
    split_and!; [done..|]. intros e ->%list_elem_of_singleton. by left. }
  unfold createPrivateKey, mbind, M_bind, get_state, modify, mret, M_ret.
  set (evs := [EvWriteFile (configFile this) configurationFileSimpleTemplate;
               EvCreatePrivateKey (privateKey this) (keySize this)]).
  assert (Hlog : bootstrap_log this evs).
  { intros e He. subst evs. set_solver. }
  destruct (openssl_genrsa _ _) as [key|]; [case_bool_decide|];
    eexists _, _, evs; (split; [reflexivity|]); (split; [|split; [|done]]);
    subst st' evs; st_simpl; rewrite <- ?app_assoc; try done.
  split_and!; [done..|]. intros p s Hs Hu. st_simpl.
  rewrite lookup_insert_ne; [|intros <-; by rewrite privateKey_outside in Hu].
  rewrite lookup_insert_ne; [done|]. intros <-. by rewrite configFile_outside in Hu.
Qed.

Lemma fs_writeFile_ok p data st :
  p ∉ dirs (disk st) →
  dirname p ∈ dirs (disk st) →
  fs_writeFile p data st
  = (Returned None,
     set_disk (mkFs (dirs (disk st)) (<[p := data]> (files (disk st))))
              (add_event (EvWriteFile p data) st)).
Proof.
  intros Hfree Hdir.
  unfold fs_writeFile, write_result, mbind, M_bind, get_state, modify, mret, M_ret.
  st_simpl. rewrite bool_decide_eq_false_2 by done. by rewrite bool_decide_eq_true_2.
Qed.

Lemma fs_writeFile_isdir p data st :
  p ∈ dirs (disk st) →
  fs_writeFile p data st
  = (Returned (Some (EISDIR p)), add_event (EvWriteFile p data) st).
Proof.
  intros Hdir.
  unfold fs_writeFile, write_result, mbind, M_bind, get_state, modify, mret, M_ret.
  st_simpl. by rewrite bool_decide_eq_true_2.
Qed.

(** The caller-facing status query on a store whose skeleton is in place
    and whose configuration file can be written: bootstrap, look up, and
    file a never-seen certificate as rejected, unless a directory has its
    name. *)
Lemma getCertificateStatus_cases c st :
  layout_ready this (disk st) →
  configFile this ∉ dirs (disk st) →
  ∃ st1 evs,
    same_store this st st1 ∧ events st1 = events st ++ evs ∧ bootstrap_log this evs ∧
    getCertificateStatus this c st
    = match status_in this st (thumbprint_of c) with
      | unknown =>
          let name := certificateName this rejected (thumbprint_of c) in
          if bool_decide (name ∈ dirs (disk st))
          then (Returned (inl (EISDIR name)),
                add_event (EvWriteFile name (toPem c "CERTIFICATE")) (rescan this st1))
          else (Returned (inr rejected), persisted this c (rescan this st1))
      | s => (Returned (inr s), rescan this st1)
      end.
Proof.
  intros Hready Hfree.
  destruct (initialize_ready_post st Hready Hfree) as (r & st1 & evs & Hinit & Hsame & Hev & Hlog).
  exists st1, evs. split_and!; [done..|].
  unfold getCertificateStatus. unfold mbind at 1, M_bind at 1. rewrite Hinit.
  unfold mbind at 1, M_bind at 1. rewrite _getCertificateStatus_eq.
  unfold status_in. rewrite (same_store_rescanned this st st1 Hsame).
  destruct (lookup_status _ _); [|done..].
  cbv zeta. change (rootDir this ++ ["rejected"; thumbprint_of c +:+ ".pem"])
    with (certificateName this rejected (thumbprint_of c)).
  assert (Hdirs : dirs (disk (rescan this st1)) = dirs (disk st)).
  { unfold rescan. st_simpl. by destruct Hsame as (_ & -> & _). }
  unfold mbind, M_bind. case_bool_decide as Hdir.
  - rewrite fs_writeFile_isdir; [done|]. by rewrite Hdirs.
  - rewrite fs_writeFile_ok; [done| |].
    + by rewrite Hdirs.
    + rewrite dirname_certificateName, Hdirs. by apply (layout_statusDir this rejected).
Qed.

Lemma getCertificateStatus_ready c st :
  layout_ready this (disk st) →
  configFile this ∉ dirs (disk st) →
  (status_in this st (thumbprint_of c) = unknown →
   certificateName this rejected (thumbprint_of c) ∉ dirs (disk st)) →
  ∃ st1 evs,
    same_store this st st1 ∧ events st1 = events st ++ evs ∧ bootstrap_log this evs ∧
    getCertificateStatus this c st
    = match status_in this st (thumbprint_of c) with
      | unknown => (Returned (inr rejected), persisted this c (rescan this st1))
      | s => (Returned (inr s), rescan this st1)
      end.
Proof.
  intros Hready Hfree Hname.
  destruct (getCertificateStatus_cases c st Hready Hfree) as (st1 & evs & ? & ? & ? & ->).
  exists st1, evs. split_and!; [done..|].
  destruct (status_in this st (thumbprint_of c)); [|done..].
  cbv zeta. by rewrite bool_decide_eq_false_2 by by apply Hname.
Qed.

(** With a directory where the configuration asset goes, the status
    query throws before it looks anything up. *)
Lemma getCertificateStatus_blocked c st :
  layout_ready this (disk st) →
  configFile this ∈ dirs (disk st) →
  getCertificateStatus this c st
  = (Thrown (EISDIR (configFile this)),
     add_event (EvWriteFile (configFile this) configurationFileSimpleTemplate) st).
Proof.
  intros Hready Hdir. unfold getCertificateStatus. unfold mbind at 1, M_bind at 1.
  by rewrite (initialize_blocked this st Hready Hdir).
Qed.

Lemma new_events_app st st' evs :
  events st' = events st ++ evs → new_events st st' = evs.
Proof. intros E. unfold new_events. rewrite E. apply drop_app_length. Qed.

(** C4, as the code has it, on every store whose skeleton is in place,
    for a certificate the lookup answers [unknown].  When no directory is
    in the way, the caller-facing query writes the PEM encoding of the
    certificate to [rejected/<thumbprint>.pem] and answers [rejected],
    whatever the certificate; and when decoding that file gives back the
    thumbprint, a second query answers [rejected], does not write the
    file again, and the file is as the first query wrote it.  With a
    directory at [rejected/<thumbprint>.pem] the query calls back with
    [EISDIR] and no status, and no file of the store changes; with a
    directory at [own/openssl.cnf] it throws [EISDIR]. *)
Theorem unknown_certificate_filed c st :
  layout_ready this (disk st) →
  (_getCertificateStatus this c st).1 = Returned (inr unknown) →
  let name := certificateName this rejected (thumbprint_of c) in
  let first := getCertificateStatus this c st in
  let second := getCertificateStatus this c first.2 in
  (configFile this ∉ dirs (disk st) → name ∉ dirs (disk st) →
     first.1 = Returned (inr rejected) ∧
     files (disk first.2) !! name = Some (toPem c "CERTIFICATE") ∧
     EvWriteFile name (toPem c "CERTIFICATE") ∈ new_events st first.2 ∧
     (readThumbprint (toPem c "CERTIFICATE") = thumbprint_of c →
        second.1 = Returned (inr rejected) ∧
        ¬ writes_to name (new_events first.2 second.2) ∧
        files (disk second.2) !! name = Some (toPem c "CERTIFICATE"))) ∧
  (configFile this ∉ dirs (disk st) → name ∈ dirs (disk st) →
     first.1 = Returned (inl (EISDIR name)) ∧
     ∀ p s, s ≠ unknown → under (statusDir this s) p = true →
            files (disk first.2) !! p = files (disk st) !! p) ∧
  (configFile this ∈ dirs (disk st) →
     first.1 = Thrown (EISDIR (configFile this)) ∧ disk first.2 = disk st).
Proof.
  intros Hready Hunknown. cbv zeta.
  rewrite _getCertificateStatus_eq in Hunknown. cbn [fst] in Hunknown.
  injection Hunknown as Hunknown.
  split_and!.
  - intros Hfree Hname.
    destruct (getCertificateStatus_ready c st Hready Hfree (λ _, Hname))
      as (st1 & evs & Hsame & Hev & Hlog & ->).
    unfold status_in. rewrite Hunknown. cbn [fst snd].
    set (st2 := persisted this c (rescan this st1)).
    assert (Hfile : files (disk st2) !! certificateName this rejected (thumbprint_of c)
                    = Some (toPem c "CERTIFICATE")).
    { subst st2. unfold persisted. st_simpl. apply lookup_insert_eq. }
    assert (Hdirs2 : dirs (disk st2) = dirs (disk st)).
    { subst st2. unfold persisted, rescan. st_simpl. by destruct Hsame as (_ & -> & _). }
    assert (Hready2 : layout_ready this (disk st2)).
    { unfold layout_ready. by rewrite Hdirs2. }
    split_and!; [done..| |].
    { rewrite (new_events_app st st2 (evs ++ [EvWalk (trustedDir this); EvWalk (rejectedDir this);
         EvWriteFile (certificateName this rejected (thumbprint_of c)) (toPem c "CERTIFICATE")])).
      + set_solver.
      + subst st2. unfold persisted, rescan. st_simpl. rewrite Hev. by rewrite <- !app_assoc. }
    intros Hpem.
    assert (Hrej : status_in this st2 (thumbprint_of c) = rejected).
    { apply lookup_status_rejected. unfold rescanned. cbn [Thumbs.rejected].
      apply elem_of_union_r, elem_of_scanned. eexists _, _. split; [exact Hfile|].
      split; [|done]. by apply (under_statusDir_name this rejected rejected). }
    destruct (getCertificateStatus_ready c st2 Hready2) as (st3 & evs' & Hsame' & Hev' & Hlog' & ->).
    { by rewrite Hdirs2. }
    { by rewrite Hrej. }
    rewrite Hrej. cbn [fst snd].
    split_and!; try done.
    + rewrite (new_events_app st2 (rescan this st3)
         (evs' ++ [EvWalk (trustedDir this); EvWalk (rejectedDir this)])).
      * intros (data & [Hin|Hin]%elem_of_app).
        -- destruct (Hlog' _ Hin) as [E|E]; [|done]. injection E as E _.
           unfold certificateName, configFile, rootDir in E. apply app_inv_head in E. done.
        -- set_solver.
      * unfold rescan. st_simpl. rewrite Hev'. by rewrite <- !app_assoc.
    + unfold rescan. st_simpl. destruct Hsame' as (_ & _ & Hf).
      rewrite (Hf _ rejected); [done..|]. by apply under_statusDir_name.
  - intros Hfree Hname.
    destruct (getCertificateStatus_cases c st Hready Hfree)
      as (st1 & evs & Hsame & Hev & Hlog & ->).
    unfold status_in. rewrite Hunknown. cbv zeta.
    rewrite bool_decide_eq_true_2 by done. cbn [fst snd]. split; [done|].
    intros p s Hs Hu. unfold rescan. st_simpl. destruct Hsame as (_ & _ & Hf).
    by apply (Hf p s).
  - intros Hdir. by rewrite (getCertificateStatus_blocked c st Hready Hdir).
Qed.

End TrustStore.

(** ** Transitions of the trust store *)

Section Transitions.

Context `{NodeOpcuaCrypto} `{Toolchain}.
Variable this : CertificateManager.


Lemma rescanned_rejected_wf st t :
  store_wf this (disk st) →
  t ∈ Thumbs.rejected (rescanned this st) ↔
  t ∈ Thumbs.rejected (_thumbs st) ∨
  is_Some (files (disk st) !! certificateName this rejected t).
Proof.
  intros Hwf. unfold rescanned. cbn [Thumbs.rejected]. rewrite elem_of_union.
  change (rejectedDir this) with (statusDir this rejected).
  by rewrite (scanned_wf this _ rejected t Hwf).
Qed.

Lemma rescanned_trusted_wf st t :
  store_wf this (disk st) →
  t ∈ Thumbs.trusted (rescanned this st) ↔
  t ∈ Thumbs.trusted (_thumbs st) ∨
  is_Some (files (disk st) !! certificateName this trusted t).
Proof.
  intros Hwf. unfold rescanned. cbn [Thumbs.trusted]. rewrite elem_of_union.
  change (trustedDir this) with (statusDir this trusted).
  by rewrite (scanned_wf this _ trusted t Hwf).
Qed.

Lemma rescanned_rejected_named st t :
  named_for this t (disk st) →
  t ∈ Thumbs.rejected (rescanned this st) ↔
  t ∈ Thumbs.rejected (_thumbs st) ∨
  ∃ data, files (disk st) !! certificateName this rejected t = Some data ∧
          readThumbprint data = t.
Proof.
  intros Hnamed. unfold rescanned. cbn [Thumbs.rejected]. rewrite elem_of_union.
  change (rejectedDir this) with (statusDir this rejected).
  by rewrite (scanned_named this _ rejected t Hnamed).
Qed.

Lemma rescanned_trusted_named st t :
  named_for this t (disk st) →
  t ∈ Thumbs.trusted (rescanned this st) ↔
  t ∈ Thumbs.trusted (_thumbs st) ∨
  ∃ data, files (disk st) !! certificateName this trusted t = Some data ∧
          readThumbprint data = t.
Proof.
  intros Hnamed. unfold rescanned. cbn [Thumbs.trusted]. rewrite elem_of_union.
  change (trustedDir this) with (statusDir this trusted).
  by rewrite (scanned_named this _ trusted t Hnamed).
Qed.

(** The answer for [t] depends on the two index sets at [t] and on the
    two files named after [t]. *)
Lemma status_in_ext st st' t :
  named_for this t (disk st) → named_for this t (disk st') →
  (t ∈ Thumbs.rejected (_thumbs st') ↔ t ∈ Thumbs.rejected (_thumbs st)) →
  (t ∈ Thumbs.trusted (_thumbs st') ↔ t ∈ Thumbs.trusted (_thumbs st)) →
  (∀ s, s ≠ unknown →
        files (disk st') !! certificateName this s t
        = files (disk st) !! certificateName this s t) →
  status_in this st' t = status_in this st t.
Proof.
  intros Hwf Hwf' Hrej Htr Hfiles. unfold status_in, lookup_status.
  rewrite (bool_decide_ext (t ∈ Thumbs.rejected (rescanned this st'))
                           (t ∈ Thumbs.rejected (rescanned this st))); cycle 1.
  { rewrite !rescanned_rejected_named by done. by rewrite Hrej, (Hfiles rejected). }
  rewrite (bool_decide_ext (t ∈ Thumbs.trusted (rescanned this st'))
                           (t ∈ Thumbs.trusted (rescanned this st))); cycle 1.
  { rewrite !rescanned_trusted_named by done. by rewrite Htr, (Hfiles trusted). }
  done.
Qed.

Lemma status_in_rescan st t : status_in this (rescan this st) t = status_in this st t.
Proof. unfold status_in. by rewrite rescanned_idem. Qed.

Lemma status_in_same_store st st' t :
  same_store this st st' → status_in this st' t = status_in this st t.
Proof. intros Hs. unfold status_in. by rewrite (same_store_rescanned this st st'). Qed.

Lemma persisted_named c t st :
  readThumbprint (toPem c "CERTIFICATE") = thumbprint_of c →
  named_for this t (disk st) → named_for this t (disk (persisted this c st)).
Proof.
  intros Hpem Hnamed p data s Hp Hs Hu Ht. unfold persisted in Hp. st_simpl.
  destruct (decide (p = certificateName this rejected (thumbprint_of c))) as [->|Hne].
  - rewrite lookup_insert_eq in Hp. injection Hp as <-.
    apply under_statusDir_name in Hu as ->. by rewrite <- Ht, Hpem.
  - rewrite lookup_insert_ne in Hp by done. eauto.
Qed.

Lemma persisted_wf c st :
  readThumbprint (toPem c "CERTIFICATE") = thumbprint_of c →
  store_wf this (disk st) → store_wf this (disk (persisted this c st)).
Proof.
  intros Hpem. rewrite !store_wf_named. intros Hwf t. by apply persisted_named.
Qed.

(** On a store that can take its files, the caller-facing query answers
    a definite status, keeps the skeleton and the names of the files that
    hold a given thumbprint, and changes the answer of no thumbprint that
    had one. *)
Lemma getCertificateStatus_post c st :
  readThumbprint (toPem c "CERTIFICATE") = thumbprint_of c →
  layout_ready this (disk st) → unblocked this (disk st) →
  ∃ s st2,
    getCertificateStatus this c st = (Returned (inr s), st2) ∧
    s ≠ unknown ∧
    layout_ready this (disk st2) ∧ unblocked this (disk st2) ∧
    status_in this st2 (thumbprint_of c) = s ∧
    ∀ t, named_for this t (disk st) →
         named_for this t (disk st2) ∧
         (status_in this st t ≠ unknown → status_in this st2 t = status_in this st t).
Proof.
  intros Hpem Hready Hfree.
  destruct (getCertificateStatus_ready this c st Hready (proj1 Hfree))
    as (st1 & evs & Hsame & _ & _ & ->).
  { intros _. by apply Hfree. }
  assert (Hnamed1 : ∀ t, named_for this t (disk st) → named_for this t (disk (rescan this st1))).
  { intros t. exact (same_store_named this st st1 t Hsame). }
  assert (Hready1 : layout_ready this (disk (rescan this st1)))
    by exact (same_store_layout this st st1 Hsame Hready).
  assert (Hfree1 : unblocked this (disk (rescan this st1)))
    by exact (same_store_unblocked this st st1 Hsame Hfree).
  assert (Hst1 : ∀ t, status_in this (rescan this st1) t = status_in this st t).
  { intros t. by rewrite status_in_rescan, (status_in_same_store st st1). }
  destruct (status_in this st (thumbprint_of c)) eqn:Hs.
  - exists rejected, (persisted this c (rescan this st1)).
    split_and!; [done..| |].
    + apply lookup_status_rejected. unfold rescanned. cbn [Thumbs.rejected].
      apply elem_of_union_r, elem_of_scanned.
      exists (certificateName this rejected (thumbprint_of c)), (toPem c "CERTIFICATE").
      split_and!; [|by apply (under_statusDir_name this rejected rejected)|done].
      unfold persisted. st_simpl. by rewrite lookup_insert_eq.
    + intros t Hnamed.
      assert (Hnamed2 : named_for this t (disk (persisted this c (rescan this st1))))
        by (by apply persisted_named, Hnamed1).
      split; [done|]. intros Ht. rewrite <- Hst1. apply status_in_ext; [by apply Hnamed1|done..|].
      intros s Hne. unfold persisted. st_simpl. apply lookup_insert_ne.
      intros [_ E]%certificateName_inj. congruence.
  - exists trusted, (rescan this st1). split_and!; [done..|by rewrite Hst1|].
    intros t Hnamed. split; [by apply Hnamed1|by rewrite Hst1].
  - exists rejected, (rescan this st1). split_and!; [done..|by rewrite Hst1|].
    intros t Hnamed. split; [by apply Hnamed1|by rewrite Hst1].
Qed.

Lemma missing_below p d : dirname p ∈ dirs d → missing p d = ENOENT p.
Proof. intros Hdir. unfold missing. by rewrite bool_decide_eq_true_2. Qed.

Lemma fs_rename_eq src dst st :
  src ∉ dirs (disk st) →
  fs_rename src dst st
  = match files (disk st) !! src with
    | Some data =>
        if bool_decide (dst ∈ dirs (disk st))
        then (Returned (Some (EISDIR dst)), add_event (EvRename src dst) st)
        else if bool_decide (dirname dst ∈ dirs (disk st))
        then (Returned None,
              set_disk (mkFs (dirs (disk st)) (<[dst := data]> (delete src (files (disk st)))))
                       (add_event (EvRename src dst) st))
        else (Returned (Some (missing dst (disk st))), add_event (EvRename src dst) st)
    | None => (Returned (Some (missing src (disk st))), add_event (EvRename src dst) st)
    end.
Proof.
  intros Hsrc. unfold fs_rename, mbind, M_bind, get_state, modify, mret, M_ret. st_simpl.
  destruct (files (disk st) !! src); [by repeat case_bool_decide|].
  by rewrite bool_decide_eq_false_2.
Qed.

Lemma fs_rename_file src dst data st :
  files (disk st) !! src = Some data →
  dst ∉ dirs (disk st) →
  dirname dst ∈ dirs (disk st) →
  fs_rename src dst st
  = (Returned None,
     set_disk (mkFs (dirs (disk st)) (<[dst := data]> (delete src (files (disk st)))))
              (add_event (EvRename src dst) st)).
Proof.
  intros Hsrc Hdst Hup. unfold fs_rename, mbind, M_bind, get_state, modify, mret, M_ret.
  st_simpl. rewrite Hsrc. rewrite bool_decide_eq_false_2 by done.
  by rewrite bool_decide_eq_true_2.
Qed.

Lemma fs_rename_onto_directory src dst data st :
  files (disk st) !! src = Some data →
  dst ∈ dirs (disk st) →
  fs_rename src dst st
  = (Returned (Some (EISDIR dst)), add_event (EvRename src dst) st).
Proof.
  intros Hsrc Hdst. unfold fs_rename, mbind, M_bind, get_state, modify, mret, M_ret.
  st_simpl. rewrite Hsrc. by rewrite bool_decide_eq_true_2.
Qed.

(** What the rename of [_moveCertificate] does to the names of the files
    that hold [t]. *)
Lemma renamed_named d s new t t' data :
  named_for this t d → s ≠ unknown →
  files d !! certificateName this s t' = Some data →
  named_for this t (mkFs (dirs d) (<[certificateName this new t' := data]>
                                     (delete (certificateName this s t') (files d)))).
Proof.
  intros Hnamed Hs Hsrc p data' s0 Hp Hs0 Hu Ht. cbn [files] in Hp.
  destruct (decide (p = certificateName this new t')) as [->|Hne].
  - rewrite lookup_insert_eq in Hp. injection Hp as <-.
    apply under_statusDir_name in Hu as ->.
    assert (Hname := Hnamed _ data s Hsrc Hs (proj2 (under_statusDir_name this s s t') eq_refl) Ht).
    by apply certificateName_inj in Hname as [_ ->].
  - rewrite lookup_insert_ne in Hp by done.
    apply lookup_delete_Some in Hp as [_ Hp]. eauto.
Qed.

Lemma renamed_wf d s new t data :
  store_wf this d → s ≠ unknown →
  files d !! certificateName this s t = Some data →
  store_wf this (mkFs (dirs d) (<[certificateName this new t := data]>
                                  (delete (certificateName this s t) (files d)))).
Proof.
  rewrite !store_wf_named. intros Hwf Hs Hsrc t'. by apply renamed_named.
Qed.

(** A move on a store that can take its files: the status query, then
    either nothing more, or the rename and the two assignments to the
    index, whether the rename succeeds or not. *)
Lemma _moveCertificate_cases c new st :
  layout_ready this (disk st) → unblocked this (disk st) →
  new ≠ unknown →
  ∃ s st2,
    getCertificateStatus this c st = (Returned (inr s), st2) ∧
    s ≠ unknown ∧
    dirs (disk st2) = dirs (disk st) ∧
    _thumbs st2 = rescanned this st ∧
    ((s = new ∧ _moveCertificate this c new st = (Returned None, st2)) ∨
     (s ≠ new ∧
      ∃ r st',
        _moveCertificate this c new st = (Returned r, st') ∧
        dirs (disk st') = dirs (disk st2) ∧
        thumbs_get new (_thumbs st')
          = Some ({[thumbprint_of c]} ∪ default ∅ (thumbs_get new (_thumbs st2))) ∧
        thumbs_get s (_thumbs st')
          = Some (default ∅ (thumbs_get s (_thumbs st2)) ∖ {[thumbprint_of c]}) ∧
        match files (disk st2) !! certificateName this s (thumbprint_of c) with
        | Some data =>
            r = None ∧
            files (disk st')
            = <[certificateName this new (thumbprint_of c) := data]>
                (delete (certificateName this s (thumbprint_of c)) (files (disk st2)))
        | None =>
            r = Some (ENOENT (certificateName this s (thumbprint_of c))) ∧
            files (disk st') = files (disk st2)
        end)).
Proof.
  intros Hready Hfree Hnew.
  destruct (getCertificateStatus_ready this c st Hready (proj1 Hfree))
    as (st1 & evs & Hsame & _ & _ & Hget).
  { intros _. by apply Hfree. }
  assert (Hq : ∃ s st2,
    getCertificateStatus this c st = (Returned (inr s), st2) ∧ s ≠ unknown ∧
    dirs (disk st2) = dirs (disk st) ∧ _thumbs st2 = rescanned this st).
  { destruct (status_in this st (thumbprint_of c)); eexists _, _;
      (split; [exact Hget|]); (split; [done|]);
      unfold persisted, rescan; st_simpl;
      (split; [by destruct Hsame as (_ & -> & _)|by apply same_store_rescanned]). }
  clear Hget. destruct Hq as (s & st2 & Hget & Hs & Hdirs & Hth).
  exists s, st2. split_and!; [done..|].
  assert (Hmove : _moveCertificate this c new st
    = if bool_decide (s ≠ new)
      then (err ← fs_rename (certificateName this s (thumbprint_of c))
                            (certificateName this new (thumbprint_of c));
            st ← get_state;
            match thumbs_get s (_thumbs st) with
            | None => throw TypeError
            | Some index =>
                modify (set_thumbs (thumbs_put s (index ∖ {[thumbprint_of c]}) (_thumbs st)))
            end;;
            st ← get_state;
            match thumbs_get new (_thumbs st) with
            | None => throw TypeError
            | Some index =>
                modify (set_thumbs (thumbs_put new ({[thumbprint_of c]} ∪ index) (_thumbs st)))
            end;;
            mret err) st2
      else (Returned None, st2)).
  { unfold _moveCertificate. unfold mbind at 1, M_bind at 1. rewrite Hget.
    by case_bool_decide. }
  rewrite Hmove. clear Hmove.
  case_bool_decide as Hdiff; cycle 1.
  { left. split; [|done]. by destruct (decide (s = new)). }
  right. split; [done|].
  assert (Hsrcdir : certificateName this s (thumbprint_of c) ∉ dirs (disk st2))
    by (rewrite Hdirs; by apply Hfree).
  assert (Hdstdir : certificateName this new (thumbprint_of c) ∉ dirs (disk st2))
    by (rewrite Hdirs; by apply Hfree).
  assert (Hdstup : dirname (certificateName this new (thumbprint_of c)) ∈ dirs (disk st2)).
  { rewrite dirname_certificateName, Hdirs. by apply layout_statusDir. }
  assert (Hsrcup : dirname (certificateName this s (thumbprint_of c)) ∈ dirs (disk st2)).
  { rewrite dirname_certificateName, Hdirs. by apply layout_statusDir. }
  assert (Hrename := fs_rename_eq _ (certificateName this new (thumbprint_of c)) st2 Hsrcdir).
  destruct (files (disk st2) !! certificateName this s (thumbprint_of c)) as [data|] eqn:Hsrc.
  - rewrite bool_decide_eq_false_2, bool_decide_eq_true_2 in Hrename by done.
    destruct s, new; try done;
      (eexists _, _; split;
       [unfold mbind at 1, M_bind at 1; rewrite Hrename;
        unfold mbind, M_bind, get_state, modify, mret, M_ret; st_simpl;
        cbn [thumbs_get thumbs_put Thumbs.rejected Thumbs.trusted
             Thumbs.set_rejected Thumbs.set_trusted];
        reflexivity|]);
      st_simpl;
      cbn [thumbs_get thumbs_put Thumbs.rejected Thumbs.trusted
           Thumbs.set_rejected Thumbs.set_trusted default];
      done.
  - rewrite missing_below in Hrename by done.
    destruct s, new; try done;
      (eexists _, _; split;
       [unfold mbind at 1, M_bind at 1; rewrite Hrename;
        unfold mbind, M_bind, get_state, modify, mret, M_ret; st_simpl;
        cbn [thumbs_get thumbs_put Thumbs.rejected Thumbs.trusted
             Thumbs.set_rejected Thumbs.set_trusted];
        reflexivity|]);
      st_simpl;
      cbn [thumbs_get thumbs_put Thumbs.rejected Thumbs.trusted
           Thumbs.set_rejected Thumbs.set_trusted default];
      done.
Qed.

(** A move keeps the skeleton and the names of the files that hold a
    given thumbprint; when it succeeds the certificate is answered with
    the new status (for [trusted], provided the files that hold the
    certificate are named after it); and it changes the answer of no
    other thumbprint that had one and whose files are named after it. *)
Lemma _moveCertificate_post c new st :
  readThumbprint (toPem c "CERTIFICATE") = thumbprint_of c →
  layout_ready this (disk st) → unblocked this (disk st) →
  new ≠ unknown →
  ∃ r st',
    _moveCertificate this c new st = (Returned r, st') ∧
    layout_ready this (disk st') ∧ unblocked this (disk st') ∧
    (r = None →
     new = rejected ∨ named_for this (thumbprint_of c) (disk st) →
     status_in this st' (thumbprint_of c) = new) ∧
    ∀ t, named_for this t (disk st) →
         named_for this t (disk st') ∧
         (status_in this st t ≠ unknown →
          t ≠ thumbprint_of c ∨ status_in this st t = new →
          status_in this st' t = status_in this st t).
Proof.
  intros Hpem Hready Hfree Hnew.
  destruct (getCertificateStatus_post c st Hpem Hready Hfree)
    as (s & st2 & Hget & Hs & Hready2 & Hfree2 & Hst2 & Hkeep).
  destruct (_moveCertificate_cases c new st Hready Hfree Hnew)
    as (s' & st2' & Hget' & _ & _ & _ & Hcases).
  rewrite Hget in Hget'. injection Hget' as <- <-.
  destruct Hcases as [[-> Hmove]|(Hdiff & r & st' & Hmove & Hdirs & Hnewidx & Holdidx & Hfiles)].
  { exists None, st2. split_and!; [done..|].
    intros t Hnamed. destruct (Hkeep t Hnamed) as [? Hsame]. split; [done|]. auto. }
  exists r, st'. split; [done|].
  assert (Hready' : layout_ready this (disk st')) by (unfold layout_ready; by rewrite Hdirs).
  assert (Hfree' : unblocked this (disk st')) by (unfold unblocked; by rewrite Hdirs).
  set (src := certificateName this s (thumbprint_of c)) in *.
  set (dst := certificateName this new (thumbprint_of c)) in *.
  assert (Hnamed' : ∀ t, named_for this t (disk st2) → named_for this t (disk st')).
  { intros t Hnamed. destruct (files (disk st2) !! src) as [data|] eqn:Hsrc.
    - destruct Hfiles as [_ Hfiles].
      assert (Hmoved := renamed_named (disk st2) s new t (thumbprint_of c) data Hnamed Hs Hsrc).
      intros p data' s0 Hp. rewrite Hfiles in Hp. by apply Hmoved.
    - destruct Hfiles as [_ Hfiles]. intros p data' s0 Hp. rewrite Hfiles in Hp. by apply Hnamed. }
  assert (Hidx : ∀ t, t ≠ thumbprint_of c →
    (t ∈ Thumbs.rejected (_thumbs st') ↔ t ∈ Thumbs.rejected (_thumbs st2)) ∧
    (t ∈ Thumbs.trusted (_thumbs st') ↔ t ∈ Thumbs.trusted (_thumbs st2))).
  { intros t Ht. destruct s, new; try done; cbn [thumbs_get default] in Hnewidx, Holdidx;
      injection Hnewidx as ->; injection Holdidx as ->; set_solver. }
  split_and!; [done..| |].
  - intros -> Hcase.
    destruct (files (disk st2) !! src) as [data|] eqn:Hsrc; [|by destruct Hfiles].
    destruct Hfiles as [_ Hfiles].
    destruct s, new; try done; cbn [thumbs_get default] in Hnewidx, Holdidx;
      injection Hnewidx as Hnewidx; injection Holdidx as Holdidx.
    + (* trusted to rejected *)
      apply lookup_status_rejected. unfold rescanned. cbn [Thumbs.rejected].
      rewrite Hnewidx. set_solver.
    + (* rejected to trusted *)
      destruct Hcase as [?|Hnamed]; [done|].
      destruct (Hkeep _ Hnamed) as [Hnamed2 _]. specialize (Hnamed' _ Hnamed2).
      apply lookup_status_trusted. split.
      * rewrite rescanned_rejected_named by done. rewrite Holdidx.
        intros [Hin|(x & Hx & _)]; [set_solver|].
        rewrite Hfiles in Hx. subst src dst.
        rewrite lookup_insert_ne in Hx by (intros [E _]%certificateName_inj; congruence).
        by rewrite lookup_delete_eq in Hx.
      * unfold rescanned. cbn [Thumbs.trusted]. rewrite Hnewidx. set_solver.
  - intros t Hnamed. destruct (Hkeep t Hnamed) as [Hnamed2 Hsame].
    split; [by apply Hnamed'|]. intros Ht Hor.
    assert (Hother : t ≠ thumbprint_of c).
    { destruct Hor as [?|Hn]; [done|]. intros ->. rewrite <- (Hsame Ht), Hst2 in Hn. done. }
    rewrite <- (Hsame Ht). destruct (Hidx t Hother) as [Hrej Htr].
    apply status_in_ext; [done|by apply Hnamed'|done..|].
    intros s0 Hs0. destruct (files (disk st2) !! src) as [data|] eqn:Hsrc.
    + destruct Hfiles as [_ ->]. subst src dst.
      rewrite lookup_insert_ne by (intros [_ E]%certificateName_inj; congruence).
      apply lookup_delete_ne. intros [_ E]%certificateName_inj; congruence.
    + by destruct Hfiles as [_ ->].
Qed.

(** When the file named after a trusted thumbprint is missing, the rename
    of [rejectCertificate] fails, and the index is relabelled all the
    same. *)
Lemma rename_failure_relabels c st :
  layout_ready this (disk st) →
  configFile this ∉ dirs (disk st) →
  status_in this st (thumbprint_of c) = trusted →
  files (disk st) !! certificateName this trusted (thumbprint_of c) = None →
  certificateName this trusted (thumbprint_of c) ∉ dirs (disk st) →
  let queried := getCertificateStatus this c st in
  let moved := rejectCertificate this c st in
  queried.1 = Returned (inr trusted) ∧
  thumbprint_of c ∈ Thumbs.trusted (_thumbs queried.2) ∧
  moved.1 = Returned (Some (ENOENT (certificateName this trusted (thumbprint_of c)))) ∧
  disk moved.2 = disk queried.2 ∧
  (thumbprint_of c ∉ Thumbs.trusted (_thumbs moved.2)) ∧
  thumbprint_of c ∈ Thumbs.rejected (_thumbs moved.2).
Proof.
  intros Hready Hcfg Hstatus Hmissing Hnodir. cbv zeta.
  destruct (getCertificateStatus_ready this c st Hready Hcfg)
    as (st1 & evs & Hsame & _ & _ & Hget).
  { by rewrite Hstatus. }
  rewrite Hstatus in Hget.
  assert (Hnone : files (disk (rescan this st1)) !! certificateName this trusted (thumbprint_of c)
                  = None).
  { unfold rescan. st_simpl. destruct Hsame as (_ & _ & Hf).
    rewrite (Hf _ trusted); [done..|]. by apply under_statusDir_name. }
  assert (Hdirs : dirs (disk (rescan this st1)) = dirs (disk st)).
  { unfold rescan. st_simpl. by destruct Hsame as (_ & -> & _). }
  assert (Hin : thumbprint_of c ∈ Thumbs.trusted (rescanned this st1)).
  { rewrite (same_store_rescanned this st st1 Hsame).
    by apply (lookup_status_trusted (thumbprint_of c)). }
  assert (Hmoved : ∃ st',
    rejectCertificate this c st
    = (Returned (Some (ENOENT (certificateName this trusted (thumbprint_of c)))), st') ∧
    disk st' = disk (rescan this st1) ∧
    (thumbprint_of c ∉ Thumbs.trusted (_thumbs st')) ∧
    thumbprint_of c ∈ Thumbs.rejected (_thumbs st')).
  { unfold rejectCertificate, _moveCertificate. unfold mbind at 1, M_bind at 1.
    rewrite Hget. rewrite bool_decide_eq_true_2 by done.
    change (rootDir this ++ [status_name trusted; thumbprint_of c +:+ ".pem"])
      with (certificateName this trusted (thumbprint_of c)).
    unfold mbind at 1, M_bind at 1. rewrite fs_rename_eq by by rewrite Hdirs.
    rewrite Hnone. rewrite missing_below; cycle 1.
    { rewrite dirname_certificateName, Hdirs. by apply layout_statusDir. }
    unfold mbind, M_bind, get_state, modify, mret, M_ret. st_simpl.
    cbn [thumbs_get thumbs_put Thumbs.rejected Thumbs.trusted
         Thumbs.set_rejected Thumbs.set_trusted].
    eexists. split; [reflexivity|]. st_simpl.
    cbn [Thumbs.rejected Thumbs.trusted Thumbs.set_rejected Thumbs.set_trusted].
    split_and!; [done| |]; set_solver. }
  destruct Hmoved as (st' & -> & Hdisk & Hout & Hnow).
  rewrite Hget. cbn [fst snd]. split_and!; done.
Qed.

Lemma verifyCertificate_state oc now st :
  (verifyCertificate this oc now st).2 = st ∨
  (verifyCertificate this oc now st).2 = rescan this st.
Proof.
  unfold verifyCertificate. destruct oc as [c|]; [|by left].
  destruct (exploreCertificateInfo c) as [[nb na]|]; [|by left].
  unfold series, mbind, M_bind, mret, M_ret.
  destruct (nb >? now); [by left|]. destruct (na <=? now); [by left|].
  rewrite _getCertificateStatus_eq. right. by destruct (lookup_status _ _).
Qed.

(** Every call keeps the skeleton and the names of the files that hold a
    given thumbprint, and changes the answer of a thumbprint that had one
    only by moving a certificate of that thumbprint to the other
    status. *)
Lemma perform_post call st :
  pem_roundtrip →
  layout_ready this (disk st) → unblocked this (disk st) →
  layout_ready this (disk (perform this call st)) ∧
  unblocked this (disk (perform this call st)) ∧
  ∀ t, named_for this t (disk st) →
       named_for this t (disk (perform this call st)) ∧
       (status_in this st t ≠ unknown →
        (∀ new, moves_to new t call → new = status_in this st t) →
        status_in this (perform this call st) t = status_in this st t).
Proof.
  intros Hpem Hready Hfree. destruct call as [|c|c|c|c|oc now|c date reason]; cbn [perform].
  - destruct (initialize_ready_post this st Hready (proj1 Hfree))
      as (r & st1 & evs & -> & Hsame & _).
    cbn [snd]. split_and!.
    + by apply (same_store_layout this st).
    + by apply (same_store_unblocked this st).
    + intros t Hnamed. split; [by apply (same_store_named this st)|].
      intros _ _. by apply status_in_same_store.
  - destruct (getCertificateStatus_post c st (Hpem c) Hready Hfree)
      as (s & st2 & -> & _ & ? & ? & _ & Hkeep).
    cbn [snd]. split_and!; [done..|]. intros t Hnamed.
    destruct (Hkeep t Hnamed). split; [done|]. auto.
  - rewrite _getCertificateStatus_eq. cbn [snd]. split_and!; [done..|].
    intros t Hnamed. split; [done|]. intros _ _. apply status_in_rescan.
  - destruct (_moveCertificate_post c trusted st (Hpem c) Hready Hfree)
      as (r & st' & Hmove & ? & ? & _ & Hkeep); [done|].
    unfold trustCertificate. rewrite Hmove. cbn [snd]. split_and!; [done..|].
    intros t Hnamed. destruct (Hkeep t Hnamed) as [? Hsame]. split; [done|].
    intros Ht Hmoves. apply Hsame; [done|].
    destruct (decide (t = thumbprint_of c)) as [->|]; [right|by left].
    symmetry. by apply Hmoves.
  - destruct (_moveCertificate_post c rejected st (Hpem c) Hready Hfree)
      as (r & st' & Hmove & ? & ? & _ & Hkeep); [done|].
    unfold rejectCertificate. rewrite Hmove. cbn [snd]. split_and!; [done..|].
    intros t Hnamed. destruct (Hkeep t Hnamed) as [? Hsame]. split; [done|].
    intros Ht Hmoves. apply Hsame; [done|].
    destruct (decide (t = thumbprint_of c)) as [->|]; [right|by left].
    symmetry. by apply Hmoves.
  - destruct (verifyCertificate_state oc now st) as [-> | ->].
    + split_and!; [done..|]. intros t Hnamed. by split.
    + split_and!; [done..|]. intros t Hnamed. split; [done|].
      intros _ _. apply status_in_rescan.
  - split_and!; [done..|]. intros t Hnamed. by split.
Qed.

Lemma run_post calls st t :
  pem_roundtrip →
  layout_ready this (disk st) → unblocked this (disk st) →
  named_for this t (disk st) →
  status_in this st t ≠ unknown →
  Forall (λ call, ∀ new, moves_to new t call → new = status_in this st t) calls →
  layout_ready this (disk (run this calls st)) ∧
  unblocked this (disk (run this calls st)) ∧
  named_for this t (disk (run this calls st)) ∧
  status_in this (run this calls st) t = status_in this st t.
Proof.
  intros Hpem. revert st.
  induction calls as [|call calls IH]; intros st Hready Hfree Hnamed Ht Hcalls.
  { done. }
  apply Forall_cons in Hcalls as [Hcall Hcalls].
  destruct (perform_post call st Hpem Hready Hfree) as (Hready' & Hfree' & Hkeep).
  destruct (Hkeep t Hnamed) as [Hnamed' Hsame]. specialize (Hsame Ht Hcall).
  cbn [run foldl]. fold (run this calls (perform this call st)).
  destruct (IH (perform this call st)) as (? & ? & ? & Hrun); [done..|congruence| |].
  - by rewrite Hsame.
  - split_and!; [done..|]. by rewrite Hrun.
Qed.

(** A thumbprint answered [rejected] stays so through every call that is
    not a [trustCertificate] of that thumbprint: the query that opens
    every move has put it into the index, and only such a move takes it
    out. *)
Lemma perform_keeps_rejected call st t :
  layout_ready this (disk st) → unblocked this (disk st) →
  status_in this st t = rejected →
  ¬ moves_to trusted t call →
  layout_ready this (disk (perform this call st)) ∧
  unblocked this (disk (perform this call st)) ∧
  status_in this (perform this call st) t = rejected.
Proof.
  intros Hready Hfree Ht Hcall.
  assert (Hin : t ∈ Thumbs.rejected (rescanned this st)) by by apply lookup_status_rejected.
  assert (Hindex : ∀ st', t ∈ Thumbs.rejected (_thumbs st') → status_in this st' t = rejected).
  { intros st' Hidx. apply lookup_status_rejected. unfold rescanned. cbn [Thumbs.rejected].
    set_solver. }
  assert (Hmove : ∀ c new, new ≠ unknown →
    (new = trusted → thumbprint_of c ≠ t) →
    layout_ready this (disk (_moveCertificate this c new st).2) ∧
    unblocked this (disk (_moveCertificate this c new st).2) ∧
    status_in this (_moveCertificate this c new st).2 t = rejected).
  { intros c new Hnew Hother.
    destruct (_moveCertificate_cases c new st Hready Hfree Hnew)
      as (s & st2 & _ & Hs & Hdirs & Hth & Hcases).
    destruct Hcases as [[_ ->]|(Hdiff & r & st' & -> & Hdirs' & Hnewidx & Holdidx & _)];
      cbn [snd].
    - split_and!; [unfold layout_ready; by rewrite Hdirs|unfold unblocked; by rewrite Hdirs|].
      apply Hindex. by rewrite Hth.
    - split_and!; [unfold layout_ready; by rewrite Hdirs', Hdirs
                  |unfold unblocked; by rewrite Hdirs', Hdirs|].
      apply Hindex. rewrite Hth in Hnewidx, Holdidx.
      destruct s, new; try done; cbn [thumbs_get default] in Hnewidx, Holdidx;
        injection Hnewidx as Hnewidx; injection Holdidx as Holdidx.
      + rewrite Hnewidx. set_solver.
      + rewrite Holdidx. specialize (Hother eq_refl). set_solver. }
  destruct call as [|c|c|c|c|oc now|c date reason]; cbn [perform].
  - destruct (initialize_ready_post this st Hready (proj1 Hfree))
      as (r & st1 & evs & -> & Hsame & _).
    cbn [snd]. split_and!.
    + by apply (same_store_layout this st).
    + by apply (same_store_unblocked this st).
    + by rewrite (status_in_same_store st st1).
  - destruct (_moveCertificate_cases c rejected st Hready Hfree)
      as (s & st2 & -> & _ & Hdirs & Hth & _); [done|].
    cbn [snd].
    split_and!; [unfold layout_ready; by rewrite Hdirs|unfold unblocked; by rewrite Hdirs|].
    apply Hindex. by rewrite Hth.
  - rewrite _getCertificateStatus_eq. cbn [snd]. split_and!; [done..|].
    by rewrite status_in_rescan.
  - apply Hmove; [done|]. intros _ E. apply Hcall. by split.
  - by apply Hmove.
  - destruct (verifyCertificate_state oc now st) as [-> | ->]; split_and!; try done.
    by rewrite status_in_rescan.
  - done.
Qed.

Lemma run_keeps_rejected calls st t :
  layout_ready this (disk st) → unblocked this (disk st) →
  status_in this st t = rejected →
  Forall (λ call, ¬ moves_to trusted t call) calls →
  layout_ready this (disk (run this calls st)) ∧
  unblocked this (disk (run this calls st)) ∧
  status_in this (run this calls st) t = rejected.
Proof.
  revert st. induction calls as [|call calls IH]; intros st Hready Hfree Ht Hcalls.
  { done. }
  apply Forall_cons in Hcalls as [Hcall Hcalls].
  destruct (perform_keeps_rejected call st t Hready Hfree Ht Hcall) as (? & ? & ?).
  cbn [run foldl]. fold (run this calls (perform this call st)). by apply IH.
Qed.

(** A definite answer of the lookup is the answer of both status
    queries. *)
Lemma status_in_queries c st s :
  layout_ready this (disk st) →
  configFile this ∉ dirs (disk st) →
  status_in this st (thumbprint_of c) = s → s ≠ unknown →
  (_getCertificateStatus this c st).1 = Returned (inr s) ∧
  (getCertificateStatus this c st).1 = Returned (inr s).
Proof.
  intros Hready Hfree Hs Hne. rewrite _getCertificateStatus_eq. split; [by rewrite <- Hs|].
  destruct (getCertificateStatus_ready this c st Hready Hfree) as (st1 & evs & _ & _ & _ & ->).
  { intros E. congruence. }
  rewrite Hs. by destruct s.
Qed.

(** C5, as the code has it, on a store whose skeleton is in place and
    where no directory sits at the configuration file or at the name of
    a certificate.  Once [rejectCertificate] has succeeded, every status
    query answers [rejected], whatever calls are made in between, as long
    as none of them is a [trustCertificate] of that thumbprint (the PEM
    file of the certificate decoding to its thumbprint).  Once
    [trustCertificate] has succeeded, every status query answers
    [trusted] until a [rejectCertificate] of that thumbprint, provided
    the files of the store that hold the certificate are named after its
    thumbprint, and PEM files decode to the thumbprint of what was
    encoded.  And a move to the status the certificate already has
    succeeds without doing anything beyond the status query. *)
Theorem trust_reject_stable c st :
  layout_ready this (disk st) → unblocked this (disk st) →
  (pem_roundtrip → named_for this (thumbprint_of c) (disk st) →
   ∀ calls,
     (trustCertificate this c st).1 = Returned None →
     Forall (λ call, ¬ moves_to rejected (thumbprint_of c) call) calls →
     let st' := run this calls (trustCertificate this c st).2 in
     (_getCertificateStatus this c st').1 = Returned (inr trusted) ∧
     (getCertificateStatus this c st').1 = Returned (inr trusted)) ∧
  (readThumbprint (toPem c "CERTIFICATE") = thumbprint_of c →
   ∀ calls,
     (rejectCertificate this c st).1 = Returned None →
     Forall (λ call, ¬ moves_to trusted (thumbprint_of c) call) calls →
     let st' := run this calls (rejectCertificate this c st).2 in
     (_getCertificateStatus this c st').1 = Returned (inr rejected) ∧
     (getCertificateStatus this c st').1 = Returned (inr rejected)) ∧
  (∀ target,
     (getCertificateStatus this c st).1 = Returned (inr target) →
     _moveCertificate this c target st
     = (Returned None, (getCertificateStatus this c st).2)).
Proof.
  intros Hready Hfree. split_and!.
  - intros Hpem Hnamed calls Hmove Hcalls. cbv zeta.
    destruct (_moveCertificate_post c trusted st (Hpem c) Hready Hfree)
      as (r & st1 & Hmove' & Hready1 & Hfree1 & Hnow & Hkeep); [done|].
    unfold trustCertificate in *. rewrite Hmove' in Hmove |- *. cbn [fst snd] in *.
    injection Hmove as ->. specialize (Hnow eq_refl (or_intror Hnamed)).
    destruct (Hkeep _ Hnamed) as [Hnamed1 _].
    destruct (run_post calls st1 (thumbprint_of c) Hpem Hready1 Hfree1 Hnamed1)
      as (Hready2 & Hfree2 & _ & Hrun).
    + by rewrite Hnow.
    + rewrite Hnow. eapply Forall_impl; [exact Hcalls|]. intros call Hcall new Hmoves.
      destruct call; try done; destruct Hmoves as [-> Ht]; [done|]. by destruct Hcall.
    + apply status_in_queries; [done|by apply Hfree2| |done]. by rewrite Hrun.
  - intros Hpem calls Hmove Hcalls. cbv zeta.
    destruct (_moveCertificate_post c rejected st Hpem Hready Hfree)
      as (r & st1 & Hmove' & Hready1 & Hfree1 & Hnow & _); [done|].
    unfold rejectCertificate in *. rewrite Hmove' in Hmove |- *. cbn [fst snd] in *.
    injection Hmove as ->. specialize (Hnow eq_refl (or_introl eq_refl)).
    destruct (run_keeps_rejected calls st1 (thumbprint_of c) Hready1 Hfree1 Hnow Hcalls)
      as (Hready2 & Hfree2 & Hrun).
    by apply status_in_queries; [done|apply Hfree2|done|].
  - intros target Hget. unfold _moveCertificate, mbind, M_bind.
    destruct (getCertificateStatus this c st) as [[[e|s]|e] st2]; cbn [fst snd] in *; try done.
    injection Hget as ->. by rewrite bool_decide_eq_false_2 by (intros Hne; by apply Hne).
Qed.

End Transitions.

(** ** Further facts of the trust store *)

Section StoreFacts.
Context `{NodeOpcuaCrypto} `{Toolchain}.
Variable this : CertificateManager.

(** On a store whose skeleton is in place the caller-facing status query
    never answers [unknown]: it answers [trusted] or [rejected], unless a
    directory is in its way; with a directory at [own/openssl.cnf] it
    throws [EISDIR], and for a never-seen certificate with a directory at
    [rejected/<thumbprint>.pem] it calls back with [EISDIR] and no
    status. *)
Theorem getCertificateStatus_definite c st :
  layout_ready this (disk st) →
  let name := certificateName this rejected (thumbprint_of c) in
  let answer := (getCertificateStatus this c st).1 in
  answer ≠ Returned (inr unknown) ∧
  (configFile this ∈ dirs (disk st) → answer = Thrown (EISDIR (configFile this))) ∧
  (configFile this ∉ dirs (disk st) →
   status_in this st (thumbprint_of c) = unknown → name ∈ dirs (disk st) →
   answer = Returned (inl (EISDIR name))) ∧
  (configFile this ∉ dirs (disk st) →
   (status_in this st (thumbprint_of c) = unknown → name ∉ dirs (disk st)) →
   answer = Returned (inr trusted) ∨ answer = Returned (inr rejected)).
Proof.
  intros Hready. cbv zeta.
  destruct (decide (configFile this ∈ dirs (disk st))) as [Hdir|Hfree].
  { rewrite (getCertificateStatus_blocked this c st Hready Hdir). cbn [fst].
    split_and!; done. }
  destruct (getCertificateStatus_cases this c st Hready Hfree) as (st1 & evs & _ & _ & _ & ->).
  destruct (status_in this st (thumbprint_of c)); cbv zeta.
  - case_bool_decide; cbn [fst]; split_and!; try done; auto.
    intros _ Hname. by destruct Hname.
  - cbn [fst]. split_and!; try done; auto.
  - cbn [fst]. split_and!; try done; auto.
Qed.

(** [verifyCertificate] never touches the disk, the toolchain or the
    revocation record, and takes nothing out of the index. *)
Theorem verifyCertificate_read_only oc now st :
  let st' := (verifyCertificate this oc now st).2 in
  disk st' = disk st ∧ draws st' = draws st ∧ revocations st' = revocations st ∧
  Thumbs.rejected (_thumbs st) ⊆ Thumbs.rejected (_thumbs st') ∧
  Thumbs.trusted (_thumbs st) ⊆ Thumbs.trusted (_thumbs st').
Proof.
  cbv zeta. destruct (verifyCertificate_state this oc now st) as [-> | ->].
  - done.
  - unfold rescan, rescanned. st_simpl. cbn [Thumbs.rejected Thumbs.trusted].
    split_and!; [done..| |]; set_solver.
Qed.

(** The index is never invalidated: an answer [rejected] is given again
    whatever becomes of the disk, and an answer [trusted] is given again
    as long as no file of that thumbprint appears below [rejected/]. *)
Theorem answer_survives_disk c st d' s :
  (_getCertificateStatus this c st).1 = Returned (inr s) →
  s = rejected ∨ (s = trusted ∧ thumbprint_of c ∉ scanned (rejectedDir this) d') →
  (_getCertificateStatus this c (set_disk d' (_getCertificateStatus this c st).2)).1
  = Returned (inr s).
Proof.
  rewrite !_getCertificateStatus_eq. cbn [fst snd]. intros Hs Hcase.
  injection Hs as Hs. do 2 f_equal.
  destruct Hcase as [-> | [-> Hno]].
  - apply lookup_status_rejected in Hs. apply lookup_status_rejected.
    unfold rescanned at 1. unfold rescan, set_disk. st_simpl. cbn [Thumbs.rejected].
    set_solver.
  - apply lookup_status_trusted in Hs as [Hout Hin]. apply lookup_status_trusted.
    unfold rescanned at 1 2. unfold rescan, set_disk. st_simpl.
    cbn [Thumbs.rejected Thumbs.trusted]. set_solver.
Qed.

(** A successful move on an initialized store: the file named after the
    thumbprint goes from the folder of the current status to the folder of
    the new one with its bytes, the other files of the store stay, and the
    index follows. *)
Lemma move_carries_file c s new data st :
  layout_ready this (disk st) →
  configFile this ∉ dirs (disk st) →
  certificateName this new (thumbprint_of c) ∉ dirs (disk st) →
  status_in this st (thumbprint_of c) = s →
  s ≠ unknown → new ≠ unknown → s ≠ new →
  files (disk st) !! certificateName this s (thumbprint_of c) = Some data →
  ∃ st',
    _moveCertificate this c new st = (Returned None, st') ∧
    layout_ready this (disk st') ∧
    files (disk st') !! certificateName this new (thumbprint_of c) = Some data ∧
    files (disk st') !! certificateName this s (thumbprint_of c) = None ∧
    (∀ p s0, s0 ≠ unknown → under (statusDir this s0) p = true →
       p ≠ certificateName this s (thumbprint_of c) →
       p ≠ certificateName this new (thumbprint_of c) →
       files (disk st') !! p = files (disk st) !! p) ∧
    thumbs_get new (_thumbs st') = Some ({[thumbprint_of c]} ∪ default ∅ (thumbs_get new (rescanned this st))) ∧
    thumbs_get s (_thumbs st') = Some (default ∅ (thumbs_get s (rescanned this st)) ∖ {[thumbprint_of c]}) ∧
    dirs (disk st') = dirs (disk st).
Proof.
  intros Hready Hcfg Hdst Hs Hsu Hnu Hne Hfile.
  destruct (getCertificateStatus_ready this c st Hready Hcfg)
    as (st1 & evs & Hsame & _ & _ & Hget).
  { intros E. congruence. }
  rewrite Hs in Hget.
  assert (Hget' : getCertificateStatus this c st = (Returned (inr s), rescan this st1))
    by (by destruct s).
  clear Hget.
  assert (Hstore : ∀ p s0, s0 ≠ unknown → under (statusDir this s0) p = true →
            files (disk (rescan this st1)) !! p = files (disk st) !! p).
  { intros p s0 Hs0 Hu. unfold rescan. st_simpl. destruct Hsame as (_ & _ & Hf).
    by apply (Hf _ s0 Hs0). }
  assert (Hdirs : dirs (disk st1) = dirs (disk st))
    by (by destruct Hsame as (_ & ? & _)).
  assert (Hth : rescanned this st1 = rescanned this st)
    by exact (same_store_rescanned this st st1 Hsame).
  unfold _moveCertificate. unfold mbind at 1, M_bind at 1. rewrite Hget'.
  rewrite bool_decide_eq_true_2 by done.
  change (rootDir this ++ [status_name s; thumbprint_of c +:+ ".pem"])
    with (certificateName this s (thumbprint_of c)).
  change (rootDir this ++ [status_name new; thumbprint_of c +:+ ".pem"])
    with (certificateName this new (thumbprint_of c)).
  unfold mbind at 1, M_bind at 1. rewrite (fs_rename_file _ _ data); cycle 1.
  { by rewrite (Hstore _ s Hsu (proj2 (under_statusDir_name this s s _) eq_refl)). }
  { unfold rescan. st_simpl. by rewrite Hdirs. }
  { rewrite dirname_certificateName. unfold rescan. st_simpl. rewrite Hdirs.
    by apply layout_statusDir. }
  unfold mbind, M_bind, get_state, modify, mret, M_ret. st_simpl.
  destruct s, new; try done;
    cbn [thumbs_get thumbs_put Thumbs.rejected Thumbs.trusted
         Thumbs.set_rejected Thumbs.set_trusted];
    (eexists; split; [reflexivity|]); unfold rescan; st_simpl;
    cbn [thumbs_get thumbs_put Thumbs.rejected Thumbs.trusted
         Thumbs.set_rejected Thumbs.set_trusted default];
    rewrite Hth;
    (split_and!;
     [ unfold layout_ready in *; by rewrite Hdirs
     | by rewrite lookup_insert_eq
     | rewrite lookup_insert_ne by (intros [E _]%certificateName_inj; done);
       by rewrite lookup_delete_eq
     | intros p s0 Hs0 Hu Hsrc Hdst';
       rewrite lookup_insert_ne by done;
       rewrite lookup_delete_ne by done;
       by apply (Hstore p s0)
     | done | done | done ]).
Qed.

(** Rejecting a trusted certificate and trusting it again restores the
    store, when no directory sits at the configuration file or at one of
    the two names of the certificate: both moves succeed, the file is
    back under [trusted/] with the bytes it had, no other file of the
    store has changed, and the certificate is answered [trusted] again. *)
Theorem reject_trust_round_trip c data st :
  layout_ready this (disk st) →
  configFile this ∉ dirs (disk st) →
  certificateName this rejected (thumbprint_of c) ∉ dirs (disk st) →
  certificateName this trusted (thumbprint_of c) ∉ dirs (disk st) →
  status_in this st (thumbprint_of c) = trusted →
  files (disk st) !! certificateName this trusted (thumbprint_of c) = Some data →
  let rejecting := rejectCertificate this c st in
  let trusting := trustCertificate this c rejecting.2 in
  rejecting.1 = Returned None ∧
  files (disk rejecting.2) !! certificateName this rejected (thumbprint_of c) = Some data ∧
  files (disk rejecting.2) !! certificateName this trusted (thumbprint_of c) = None ∧
  status_in this rejecting.2 (thumbprint_of c) = rejected ∧
  trusting.1 = Returned None ∧
  files (disk trusting.2) !! certificateName this trusted (thumbprint_of c) = Some data ∧
  files (disk trusting.2) !! certificateName this rejected (thumbprint_of c) = None ∧
  status_in this trusting.2 (thumbprint_of c) = trusted ∧
  ∀ p s0, s0 ≠ unknown → under (statusDir this s0) p = true →
    p ≠ certificateName this trusted (thumbprint_of c) →
    p ≠ certificateName this rejected (thumbprint_of c) →
    files (disk trusting.2) !! p = files (disk st) !! p.
Proof.
  intros Hready Hcfg Hrejdir Htrdir Hs Hfile. cbv zeta.
  unfold rejectCertificate, trustCertificate.
  destruct (move_carries_file c trusted rejected data st Hready Hcfg Hrejdir Hs)
    as (st1 & -> & Hready1 & Hrej1 & Htr1 & Hframe1 & Hnew1 & Hold1 & Hdirs1); [done..|].
  cbn [fst snd]. cbn [thumbs_get] in Hnew1, Hold1. injection Hnew1 as Hnew1. injection Hold1 as Hold1.
  assert (Hs1 : status_in this st1 (thumbprint_of c) = rejected).
  { apply lookup_status_rejected. unfold rescanned. cbn [Thumbs.rejected]. rewrite Hnew1.
    set_solver. }
  destruct (move_carries_file c rejected trusted data st1 Hready1)
    as (st2 & -> & Hready2 & Htr2 & Hrej2 & Hframe2 & Hnew2 & Hold2 & _);
    [by rewrite Hdirs1|by rewrite Hdirs1|done|done|done|done|done|].
  cbn [fst snd]. cbn [thumbs_get] in Hnew2, Hold2. injection Hnew2 as Hnew2. injection Hold2 as Hold2.
  assert (Hframe : ∀ p s0, s0 ≠ unknown → under (statusDir this s0) p = true →
    p ≠ certificateName this trusted (thumbprint_of c) →
    p ≠ certificateName this rejected (thumbprint_of c) →
    files (disk st2) !! p = files (disk st) !! p).
  { intros p s0 Hs0 Hu Hp1 Hp2. rewrite (Hframe2 p s0), (Hframe1 p s0); done. }
  split_and!; try done.
  apply lookup_status_trusted in Hs as [Hout Hin].
  apply lookup_status_trusted. split.
  - unfold rescanned. cbn [Thumbs.rejected]. rewrite Hold2.
    intros [Hidx|Hscan]%elem_of_union; [set_solver|].
    apply elem_of_scanned in Hscan as (p & data' & Hp & Hu & Ht).
    assert (p ≠ certificateName this rejected (thumbprint_of c)) by congruence.
    assert (p ≠ certificateName this trusted (thumbprint_of c)).
    { intros ->. change (rejectedDir this) with (statusDir this rejected) in Hu.
      by apply under_statusDir_name in Hu. }
    rewrite (Hframe p rejected) in Hp by done.
    apply Hout. unfold rescanned. cbn [Thumbs.rejected].
    apply elem_of_union_r, elem_of_scanned. eauto.
  - unfold rescanned. cbn [Thumbs.trusted]. rewrite Hnew2. set_solver.
Qed.

(** A move onto a directory fails and relabels the index all the same:
    when the file of the certificate exists under its current status and
    a directory sits at its name under the new status, the rename fails
    with [EISDIR], every file of the store stays where it is, and the
    thumbprint has left the set of the current status and entered the set
    of the new one. *)
Theorem move_onto_directory_fails c s new data st :
  layout_ready this (disk st) →
  configFile this ∉ dirs (disk st) →
  status_in this st (thumbprint_of c) = s →
  s ≠ unknown → new ≠ unknown → s ≠ new →
  files (disk st) !! certificateName this s (thumbprint_of c) = Some data →
  certificateName this new (thumbprint_of c) ∈ dirs (disk st) →
  let moving := _moveCertificate this c new st in
  moving.1 = Returned (Some (EISDIR (certificateName this new (thumbprint_of c)))) ∧
  (∀ p s0, s0 ≠ unknown → under (statusDir this s0) p = true →
     files (disk moving.2) !! p = files (disk st) !! p) ∧
  dirs (disk moving.2) = dirs (disk st) ∧
  (∃ index, thumbs_get new (_thumbs moving.2) = Some index ∧ thumbprint_of c ∈ index) ∧
  (∃ index, thumbs_get s (_thumbs moving.2) = Some index ∧ thumbprint_of c ∉ index).
Proof.
  intros Hready Hcfg Hs Hsu Hnu Hne Hfile Hdst. cbv zeta.
  destruct (getCertificateStatus_ready this c st Hready Hcfg)
    as (st1 & evs & Hsame & _ & _ & Hget).
  { intros E. congruence. }
  rewrite Hs in Hget.
  assert (Hget' : getCertificateStatus this c st = (Returned (inr s), rescan this st1))
    by (by destruct s).
  clear Hget.
  assert (Hstore : ∀ p s0, s0 ≠ unknown → under (statusDir this s0) p = true →
            files (disk (rescan this st1)) !! p = files (disk st) !! p).
  { intros p s0 Hs0 Hu. unfold rescan. st_simpl. destruct Hsame as (_ & _ & Hf).
    by apply (Hf _ s0 Hs0). }
  assert (Hdirs : dirs (disk st1) = dirs (disk st))
    by (by destruct Hsame as (_ & ? & _)).
  assert (Hmove : ∃ st',
    _moveCertificate this c new st
    = (Returned (Some (EISDIR (certificateName this new (thumbprint_of c)))), st') ∧
    disk st' = disk (rescan this st1) ∧
    (∃ index, thumbs_get new (_thumbs st') = Some index ∧ thumbprint_of c ∈ index) ∧
    (∃ index, thumbs_get s (_thumbs st') = Some index ∧ thumbprint_of c ∉ index)).
  { unfold _moveCertificate. unfold mbind at 1, M_bind at 1. rewrite Hget'.
    rewrite bool_decide_eq_true_2 by done.
    change (rootDir this ++ [status_name s; thumbprint_of c +:+ ".pem"])
      with (certificateName this s (thumbprint_of c)).
    change (rootDir this ++ [status_name new; thumbprint_of c +:+ ".pem"])
      with (certificateName this new (thumbprint_of c)).
    unfold mbind at 1, M_bind at 1. rewrite (fs_rename_onto_directory _ _ data); cycle 1.
    { by rewrite (Hstore _ s Hsu (proj2 (under_statusDir_name this s s _) eq_refl)). }
    { unfold rescan. st_simpl. by rewrite Hdirs. }
    unfold mbind, M_bind, get_state, modify, mret, M_ret. st_simpl.
    destruct s, new; try done;
      cbn [thumbs_get thumbs_put Thumbs.rejected Thumbs.trusted
           Thumbs.set_rejected Thumbs.set_trusted];
      (eexists; split; [reflexivity|]); st_simpl;
      cbn [thumbs_get thumbs_put Thumbs.rejected Thumbs.trusted
           Thumbs.set_rejected Thumbs.set_trusted];
      (split_and!; [done|eexists; split; [done|set_solver]..]). }
  destruct Hmove as (st' & -> & Hdisk & Hnewidx & Holdidx). cbn [fst snd].
  rewrite Hdisk. split_and!; [done| |by (unfold rescan; st_simpl)|done..].
  intros p s0 Hs0 Hu. by apply (Hstore p s0).
Qed.

(** Trusting a never-seen certificate on a store whose skeleton is in
    place and whose configuration file can be written.  With no
    directory at the two names of the certificate, it is filed under
    [rejected/] and moved at once: the call succeeds, the PEM file is
    under [trusted/] and not under [rejected/], and the index has the
    thumbprint as trusted only.  With a directory at
    [rejected/<thumbprint>.pem] the call calls back with [EISDIR], no
    file of the store changes and the index does not record the
    thumbprint. *)
Theorem trust_never_seen c st :
  layout_ready this (disk st) →
  configFile this ∉ dirs (disk st) →
  status_in this st (thumbprint_of c) = unknown →
  let name s := certificateName this s (thumbprint_of c) in
  let trusting := trustCertificate this c st in
  (name rejected ∉ dirs (disk st) → name trusted ∉ dirs (disk st) →
   trusting.1 = Returned None ∧
   files (disk trusting.2) !! name trusted = Some (toPem c "CERTIFICATE") ∧
   files (disk trusting.2) !! name rejected = None ∧
   thumbprint_of c ∈ Thumbs.trusted (_thumbs trusting.2) ∧
   (thumbprint_of c ∉ Thumbs.rejected (_thumbs trusting.2)) ∧
   ∃ evs, bootstrap_log this evs ∧
     new_events st trusting.2
     = evs ++ [EvWalk (trustedDir this); EvWalk (rejectedDir this);
               EvWriteFile (name rejected) (toPem c "CERTIFICATE");
               EvRename (name rejected) (name trusted)]) ∧
  (name rejected ∈ dirs (disk st) →
   trusting.1 = Returned (Some (EISDIR (name rejected))) ∧
   (∀ p s, s ≠ unknown → under (statusDir this s) p = true →
           files (disk trusting.2) !! p = files (disk st) !! p) ∧
   (thumbprint_of c ∉ Thumbs.trusted (_thumbs trusting.2)) ∧
   (thumbprint_of c ∉ Thumbs.rejected (_thumbs trusting.2))).
Proof.
  intros Hready Hcfg Hs. cbv zeta.
  destruct (getCertificateStatus_cases this c st Hready Hcfg)
    as (st1 & evs & Hsame & Hev & Hlog & Hget).
  rewrite Hs in Hget. cbv zeta in Hget.
  assert (Hth : rescanned this st1 = rescanned this st)
    by exact (same_store_rescanned this st st1 Hsame).
  apply lookup_status_unknown in Hs as [Hnr Hnt].
  split.
  - intros Hrejdir Htrdir. rewrite bool_decide_eq_false_2 in Hget by done.
    assert (Hmove : ∃ st',
      trustCertificate this c st = (Returned None, st') ∧
      files (disk st') !! certificateName this trusted (thumbprint_of c)
        = Some (toPem c "CERTIFICATE") ∧
      files (disk st') !! certificateName this rejected (thumbprint_of c) = None ∧
      thumbprint_of c ∈ Thumbs.trusted (_thumbs st') ∧
      (thumbprint_of c ∉ Thumbs.rejected (_thumbs st')) ∧
      events st' = events st ++ evs ++
        [EvWalk (trustedDir this); EvWalk (rejectedDir this);
         EvWriteFile (certificateName this rejected (thumbprint_of c)) (toPem c "CERTIFICATE");
         EvRename (certificateName this rejected (thumbprint_of c))
                  (certificateName this trusted (thumbprint_of c))]).
    { unfold trustCertificate, _moveCertificate. unfold mbind at 1, M_bind at 1.
      rewrite Hget. rewrite bool_decide_eq_true_2 by done.
      change (rootDir this ++ [status_name rejected; thumbprint_of c +:+ ".pem"])
        with (certificateName this rejected (thumbprint_of c)).
      change (rootDir this ++ [status_name trusted; thumbprint_of c +:+ ".pem"])
        with (certificateName this trusted (thumbprint_of c)).
      unfold mbind at 1, M_bind at 1.
      rewrite (fs_rename_file _ _ (toPem c "CERTIFICATE")); cycle 1.
      { unfold persisted. st_simpl. by rewrite lookup_insert_eq. }
      { unfold persisted, rescan. st_simpl. by destruct Hsame as (_ & -> & _). }
      { rewrite dirname_certificateName. unfold persisted, rescan. st_simpl.
        destruct Hsame as (_ & -> & _). by apply layout_statusDir. }
      unfold persisted, rescan. st_simpl.
      unfold mbind, M_bind, get_state, modify, mret, M_ret. st_simpl.
      cbn [thumbs_get thumbs_put Thumbs.rejected Thumbs.trusted
           Thumbs.set_rejected Thumbs.set_trusted].
      eexists. split; [reflexivity|]. st_simpl.
      cbn [Thumbs.rejected Thumbs.trusted Thumbs.set_rejected Thumbs.set_trusted].
      rewrite Hth. split_and!.
      - by rewrite lookup_insert_eq.
      - rewrite lookup_insert_ne by (intros [E _]%certificateName_inj; done).
        by rewrite lookup_delete_eq.
      - set_solver.
      - set_solver.
      - rewrite Hev. by rewrite <- !app_assoc. }
    destruct Hmove as (st' & -> & ? & ? & ? & ? & Hev').
    cbn [fst snd]. split_and!; try done.
    exists evs. split; [done|]. by apply new_events_app.
  - intros Hrejdir. rewrite bool_decide_eq_true_2 in Hget by done.
    assert (Hmove : trustCertificate this c st
      = (Returned (Some (EISDIR (certificateName this rejected (thumbprint_of c)))),
         add_event (EvWriteFile (certificateName this rejected (thumbprint_of c))
                                (toPem c "CERTIFICATE")) (rescan this st1))).
    { unfold trustCertificate, _moveCertificate. unfold mbind at 1, M_bind at 1.
      by rewrite Hget. }
    rewrite Hmove. cbn [fst snd]. unfold rescan. st_simpl. rewrite Hth.
    split_and!; [done| |done..].
    intros p s Hs Hu. destruct Hsame as (_ & _ & Hf). by apply (Hf p s).
Qed.

End StoreFacts.

Section QuietMoves.
Context `{NodeOpcuaCrypto} `{Toolchain}.
Variable this : CertificateManager.

(** A move to the status the certificate already has succeeds without a
    rename, whether or not the file of the certificate exists, as long as
    the configuration file can be written: no file of the store changes,
    the status stays, and the log holds the bootstrap steps and the two
    walks only. *)
Theorem move_to_current_status_quiet c s st :
  layout_ready this (disk st) →
  configFile this ∉ dirs (disk st) →
  s ≠ unknown →
  status_in this st (thumbprint_of c) = s →
  let moving := _moveCertificate this c s st in
  moving.1 = Returned None ∧
  status_in this moving.2 (thumbprint_of c) = s ∧
  (∀ p s0, s0 ≠ unknown → under (statusDir this s0) p = true →
     files (disk moving.2) !! p = files (disk st) !! p) ∧
  ∃ evs, bootstrap_log this evs ∧
    new_events st moving.2 = evs ++ [EvWalk (trustedDir this); EvWalk (rejectedDir this)].
Proof.
  intros Hready Hcfg Hsu Hs. cbv zeta.
  destruct (getCertificateStatus_ready this c st Hready Hcfg)
    as (st1 & evs & Hsame & Hev & Hlog & Hget).
  { intros E. congruence. }
  rewrite Hs in Hget.
  assert (Hget' : getCertificateStatus this c st = (Returned (inr s), rescan this st1))
    by (by destruct s).
  assert (Hmove : _moveCertificate this c s st = (Returned None, rescan this st1)).
  { unfold _moveCertificate. unfold mbind at 1, M_bind at 1. rewrite Hget'.
    by rewrite bool_decide_eq_false_2 by (by intros ?). }
  rewrite Hmove. cbn [fst snd]. split_and!.
  - done.
  - by rewrite status_in_rescan, (status_in_same_store this st st1 _ Hsame).
  - intros p s0 Hs0 Hu. unfold rescan. st_simpl. destruct Hsame as (_ & _ & Hf).
    by apply (Hf _ s0 Hs0).
  - exists evs. split; [done|]. apply new_events_app. unfold rescan. st_simpl.
    by rewrite Hev, <- app_assoc.
Qed.

(** Rejecting a never-seen certificate on a store whose skeleton is in
    place and whose configuration file can be written.  With no
    directory at [rejected/<thumbprint>.pem], the status query files it
    there and there is nothing left to move; the call succeeds, the PEM
    file is under [rejected/], the log ends with the two walks and the
    write, and the index does not record the thumbprint: the next query
    finds it through the file.  With a directory at that name the call
    calls back with [EISDIR] and no file of the store changes. *)
Theorem reject_never_seen c st :
  layout_ready this (disk st) →
  configFile this ∉ dirs (disk st) →
  status_in this st (thumbprint_of c) = unknown →
  let name := certificateName this rejected (thumbprint_of c) in
  let rejecting := rejectCertificate this c st in
  (name ∉ dirs (disk st) →
   rejecting.1 = Returned None ∧
   files (disk rejecting.2) !! name = Some (toPem c "CERTIFICATE") ∧
   (thumbprint_of c ∉ Thumbs.rejected (_thumbs rejecting.2)) ∧
   (thumbprint_of c ∉ Thumbs.trusted (_thumbs rejecting.2)) ∧
   (readThumbprint (toPem c "CERTIFICATE") = thumbprint_of c →
    status_in this rejecting.2 (thumbprint_of c) = rejected) ∧
   ∃ evs, bootstrap_log this evs ∧
     new_events st rejecting.2
     = evs ++ [EvWalk (trustedDir this); EvWalk (rejectedDir this);
               EvWriteFile name (toPem c "CERTIFICATE")]) ∧
  (name ∈ dirs (disk st) →
   rejecting.1 = Returned (Some (EISDIR name)) ∧
   ∀ p s, s ≠ unknown → under (statusDir this s) p = true →
          files (disk rejecting.2) !! p = files (disk st) !! p).
Proof.
  intros Hready Hcfg Hs. cbv zeta.
  destruct (getCertificateStatus_cases this c st Hready Hcfg)
    as (st1 & evs & Hsame & Hev & Hlog & Hget).
  rewrite Hs in Hget. cbv zeta in Hget.
  assert (Hth : rescanned this st1 = rescanned this st)
    by exact (same_store_rescanned this st st1 Hsame).
  apply lookup_status_unknown in Hs as [Hnr Hnt].
  split.
  - intros Hname. rewrite bool_decide_eq_false_2 in Hget by done.
    assert (Hmove : rejectCertificate this c st
                    = (Returned None, persisted this c (rescan this st1))).
    { unfold rejectCertificate, _moveCertificate. unfold mbind at 1, M_bind at 1. rewrite Hget.
      by rewrite bool_decide_eq_false_2 by (by intros ?). }
    rewrite Hmove. cbn [fst snd]. unfold persisted, rescan. st_simpl. rewrite Hth.
    split_and!.
    + done.
    + by rewrite lookup_insert_eq.
    + done.
    + done.
    + intros Hdecode. apply lookup_status_rejected. unfold rescanned. st_simpl.
      cbn [Thumbs.rejected]. apply elem_of_union_r, elem_of_scanned.
      exists (certificateName this rejected (thumbprint_of c)), (toPem c "CERTIFICATE").
      st_simpl. split_and!; [by rewrite lookup_insert_eq| |done].
      change (rejectedDir this) with (statusDir this rejected).
      by apply under_statusDir_name.
    + exists evs. split; [done|]. apply new_events_app. st_simpl.
      rewrite ?Hev, <- ?app_assoc. reflexivity.
  - intros Hname. rewrite bool_decide_eq_true_2 in Hget by done.
    assert (Hmove : rejectCertificate this c st
      = (Returned (Some (EISDIR (certificateName this rejected (thumbprint_of c)))),
         add_event (EvWriteFile (certificateName this rejected (thumbprint_of c))
                                (toPem c "CERTIFICATE")) (rescan this st1))).
    { unfold rejectCertificate, _moveCertificate. unfold mbind at 1, M_bind at 1.
      by rewrite Hget. }
    rewrite Hmove. cbn [fst snd]. unfold rescan. st_simpl. split; [done|].
    intros p s Hs Hu. destruct Hsame as (_ & _ & Hf). by apply (Hf p s).
Qed.

End QuietMoves.

(** ** Invariants of the trust store *)

Section StoreInvariants.
Context `{NodeOpcuaCrypto} `{Toolchain}.
Variable this : CertificateManager.

Lemma classified_once_ext st st' :
  store_wf this (disk st) → store_wf this (disk st') →
  (∀ t, t ∈ Thumbs.rejected (rescanned this st') → t ∈ Thumbs.trusted (rescanned this st') →
        t ∈ Thumbs.rejected (rescanned this st) ∧ t ∈ Thumbs.trusted (rescanned this st)) →
  classified_once this st → classified_once this st'.
Proof. intros _ _ Himp Hd t [Hr Ht]. apply (Hd t). by apply Himp. Qed.

Lemma getCertificateStatus_disjoint c st :
  pem_roundtrip →
  layout_ready this (disk st) → unblocked this (disk st) → store_wf this (disk st) →
  classified_once this st → classified_once this (getCertificateStatus this c st).2.
Proof.
  intros Hpem Hready Hfree Hwf Hd.
  destruct (getCertificateStatus_ready this c st Hready (proj1 Hfree))
    as (st1 & evs & Hsame & _ & _ & ->).
  { intros _. by apply Hfree. }
  assert (Hwf1 : store_wf this (disk (rescan this st1)))
    by exact (same_store_wf this st st1 Hsame Hwf).
  assert (Hth : rescanned this (rescan this st1) = rescanned this st).
  { by rewrite rescanned_idem, (same_store_rescanned this st st1 Hsame). }
  assert (Hd1 : classified_once this (rescan this st1)).
  { intros t. rewrite Hth. apply Hd. }
  destruct (status_in this st (thumbprint_of c)) eqn:Hs; cbn [snd]; [|done..].
  apply lookup_status_unknown in Hs as [Hnr Hnt].
  assert (Hwf2 : store_wf this (disk (persisted this c (rescan this st1))))
    by by apply persisted_wf.
  intros t. rewrite rescanned_rejected_wf, rescanned_trusted_wf by done.
  unfold persisted. st_simpl.
  rewrite (lookup_insert_ne _ _ (certificateName this trusted t))
    by (intros [E _]%certificateName_inj; done).
  intros [Hr Ht].
  assert (Ht' : t ∈ Thumbs.trusted (rescanned this st)).
  { rewrite <- Hth. by apply rescanned_trusted_wf. }
  destruct (decide (t = thumbprint_of c)) as [->|Hne]; [done|].
  rewrite lookup_insert_ne in Hr by (intros [_ E]%certificateName_inj; done).
  apply (Hd t). split; [|done].
  rewrite <- Hth. by apply rescanned_rejected_wf.
Qed.

Lemma _moveCertificate_disjoint c new st :
  pem_roundtrip →
  layout_ready this (disk st) → unblocked this (disk st) → store_wf this (disk st) →
  new ≠ unknown →
  classified_once this st → classified_once this (_moveCertificate this c new st).2.
Proof.
  intros Hpem Hready Hfree Hwf Hnew Hd.
  assert (Hd2 := getCertificateStatus_disjoint c st Hpem Hready Hfree Hwf Hd).
  destruct (getCertificateStatus_post this c st (Hpem c) Hready Hfree)
    as (s & st2 & Hget & Hs & Hready2 & Hfree2 & Hst2 & Hkeep).
  assert (Hwf2 : store_wf this (disk st2)).
  { apply store_wf_named. intros t. apply Hkeep. by apply store_wf_named. }
  rewrite Hget in Hd2. cbn [snd] in Hd2.
  destruct (_moveCertificate_cases this c new st Hready Hfree Hnew)
    as (s' & st2' & Hget' & _ & _ & _ & Hcases).
  rewrite Hget in Hget'. injection Hget' as <- <-.
  destruct Hcases as [[_ ->]|(Hdiff & r & st' & -> & Hdirs & Hnewidx & Holdidx & Hfiles)];
    [done|].
  cbn [snd].
  set (src := certificateName this s (thumbprint_of c)) in *.
  set (dst := certificateName this new (thumbprint_of c)) in *.
  assert (Hmem : ∀ t,
    (t ∈ Thumbs.rejected (_thumbs st2) ∨
       is_Some (files (disk st2) !! certificateName this rejected t)) →
    (t ∈ Thumbs.trusted (_thumbs st2) ∨
       is_Some (files (disk st2) !! certificateName this trusted t)) → False).
  { intros t Hr Ht. apply (Hd2 t).
    by rewrite rescanned_rejected_wf, rescanned_trusted_wf. }
  assert (Hwf' : store_wf this (disk st')).
  { destruct (files (disk st2) !! src) as [data|] eqn:Hsrc; destruct Hfiles as [_ Hfiles].
    - assert (Hwf3 := renamed_wf this (disk st2) s new (thumbprint_of c) data Hwf2 Hs Hsrc).
      intros p data' s0 Hp. rewrite Hfiles in Hp. by apply Hwf3.
    - intros p data' s0 Hp. rewrite Hfiles in Hp. by apply Hwf2. }
  intros t. rewrite rescanned_rejected_wf, rescanned_trusted_wf by done.
  intros [Hr Ht].
  destruct (files (disk st2) !! src) as [data|] eqn:Hsrc; destruct Hfiles as [_ Hfiles];
    rewrite Hfiles in Hr, Ht; subst src dst;
    destruct s, new; try done; cbn [thumbs_get default] in Hnewidx, Holdidx;
    injection Hnewidx as Hnewidx; injection Holdidx as Holdidx;
    rewrite ?Hnewidx, ?Holdidx in Hr, Ht;
    (destruct (decide (t = thumbprint_of c)) as [->|Hne];
     [ rewrite ?lookup_insert_eq, ?lookup_delete_eq in *;
       rewrite ?lookup_insert_ne, ?lookup_delete_eq in *
         by (intros [E _]%certificateName_inj; done);
       rewrite ?Hsrc in *;
       destruct Hr as [Hr|[? Hr]], Ht as [Ht|[? Ht]]; try done; set_solver
     | rewrite ?lookup_insert_ne, ?lookup_delete_ne in *
         by (intros [_ E]%certificateName_inj; done);
       apply (Hmem t); [destruct Hr as [Hr|Hr]; [left; set_solver|by right]
                       |destruct Ht as [Ht|Ht]; [left; set_solver|by right]] ]).
Qed.

Lemma perform_disjoint call st :
  pem_roundtrip →
  layout_ready this (disk st) → unblocked this (disk st) → store_wf this (disk st) →
  classified_once this st → classified_once this (perform this call st).
Proof.
  intros Hpem Hready Hfree Hwf Hd.
  destruct call as [|c|c|c|c|oc now|c date reason]; cbn [perform].
  - destruct (initialize_ready_post this st Hready (proj1 Hfree))
      as (r & st1 & evs & -> & Hsame & _).
    cbn [snd]. intros t. rewrite (same_store_rescanned this st st1 Hsame). apply Hd.
  - by apply getCertificateStatus_disjoint.
  - rewrite _getCertificateStatus_eq. cbn [snd]. intros t. rewrite rescanned_idem. apply Hd.
  - by apply _moveCertificate_disjoint.
  - by apply _moveCertificate_disjoint.
  - destruct (verifyCertificate_state this oc now st) as [-> | ->]; [done|].
    intros t. rewrite rescanned_idem. apply Hd.
  - done.
Qed.

Lemma run_keeps_store calls st :
  pem_roundtrip →
  layout_ready this (disk st) → unblocked this (disk st) → store_wf this (disk st) →
  classified_once this st →
  layout_ready this (disk (run this calls st)) ∧
  store_wf this (disk (run this calls st)) ∧
  classified_once this (run this calls st).
Proof.
  intros Hpem. revert st.
  induction calls as [|call calls IH]; intros st Hready Hfree Hwf Hd; [done|].
  cbn [run foldl]. fold (run this calls (perform this call st)).
  destruct (perform_post this call st Hpem Hready Hfree) as (? & ? & Hkeep).
  apply IH; [done..| |by apply perform_disjoint].
  apply store_wf_named. intros t. apply Hkeep. by apply store_wf_named.
Qed.

(** From a fresh root: after a first successful bootstrap, whatever calls
    follow, the skeleton is in place, every file of the store is named
    after the thumbprint of its content, and no thumbprint is recorded
    both as rejected and as trusted. *)
Theorem store_invariants_from_fresh_root st key calls :
  pem_roundtrip →
  fresh_root (rootDir this) (disk st) →
  _thumbs st = Thumbs.mk ∅ ∅ →
  openssl_genrsa (keySize this) (draws st) = Some key →
  let st' := run this calls (initialize this st).2 in
  layout_ready this (disk st') ∧ store_wf this (disk st') ∧ classified_once this st'.
Proof.
  intros Hpem Hfresh Hidx Hkey. cbv zeta.
  destruct (bootstrap_store_ok this st key Hfresh Hkey) as [Hready Hwf].
  assert (Hfree := initialize_fresh_unblocked this st key Hfresh Hkey).
  apply run_keeps_store; [done..|].
  destruct (initialize_fresh this st key Hfresh Hkey)
    as (st1 & Hinit & _ & _ & _ & _ & Hth & Hframe & _).
  rewrite Hinit in Hwf |- *. cbn [snd] in *.
  intros t. rewrite rescanned_rejected_wf by done.
  rewrite Hth, Hidx. cbn [Thumbs.rejected].
  intros [[Hr|[x Hr]] _]; [set_solver|].
  assert (Hu := proj2 (under_statusDir_name this rejected rejected t) eq_refl).
  rewrite Hframe in Hr.
  - destruct Hfresh as [_ Hfresh].
    destruct (Hfresh (certificateName this rejected t)) as [_ Hnone]; [|congruence].
    unfold certificateName. apply under_base.
  - intros E. by rewrite E, configFile_outside in Hu.
  - intros E. by rewrite E, privateKey_outside in Hu.
Qed.

End StoreInvariants.

(** ** Certificates for the manager's own key *)

Lemma append_length (a b : string) :
  String.length (a +:+ b) = (String.length a + String.length b)%nat.
Proof. induction a as [|ch a IH]; simpl; [done|]. by rewrite IH. Qed.

Lemma append_inj_length (a b x y : string) :
  String.length a = String.length b → a +:+ x = b +:+ y → a = b ∧ x = y.
Proof.
  revert b. induction a as [|ch a IH]; intros [|ch' b] Hlen E; simpl in *; try done.
  injection E as -> E. injection Hlen as Hlen.
  destruct (IH b Hlen E) as [-> ->]. done.
Qed.

Lemma slice_toISOString_length now :
  String.length (JsDate.slice_from_0 10 (JsDate.toISOString now)) = 10%nat.
Proof.
  unfold JsDate.slice_from_0, JsDate.toISOString.
  destruct (JsDate.civil_from_days _) as [[y m] d].
  by destruct (_ && _).
Qed.

Lemma openssl_to_file_ok produce file data st :
  produce (draws st) = Some data →
  file ∉ dirs (disk st) →
  dirname file ∈ dirs (disk st) →
  openssl_to_file produce file st
  = (Returned None,
     set_disk (mkFs (dirs (disk st)) (<[file := data]> (files (disk st))))
              (add_event (EvWriteFile file data) (next_draw st))).
Proof.
  intros Hdata Hfree Hdir. unfold openssl_to_file, mbind, M_bind, get_state, modify.
  rewrite Hdata. by rewrite fs_writeFile_ok.
Qed.

Section IssuanceFacts.
Context `{NodeOpcuaCrypto} `{Toolchain} `{IssuanceToolchain}.
Variable this : CertificateManager.

(** Two certificate requests get the same file name exactly when they
    are made in the same millisecond; the file is directly below
    [own/certs]. *)
Theorem request_names_distinct now1 now2 :
  (certificateSigningRequestFilename this now1 = certificateSigningRequestFilename this now2
   ↔ now1 = now2) ∧
  dirname (certificateSigningRequestFilename this now1) = rootDir this ++ ["own"; "certs"].
Proof.
  split; [split; [|by intros ->]|].
  - unfold certificateSigningRequestFilename. intros E%app_inv_head.
    injection E as E. change (EmptyString +:+ ?x) with x in E.
    apply append_inj_r in E.
    apply append_inj_length in E as [_ E]; [|by rewrite !slice_toISOString_length].
    injection E as E. by apply (inj pretty).
  - unfold certificateSigningRequestFilename. apply dirname_3.
Qed.

(** Without a private key [createSelfSignedCertificate] calls back with
    "Cannot find private key" and leaves the state and the parameters as
    they were; after a bootstrap of the same fresh root it reaches the
    toolchain with the manager's own paths and the certificate is written
    to [own/certs/self_signed_certificate.pem]. *)
Theorem self_signed_needs_bootstrap params uri st key cert :
  fresh_root (rootDir this) (disk st) →
  applicationUri params = Some uri → outputFile params = None →
  openssl_genrsa (keySize this) (draws st) = Some key →
  (∀ n, openssl_self_signed (with_manager_paths this params) n = Some cert) →
  let before := createSelfSignedCertificate this params st in
  let after := createSelfSignedCertificate this params (initialize this st).2 in
  before = (Normal (params, Some (CannotFindPrivateKey (privateKey this))), st) ∧
  after.1 = Normal (with_manager_paths this params, None) ∧
  files (disk after.2) !! (rootDir this ++ ["own"; "certs"; "self_signed_certificate.pem"])
  = Some cert.
Proof.
  intros Hfresh Huri Hout Hkey Hsign. cbv zeta.
  destruct (initialize_fresh this st key Hfresh Hkey)
    as (st1 & -> & Hready & _ & Hpk & _ & _ & _ & Hdirs).
  cbn [snd]. unfold createSelfSignedCertificate. rewrite Huri, Hout.
  rewrite (existsSync_false (privateKey this) (disk st)); cycle 1.
  { apply Hfresh. unfold privateKey. apply under_base. }
  { apply Hfresh. unfold privateKey. apply under_base. }
  rewrite (existsSync_file (privateKey this) (disk st1)) by (by rewrite Hpk).
  cbn [negb default]. split; [done|].
  unfold createSelfSignCertificate.
  rewrite (openssl_to_file_ok _ _ cert); [|done| |]; cycle 1.
  { apply (fresh_not_dir this st st1 ["own"; "certs"; "self_signed_certificate.pem"]
             Hfresh Hdirs); [done|].
    rewrite !not_elem_of_cons. split_and!; try done. apply not_elem_of_nil. }
  { rewrite dirname_3. apply Hready. }
  cbn [fst snd fmap option_fmap option_map]. st_simpl. by rewrite lookup_insert_eq.
Qed.

(** A [params] object that has been through [createCertificateRequest],
    or through a [createSelfSignedCertificate] that found the private
    key, carries the manager's root directory: handing it to
    [createCertificateRequest] again throws. *)
Theorem issued_params_not_reusable params now st p' err :
  (∃ f, (createCertificateRequest this params now st).1 = Normal (p', err, f)) ∨
  ((createSelfSignedCertificate this params st).1 = Normal (p', err) ∧
   err ≠ Some (CannotFindPrivateKey (privateKey this))) →
  ∀ now2 st2,
    createCertificateRequest this p' now2 st2
    = (Raised (RootDirShouldNotBeSpecified (rootDir this)), st2).
Proof.
  intros Hfirst now2 st2.
  assert (Hroot : params_rootDir p' = Some (rootDir this)).
  { destruct Hfirst as [(f & Hcall) | (Hcall & Herr)].
    - unfold createCertificateRequest in Hcall.
      destruct (params_rootDir params); [done|].
      destruct (params_configFile params), (params_privateKey params); try done.
      destruct (createCertificateSigningRequest _ _ _) as [[e|e] st1]; [|done].
      cbn [fst] in Hcall. by injection Hcall as <- _ _.
    - unfold createSelfSignedCertificate in Hcall.
      destruct (applicationUri params); [|done].
      destruct (existsSync _ _); cbn [negb] in Hcall.
      + destruct (createSelfSignCertificate _ _ _) as [[e|e] st1]; [|done].
        cbn [fst] in Hcall. by injection Hcall as <- _.
      + cbn [fst] in Hcall. injection Hcall as _ <-. done. }
  unfold createCertificateRequest. by rewrite Hroot.
Qed.

End IssuanceFacts.

(** ** The host name *)

Lemma substring_0_length k s :
  String.length (String.substring 0 k s) = Nat.min k (String.length s).
Proof.
  revert s. induction k as [|k IH]; intros [|a s]; simpl; try done.
  by rewrite IH.
Qed.

Lemma substring_0_prefix k s : String.prefix (String.substring 0 k s) s = true.
Proof.
  revert s. induction k as [|k IH]; intros [|a s]; simpl; try done.
  destruct (ascii_dec a a); [apply IH|done].
Qed.

Lemma prefix_refl s : String.prefix s s = true.
Proof. induction s as [|a s IH]; simpl; [done|]. by destruct (ascii_dec a a). Qed.

Lemma hostname_trim_prefix s n : String.prefix (Hostname.trim s n) s = true.
Proof.
  unfold Hostname.trim. destruct (n =? 0); [apply prefix_refl|apply substring_0_prefix].
Qed.

Lemma hostname_trim_length s n :
  0 < n → Z.of_nat (String.length (Hostname.trim s n)) ≤ n.
Proof.
  intros Hn. unfold Hostname.trim. destruct (Z.eqb_spec n 0) as [|_]; [lia|].
  rewrite substring_0_length. lia.
Qed.

(** A positive limit bounds the length of the name returned, which is a
    prefix of the name returned without a limit; the limit does not
    change what the module remembers. *)
Theorem fqdn_within_limit n env cache :
  0 < n →
  let limited := Hostname.get_fully_qualified_domain_name (Some n) env cache in
  let full := Hostname.get_fully_qualified_domain_name None env cache in
  Z.of_nat (String.length limited.1) ≤ n ∧
  String.prefix limited.1 full.1 = true ∧
  limited.2 = full.2.
Proof.
  intros Hn. cbv zeta. unfold Hostname.get_fully_qualified_domain_name. cbn [default].
  destruct cache as [[|a cached]|]; repeat case_match; cbn [fst snd];
    (split_and!; [by apply hostname_trim_length | apply hostname_trim_prefix | done]).
Qed.

Lemma fqdn_first_call maxLength env :
  Hostname.get_fully_qualified_domain_name maxLength env None
  = (Hostname.trim (Hostname.get_fully_qualified_domain_name None env None).1
                   (default 0 maxLength),
     Some (Hostname.get_fully_qualified_domain_name None env None).1).
Proof.
  unfold Hostname.get_fully_qualified_domain_name. cbn [default].
  by destruct (String.eqb _ _).
Qed.

Lemma fqdn_cached maxLength env name :
  name ≠ EmptyString →
  Hostname.get_fully_qualified_domain_name maxLength env (Some name)
  = (Hostname.trim name (default 0 maxLength), Some name).
Proof. intros Hname. by destruct name. Qed.

(** The name is worked out once: after a first call that found a
    non-empty name, every call answers from that name, whatever the
    environment has become; an empty name is worked out again. *)
Theorem fqdn_computed_once maxLength1 env1 maxLength2 env2 :
  let first := Hostname.get_fully_qualified_domain_name maxLength1 env1 None in
  let name := (Hostname.get_fully_qualified_domain_name None env1 None).1 in
  let second := Hostname.get_fully_qualified_domain_name maxLength2 env2 first.2 in
  first.2 = Some name ∧
  (name ≠ EmptyString → second = (Hostname.trim name (default 0 maxLength2), Some name)) ∧
  (name = EmptyString →
   second = Hostname.get_fully_qualified_domain_name maxLength2 env2 None).
Proof.
  cbv zeta. rewrite (fqdn_first_call maxLength1 env1). cbn [snd].
  split_and!; [done| |].
  - apply fqdn_cached.
  - by intros ->.
Qed.

(** ** The command line *)

Section CommandLine.

Import Cli.

Lemma climb_spec rounds dir d :
  match climb rounds dir d with
  | inl r => ∃ k, (k < rounds)%nat ∧ r = Nat.iter k dirname dir ∧
                  existsSync (r ++ ["package.json"]) d = true ∧
                  ∀ j, (j < k)%nat →
                       existsSync (Nat.iter j dirname dir ++ ["package.json"]) d = false
  | inr r => r = Nat.iter rounds dirname dir ∧
             ∀ j, (j < rounds)%nat →
                  existsSync (Nat.iter j dirname dir ++ ["package.json"]) d = false
  end.
Proof.
  revert dir. induction rounds as [|rounds IH]; intros dir; cbn [climb].
  { split; [done|]. intros j Hj. lia. }
  destruct (existsSync (dir ++ ["package.json"]) d) eqn:Hhere.
  { exists 0%nat. split_and!; [lia|done..|]. intros j Hj. lia. }
  specialize (IH (dirname dir)).
  destruct (climb rounds (dirname dir) d) as [r|r].
  - destruct IH as (k & Hk & -> & Hr & Hnone). exists (S k).
    split_and!; [lia|by rewrite Nat.iter_succ_r|done|].
    intros [|j] Hj; [done|]. rewrite Nat.iter_succ_r. apply Hnone. lia.
  - destruct IH as (-> & Hnone). split; [by rewrite Nat.iter_succ_r|].
    intros [|j] Hj; [done|]. rewrite Nat.iter_succ_r. apply Hnone. lia.
Qed.

(** [find_module_root_folder] answers the nearest of the folder and its
    four first ancestors that holds a [package.json], and fails its
    assertion exactly when none of the five does. *)
Theorem find_module_root_folder_nearest dir d :
  let holds k := existsSync (Nat.iter k dirname dir ++ ["package.json"]) d in
  match find_module_root_folder dir d with
  | Normal r => ∃ k, (k ≤ 4)%nat ∧ r = Nat.iter k dirname dir ∧ holds k = true ∧
                     ∀ j, (j < k)%nat → holds j = false
  | Raised e => e = AssertionError ∧ ∀ k, (k ≤ 4)%nat → holds k = false
  end.
Proof.
  cbv zeta. unfold find_module_root_folder.
  assert (Hclimb := climb_spec 4 dir d).
  destruct (climb 4 dir d) as [r|r].
  - destruct Hclimb as (k & Hk & -> & Hr & Hnone). exists k. split_and!; [lia|done..].
  - destruct Hclimb as (-> & Hnone).
    destruct (existsSync _ d) eqn:Hlast.
    + exists 4%nat. split_and!; done.
    + split; [done|]. intros k Hk.
      destruct (decide (k = 4%nat)) as [->|]; [done|]. apply Hnone. lia.
Qed.

Ltac app_cons :=
  repeat first
    [ progress change (String ?a ?s +:+ ?t) with (String a (s +:+ t)) in *
    | progress change (EmptyString +:+ ?t) with t in * ].

Lemma append_nil_r s : s +:+ "" = s.
Proof. induction s as [|a s IH]; [done|]. app_cons. by rewrite IH. Qed.

Lemma append_assoc (a b c : string) : (a +:+ b) +:+ c = a +:+ (b +:+ c).
Proof. induction a as [|x a IH]; [done|]. app_cons. by rewrite IH. Qed.

Lemma all_chars_app P a b : all_chars P (a +:+ b) = all_chars P a && all_chars P b.
Proof. induction a as [|x a IH]; [done|]. app_cons. cbn. by rewrite IH, andb_assoc. Qed.

Lemma all_chars_impl (P Q : ascii → bool) s :
  (∀ a, P a = true → Q a = true) → all_chars P s = true → all_chars Q s = true.
Proof.
  intros HPQ. induction s as [|x s IH]; [done|]. cbn.
  rewrite !andb_true_iff. intros [? ?]. auto.
Qed.

Lemma split_nonempty sep s : split sep s ≠ [].
Proof.
  destruct s as [|a s]; [done|]. cbn.
  destruct (Ascii.eqb a sep); [done|]. by destruct (split sep s).
Qed.

Lemma split_app_free sep a b :
  all_chars (λ x, negb (Ascii.eqb x sep)) a = true →
  split sep (a +:+ b) =
    match split sep b with x :: xs => (a +:+ x) :: xs | [] => [] end.
Proof.
  induction a as [|x a IH]; app_cons; cbn.
  { intros _. by destruct (split sep b). }
  rewrite andb_true_iff, negb_true_iff. intros [-> Ha].
  rewrite (IH Ha). destruct (split sep b) eqn:Hb; [|done].
  by destruct (split_nonempty sep b).
Qed.

Lemma split_free sep s :
  all_chars (λ x, negb (Ascii.eqb x sep)) s = true → split sep s = [s].
Proof.
  intros Hs. rewrite <- (append_nil_r s) at 1.
  rewrite (split_app_free _ _ _ Hs). cbn. by rewrite append_nil_r.
Qed.

Lemma join_cons x xs : String.concat "" (x :: xs) = x +:+ String.concat "" xs.
Proof. destruct xs; cbn; [by rewrite append_nil_r|done]. Qed.

Lemma join_split_app sep a b :
  all_chars (λ x, negb (Ascii.eqb x sep)) a = true →
  String.concat "" (split sep (a +:+ b)) = a +:+ String.concat "" (split sep b).
Proof.
  intros Ha. rewrite (split_app_free _ _ _ Ha).
  destruct (split sep b) as [|x xs] eqn:Hb; [by destruct (split_nonempty sep b)|].
  by rewrite !join_cons, append_assoc.
Qed.

Lemma join_split_groups sep groups tail :
  groups ≠ [] →
  Forall (λ g, all_chars (λ x, negb (Ascii.eqb x sep)) g = true) groups →
  all_chars (λ x, negb (Ascii.eqb x sep)) tail = true →
  String.concat "" (split sep (String.concat (String sep "") groups +:+ tail)) =
    String.concat "" groups +:+ tail.
Proof.
  intros Hne Hgroups Htail. induction Hgroups as [|g groups Hg Hgroups IH]; [done|].
  destruct groups as [|g' groups].
  { cbn [String.concat]. rewrite (join_split_app _ _ _ Hg).
    by rewrite (split_free _ _ Htail). }
  change (String.concat (String sep "") (g :: g' :: groups))
    with (g +:+ String sep "" +:+ String.concat (String sep "") (g' :: groups)).
  rewrite !append_assoc, (join_split_app _ _ _ Hg).
  change (String sep "" +:+ ?s) with (String sep s).
  cbn [split]. rewrite Ascii.eqb_refl, join_cons.
  change ("" +:+ ?s) with s. rewrite IH by done.
  by rewrite (join_cons g), append_assoc.
Qed.

Lemma all_chars_concat P sep groups :
  all_chars P sep = true → Forall (λ g, all_chars P g = true) groups →
  all_chars P (String.concat sep groups) = true.
Proof.
  intros Hsep Hgroups. induction Hgroups as [|g groups Hg Hgroups IH]; [done|].
  destruct groups as [|g' groups]; [done|].
  change (String.concat sep (g :: g' :: groups))
    with (g +:+ sep +:+ String.concat sep (g' :: groups)).
  by rewrite !all_chars_app, Hg, Hsep, IH.
Qed.

Lemma trimStart_plain s :
  all_chars (λ x, negb (is_white_space x)) s = true → ∀ t, trimStart (s +:+ t) =
    match s with EmptyString => trimStart t | _ => s +:+ t end.
Proof.
  destruct s as [|a s]; [done|]. intros Hs t. app_cons. cbn in Hs |- *.
  apply andb_true_iff in Hs as [Ha _]. apply negb_true_iff in Ha. by rewrite Ha.
Qed.

Lemma trimEnd_white t :
  all_chars is_white_space t = true → trimEnd t = "".
Proof.
  induction t as [|a t IH]; [done|]. cbn. rewrite andb_true_iff.
  intros [-> Ht]. by rewrite (IH Ht).
Qed.

Lemma trimEnd_plain s t :
  all_chars (λ x, negb (is_white_space x)) s = true →
  all_chars is_white_space t = true → trimEnd (s +:+ t) = s.
Proof.
  intros Hs Ht. induction s as [|a s IH]; [by apply trimEnd_white|].
  app_cons. cbn in Hs |- *. apply andb_true_iff in Hs as [Ha Hs]. apply negb_true_iff in Ha.
  rewrite (IH Hs), Ha. by destruct s.
Qed.

Lemma trim_plain s t :
  all_chars (λ x, negb (is_white_space x)) s = true →
  all_chars is_white_space t = true → trim (s +:+ t) = s.
Proof.
  intros Hs Ht. unfold trim. rewrite (trimStart_plain _ Hs).
  destruct s as [|a s]; [|by apply trimEnd_plain].
  assert (trimStart t = "") as ->; [|done].
  clear Hs. induction t as [|a t IH]; [done|]. cbn in Ht |- *.
  apply andb_true_iff in Ht as [-> Ht]. auto.
Qed.

Lemma digest_char_spec a :
  digest_char a = true →
  negb (Ascii.eqb a "=") = true ∧ negb (Ascii.eqb a ":") = true ∧
  negb (is_white_space a) = true.
Proof. unfold digest_char. rewrite !andb_true_iff. tauto. Qed.

Lemma white_space_not_separator a :
  is_white_space a = true →
  negb (Ascii.eqb a "=") = true ∧ negb (Ascii.eqb a ":") = true.
Proof. destruct a as [[] [] [] [] [] [] [] []]; by vm_compute. Qed.

(** [cmdFingerPrint] prints the digest of a line [<label>=<g1>:...:<gn>]
    of the toolchain without its colons and without the white space that
    ends the line; on an output that holds no [=], [split("=")[1]] is
    undefined and the callback throws a TypeError. *)
Theorem printed_fingerprint_of_digest_line label groups eol data :
  all_chars (λ a, negb (Ascii.eqb a "=")) label = true →
  groups ≠ [] →
  Forall (λ g, all_chars digest_char g = true) groups →
  all_chars is_white_space eol = true →
  all_chars (λ a, negb (Ascii.eqb a "=")) data = true →
  printed_fingerprint (label +:+ "=" +:+ String.concat ":" groups +:+ eol)
    = Normal (String.concat "" groups) ∧
  printed_fingerprint data = Raised JsTypeError.
Proof.
  intros Hlabel Hne Hgroups Heol Hdata. unfold printed_fingerprint. split.
  - assert (Heq : Forall (λ g, all_chars (λ a, negb (Ascii.eqb a "=")) g = true) groups).
    { eapply Forall_impl; [exact Hgroups|]. intros g. apply all_chars_impl.
      intros a Ha. by apply digest_char_spec in Ha as (? & ? & ?). }
    assert (Hcolon : Forall (λ g, all_chars (λ a, negb (Ascii.eqb a ":")) g = true) groups).
    { eapply Forall_impl; [exact Hgroups|]. intros g. apply all_chars_impl.
      intros a Ha. by apply digest_char_spec in Ha as (? & ? & ?). }
    assert (Hws : Forall (λ g, all_chars (λ a, negb (is_white_space a)) g = true) groups).
    { eapply Forall_impl; [exact Hgroups|]. intros g. apply all_chars_impl.
      intros a Ha. by apply digest_char_spec in Ha as (? & ? & ?). }
    assert (Heol_eq : all_chars (λ a, negb (Ascii.eqb a "=")) eol = true).
    { revert Heol. apply all_chars_impl. intros a Ha.
      by apply white_space_not_separator in Ha as [? ?]. }
    assert (Heol_colon : all_chars (λ a, negb (Ascii.eqb a ":")) eol = true).
    { revert Heol. apply all_chars_impl. intros a Ha.
      by apply white_space_not_separator in Ha as [? ?]. }
    rewrite (split_app_free _ _ _ Hlabel).
    change ("=" +:+ ?s) with (String "=" s). cbn [split].
    rewrite Ascii.eqb_refl. cbn [lookup list_lookup].
    rewrite split_free.
    2:{ rewrite all_chars_app, andb_true_iff. split; [|done].
        by apply all_chars_concat. }
    cbn [lookup list_lookup].
    rewrite (join_split_groups ":" groups eol Hne Hcolon Heol_colon).
    f_equal. apply trim_plain; [|done].
    by apply (all_chars_concat _ "").
  - by rewrite (split_free _ _ Hdata).
Qed.

End CommandLine.

Section FailedBootstrap.

Context `{NodeOpcuaCrypto} `{Toolchain} `{IssuanceToolchain}.

Lemma createPrivateKey_failed p size st :
  openssl_genrsa size (draws st) = None →
  createPrivateKey p size st
  = (Returned (Some ToolchainFailure), next_draw (add_event (EvCreatePrivateKey p size) st)).
Proof.
  intros Hkey. unfold createPrivateKey, mbind, M_bind, get_state, modify, mret, M_ret.
  simpl. by rewrite Hkey.
Qed.

Lemma initialize_fresh_failed this st :
  fresh_root (rootDir this) (disk st) →
  openssl_genrsa (keySize this) (draws st) = None →
  ∃ st1, initialize this st = (Returned (Some ToolchainFailure), st1) ∧
    layout_ready this (disk st1) ∧
    (privateKey this ∉ dirs (disk st1)) ∧
    files (disk st1) !! privateKey this = None ∧
    draws st1 = S (draws st) ∧
    configFile this ∉ dirs (disk st1).
Proof.
  intros [Hroot Hfresh] Hkey.
  assert (Hnew : ∀ x l, (rootDir this ++ x :: l ∉ dirs (disk st)) ∧
                        files (disk st) !! (rootDir this ++ x :: l) = None).
  { intros x l. apply Hfresh, under_base. }
  unfold initialize, configFile, privateKey, rootDir in *.
  unfold mbind at 1, M_bind at 1.
  rewrite mkdir_exists by by apply existsSync_dir.
  unfold mbind at 1, M_bind at 1.
  rewrite mkdir_new; cycle 1.
  { apply existsSync_false; apply Hnew. }
  { by rewrite dirname_1. }
  unfold mbind at 1, M_bind at 1.
  rewrite mkdir_new; cycle 1.
  { apply existsSync_false; simpl; [|apply Hnew].
    rewrite not_elem_of_union, not_elem_of_singleton. split; [path_neq|apply Hnew]. }
  { rewrite dirname_2. simpl. set_solver. }
  unfold mbind at 1, M_bind at 1.
  rewrite mkdir_new; cycle 1.
  { apply existsSync_false; simpl; [|apply Hnew].
    rewrite !not_elem_of_union, !not_elem_of_singleton. split_and!; [path_neq..|apply Hnew]. }
  { rewrite dirname_2. simpl. set_solver. }
  unfold mbind at 1, M_bind at 1.
  rewrite mkdir_new; cycle 1.
  { apply existsSync_false; simpl; [|apply Hnew].
    rewrite !not_elem_of_union, !not_elem_of_singleton. split_and!; [path_neq..|apply Hnew]. }
  { rewrite dirname_1. simpl. set_solver. }
  unfold mbind at 1, M_bind at 1.
  rewrite mkdir_new; cycle 1.
  { apply existsSync_false; simpl; [|apply Hnew].
    rewrite !not_elem_of_union, !not_elem_of_singleton. split_and!; [path_neq..|apply Hnew]. }
  { rewrite dirname_1. simpl. set_solver. }
  unfold mbind at 1, M_bind at 1.
  rewrite fs_writeFileSync_ok; cycle 1.
  { simpl. rewrite !not_elem_of_union, !not_elem_of_singleton. split_and!; [path_neq..|apply Hnew]. }
  { rewrite dirname_2. simpl. set_solver. }
  unfold mbind at 1, M_bind at 1. unfold fs_exists at 1, mbind at 1, M_bind at 1, get_state, mret, M_ret.
  rewrite existsSync_false; cycle 1.
  { simpl. rewrite !not_elem_of_union, !not_elem_of_singleton. split_and!; [path_neq..|apply Hnew]. }
  { simpl. rewrite lookup_insert_ne by path_neq. apply Hnew. }
  cbn [negb]. cbv iota.
  rewrite createPrivateKey_failed by done.
  eexists. split; [reflexivity|]. st_simpl.
  split_and!.
  - unfold layout_ready, trustedDir, rejectedDir, rootDir. simpl. set_solver.
  - rewrite !not_elem_of_union, !not_elem_of_singleton. split_and!; [path_neq..|apply Hnew].
  - rewrite lookup_insert_ne by path_neq. apply Hnew.
  - done.
  - rewrite !not_elem_of_union, !not_elem_of_singleton. split_and!; [path_neq..|apply Hnew].
Qed.

(** [initialize] can be called again after a failed key generation: the
    first call on a fresh root makes the skeleton and calls back with the
    failure of the toolchain; the second call finds no key, asks for one
    again, and when the toolchain now delivers, it succeeds and the key
    is in place. *)
Theorem initialize_retry_completes this st key :
  fresh_root (rootDir this) (disk st) →
  openssl_genrsa (keySize this) (draws st) = None →
  openssl_genrsa (keySize this) (S (draws st)) = Some key →
  let first := initialize this st in
  let second := initialize this first.2 in
  first.1 = Returned (Some ToolchainFailure) ∧
  layout_ready this (disk first.2) ∧
  existsSync (privateKey this) (disk first.2) = false ∧
  second.1 = Returned None ∧
  files (disk second.2) !! privateKey this = Some key ∧
  layout_ready this (disk second.2).
Proof.
  intros Hfresh Hfail Hkey. cbv zeta.
  destruct (initialize_fresh_failed this st Hfresh Hfail)
    as (st1 & -> & Hready & Hnodir & Hnofile & Hdraws & Hcfg).
  cbn [fst snd].
  assert (Hsecond : ∃ st2, initialize this st1 = (Returned None, st2) ∧
            files (disk st2) !! privateKey this = Some key ∧ layout_ready this (disk st2)).
  { rewrite (initialize_ready this st1 Hready Hcfg). cbv zeta.
    rewrite (existsSync_false (privateKey this)); cycle 1.
    { st_simpl. done. }
    { st_simpl. rewrite lookup_insert_ne; [done|]. unfold configFile, privateKey. path_neq. }
    rewrite (createPrivateKey_ok _ _ key); cycle 1.
    { st_simpl. by rewrite Hdraws. }
    { st_simpl. unfold privateKey. rewrite dirname_3. apply Hready. }
    eexists. split; [reflexivity|]. st_simpl. split; [by rewrite lookup_insert_eq|done]. }
  destruct Hsecond as (st2 & -> & Hfile & Hready2). cbn [fst snd].
  split_and!; [done|done|by apply existsSync_false|done..].
Qed.

(** When the key generation of the first bootstrap fails,
    [construct_CertificateManager] calls back with the failure but keeps
    the manager; a second call finds the manager, calls back without an
    error and touches nothing, so that the store still has no private key
    and [createSelfSignedCertificate] answers that it cannot find it. *)
Theorem failed_bootstrap_not_retried config folder st params uri :
  Cli.PKIFolder config = Some folder →
  fresh_root folder (disk st) →
  openssl_genrsa (keySize_or_default (Cli.keySize config)) (draws st) = None →
  applicationUri params = Some uri →
  let this := mkManager (keySize_or_default (Cli.keySize config)) folder in
  let first := Cli.construct_CertificateManager config None st in
  let second := Cli.construct_CertificateManager config first.1.2 first.2 in
  first.1 = (Normal (Some ToolchainFailure), Some this) ∧
  layout_ready this (disk first.2) ∧
  second = (Normal None, Some this, first.2) ∧
  createSelfSignedCertificate this params second.2
    = (Normal (params, Some (CannotFindPrivateKey (privateKey this))), second.2).
Proof.
  intros Hfolder Hfresh Hkey Huri this first second.
  assert (Hfirst : ∃ st1, first = (Normal (Some ToolchainFailure), Some this, st1) ∧
            layout_ready this (disk st1) ∧ existsSync (privateKey this) (disk st1) = false).
  { subst first. unfold Cli.construct_CertificateManager. rewrite Hfolder.
    rewrite constructor_existing by apply Hfresh. cbn [opt_keySize opt_location].
    fold this.
    destruct (initialize_fresh_failed this (set_thumbs (Thumbs.mk ∅ ∅) st))
      as (st1 & -> & ? & ? & ? & _ & _); [done..|].
    exists st1. split_and!; [done..|]. by apply existsSync_false. }
  destruct Hfirst as (st1 & Hfirst & Hready & Hnokey).
  assert (Hsecond : second = (Normal None, Some this, st1)).
  { subst second. rewrite Hfirst. cbn [fst snd].
    unfold Cli.construct_CertificateManager. by rewrite Hfolder. }
  rewrite Hsecond, Hfirst. cbn [fst snd]. split_and!; [done..|].
  unfold createSelfSignedCertificate. by rewrite Huri, Hnokey.
Qed.

End FailedBootstrap.


(** ** Runs on the concrete instance *)

Section Runs.

Import Fixture.

Lemma fixture_fresh_root : fresh_root root (disk fresh).
Proof.
  split; [set_solver|]. intros p Hp. split; [|apply lookup_empty].
  simpl. intros ->%elem_of_singleton. by rewrite under_irrefl in Hp.
Qed.

Lemma fixture_key :
  openssl_genrsa (keySize manager) (draws fresh) = Some (list_byte_of_string "key" ++ [x00]).
Proof. vm_compute. reflexivity. Qed.

Lemma fixture_ready_layout : layout_ready manager (disk ready).
Proof. apply (bootstrap_store_ok manager fresh _ fixture_fresh_root fixture_key). Qed.

Lemma fixture_ready_wf : store_wf manager (disk ready).
Proof. apply (bootstrap_store_ok manager fresh _ fixture_fresh_root fixture_key). Qed.

Lemma fixture_ready_unblocked : unblocked manager (disk ready).
Proof. apply (initialize_fresh_unblocked manager fresh _ fixture_fresh_root fixture_key). Qed.

Lemma fixture_ready_named t : named_for manager t (disk ready).
Proof. apply store_wf_named, fixture_ready_wf. Qed.

Lemma fixture_strip_armour c : strip (armour c "CERTIFICATE") = c.
Proof.
  unfold strip, armour. rewrite drop_app_length.
  rewrite !length_app.
  replace (length (pem_header "CERTIFICATE") + (length c + length (pem_footer "CERTIFICATE"))
           - length (pem_header "CERTIFICATE") - length (pem_footer "CERTIFICATE"))%nat
    with (length c) by lia.
  apply take_app_length.
Qed.

Lemma fixture_pem_roundtrip : pem_roundtrip.
Proof.
  intros c. unfold readThumbprint, thumbprint_of.
  change (convertPEMtoDER (toPem c "CERTIFICATE")) with (strip (armour c "CERTIFICATE")).
  by rewrite fixture_strip_armour.
Qed.

(** C3 does not hold as stated: on an initialized root, the second of
    two consecutive status queries walks the folders again. *)
Lemma status_query_scans_again :
  let st1 := after (_getCertificateStatus manager cert1) ready in
  let st2 := after (_getCertificateStatus manager cert1) st1 in
  count_walks (new_events st1 st2) ≠ 0%nat.
Proof. vm_compute. discriminate. Qed.

(** C6 does not hold as stated: a present certificate of length zero
    is not answered with the code of a missing one. *)
Lemma verify_empty_not_missing :
  (verifyCertificate manager (Some []) 20000 ready).1
  ≠ Returned (Some BadSecurityChecksFailed).
Proof. vm_compute. discriminate. Qed.

(** An expired certificate is refused although it is trusted. *)
Lemma verify_time_invalid_witness :
  let st := after (trustCertificate manager cert1) fresh in
  (_getCertificateStatus manager cert1 st).1 = Returned (inr trusted) ∧
  verifyCertificate manager (Some cert1) 32000 st
  = (Returned (Some BadCertificateTimeInvalid), st).
Proof.
  split; [vm_compute; reflexivity|].
  apply (verify_time_invalid manager cert1 16000 32000); [reflexivity | right; lia].
Defined.

(** A never-seen certificate inside its validity window is refused. *)
Lemma verify_untrusted_witness :
  (verifyCertificate manager (Some cert1) 20000 ready).1
  = Returned (Some BadCertificateUntrusted).
Proof.
  apply (verify_untrusted manager cert1 16000 32000 20000 ready unknown);
    [reflexivity | lia | vm_compute; reflexivity | by left].
Defined.

(** A certificate filed under both folders is answered [rejected]. *)
Lemma rejected_wins_tie_witness :
  (_getCertificateStatus manager cert1 in_both).1 = Returned (inr rejected).
Proof.
  apply (rejected_wins_tie manager cert1 in_both);
    apply (bool_decide_unpack _); vm_compute; exact I.
Defined.

(** Two bootstraps of a fresh root with a configured key size of 4096
    bits. *)
Lemma initialize_idempotent_witness :
  ∃ this st0,
    constructor (mkOptions (Some 4096) root) fresh = (Returned this, st0) ∧
    keySize this = 4096 ∧
    (initialize this st0).1 = Returned None ∧
    EvCreatePrivateKey (privateKey this) 4096 ∈ new_events st0 (initialize this st0).2 ∧
    disk (initialize this (initialize this st0).2).2 = disk (initialize this st0).2.
Proof.
  assert (Hkey : openssl_genrsa 4096 (draws fresh)
                 = Some (list_byte_of_string "key" ++ [x00])) by (vm_compute; reflexivity).
  destruct (initialize_idempotent (mkOptions (Some 4096) root) 4096 fresh _
              fixture_fresh_root eq_refl Hkey)
    as (this & st0 & Hnew & Hsize & _ & Hfirst & _ & _ & _ & Hlog & _ & Hdisk & _).
  exists this, st0.
  split_and!; [exact Hnew | exact Hsize | exact Hfirst | | exact Hdisk].
  rewrite Hlog. apply list_elem_of_In. simpl. tauto.
Defined.

(** C4 does not hold as stated: the file written for a never-seen
    certificate does not hold the bytes of the certificate. *)
Lemma filed_certificate_not_identical :
  files (disk (after (getCertificateStatus manager cert1) ready))
    !! (root ++ ["rejected"; "1020aa.pem"]) ≠ Some cert1.
Proof. vm_compute. discriminate. Qed.

(** With a directory at the name of the file, the query for a never-seen
    certificate calls back with [EISDIR]. *)
Lemma filing_onto_directory_fails :
  (_getCertificateStatus manager cert1 obstructed).1 = Returned (inr unknown) ∧
  (getCertificateStatus manager cert1 obstructed).1
  = Returned (inl (EISDIR (root ++ ["rejected"; "1020aa.pem"]))) ∧
  walk (root ++ ["rejected"]) (disk (after (getCertificateStatus manager cert1) obstructed)) = [].
Proof. split_and!; vm_compute; reflexivity. Qed.

(** A never-seen certificate is filed once. *)
Lemma unknown_certificate_filed_witness :
  let name := root ++ ["rejected"; "1020aa.pem"] in
  let first := getCertificateStatus manager cert1 ready in
  let second := getCertificateStatus manager cert1 first.2 in
  first.1 = Returned (inr rejected) ∧
  files (disk first.2) !! name = Some (armour cert1 "CERTIFICATE") ∧
  second.1 = Returned (inr rejected) ∧
  ¬ writes_to name (new_events first.2 second.2).
Proof.
  destruct (unknown_certificate_filed manager cert1 ready) as (Hfiled & _ & _).
  - exact fixture_ready_layout.
  - vm_compute. reflexivity.
  - destruct Hfiled as (Hfirst & Hfile & _ & Hagain).
    + apply (bool_decide_unpack _). vm_compute. exact I.
    + apply (bool_decide_unpack _). vm_compute. exact I.
    + destruct Hagain as (Hsecond & Hquiet & _).
      * vm_compute. reflexivity.
      * cbv zeta. split_and!; [exact Hfirst | exact Hfile | exact Hsecond | exact Hquiet].
Defined.

(** C5 does not hold as stated: with a second copy of the PEM file of
    the certificate below [rejected/], [trustCertificate] succeeds and
    the very next status query answers [rejected]. *)
Lemma trusted_then_answered_rejected :
  let trusting := trustCertificate manager cert1 twice_rejected in
  trusting.1 = Returned None ∧
  files (disk trusting.2) !! (root ++ ["trusted"; "1020aa.pem"])
    = Some (armour cert1 "CERTIFICATE") ∧
  (_getCertificateStatus manager cert1 trusting.2).1 = Returned (inr rejected) ∧
  (getCertificateStatus manager cert1 trusting.2).1 = Returned (inr rejected).
Proof. cbv zeta. split_and!; vm_compute; reflexivity. Qed.

(** A trusted certificate stays trusted, and a rejected one rejected,
    through queries, a verification, a bootstrap and moves of another
    certificate. *)
Lemma trust_reject_stable_witness :
  let calls := [CallGetCertificateStatus cert2; CallRejectCertificate cert2;
                CallVerifyCertificate (Some cert1) 20000; CallInitialize] in
  let trusted_run := run manager (calls ++ [CallTrustCertificate cert1])
                         (after (trustCertificate manager cert1) ready) in
  let rejected_run := run manager (calls ++ [CallRejectCertificate cert1])
                          (after (rejectCertificate manager cert1) ready) in
  (getCertificateStatus manager cert1 trusted_run).1 = Returned (inr trusted) ∧
  (getCertificateStatus manager cert1 rejected_run).1 = Returned (inr rejected).
Proof.
  destruct (trust_reject_stable manager cert1 ready
              fixture_ready_layout fixture_ready_unblocked)
    as (Htrust & Hreject & _).
  cbv zeta. unfold after. split.
  - apply (Htrust fixture_pem_roundtrip (fixture_ready_named _)).
    + vm_compute. reflexivity.
    + repeat constructor; intros Hmove; try exact Hmove;
        destruct Hmove as [Hto Hsame];
        first [discriminate Hto | vm_compute in Hsame; discriminate Hsame].
  - apply Hreject.
    + vm_compute. reflexivity.
    + vm_compute. reflexivity.
    + repeat constructor; intros Hmove; try exact Hmove;
        destruct Hmove as [Hto Hsame];
        first [discriminate Hto | vm_compute in Hsame; discriminate Hsame].
Defined.

(** C1, on the code: a trusted certificate that the CertificateAuthority
    has revoked passes the verification. *)
Theorem verify_passes_revoked :
  let st1 := after (trustCertificate manager cert1) fresh in
  let st2 := after (revokeCertificate cert1 17000 "keyCompromise") st1 in
  rev_identity <$> revocations st2 = [thumbprint_of cert1] ∧
  (_getCertificateStatus manager cert1 st2).1 = Returned (inr trusted) ∧
  (verifyCertificate manager (Some cert1) 20000 st2).1 = Returned None.
Proof. cbv zeta. split_and!; vm_compute; reflexivity. Qed.

(** C2, on the code: when the rename fails, the thumbprint has all the
    same left the trusted set of the index and entered the rejected
    set, while the file is still below [trusted/] and nothing is below
    [rejected/]. *)
Theorem failed_rename_mutates_index :
  let t := thumbprint_of cert1 in
  let queried := after (getCertificateStatus manager cert1) dropped_in in
  let moved := rejectCertificate manager cert1 dropped_in in
  moved.1 = Returned (Some (ENOENT (root ++ ["trusted"; "1020aa.pem"]))) ∧
  files (disk moved.2) !! (root ++ ["trusted"; "peer.pem"])
    = Some (armour cert1 "CERTIFICATE") ∧
  walk (root ++ ["rejected"]) (disk moved.2) = [] ∧
  bool_decide (t ∈ Thumbs.trusted (_thumbs queried)) = true ∧
  bool_decide (t ∈ Thumbs.rejected (_thumbs queried)) = false ∧
  bool_decide (t ∈ Thumbs.trusted (_thumbs moved.2)) = false ∧
  bool_decide (t ∈ Thumbs.rejected (_thumbs moved.2)) = true.
Proof. cbv zeta. split_and!; vm_compute; reflexivity. Qed.

End Runs.

(** ** Further runs on the concrete instance *)

Section FurtherRuns.

Import Fixture.

Lemma fixture_trusted_ready :
  layout_ready manager (disk (after (trustCertificate manager cert1) ready)) ∧
  unblocked manager (disk (after (trustCertificate manager cert1) ready)).
Proof.
  change (after (trustCertificate manager cert1) ready)
    with (perform manager (CallTrustCertificate cert1) ready).
  destruct (perform_post manager (CallTrustCertificate cert1) ready
              fixture_pem_roundtrip fixture_ready_layout fixture_ready_unblocked)
    as (? & ? & _).
  by split.
Qed.

(** A first status query on an initialized root answers [rejected] or
    [trusted]. *)
Lemma getCertificateStatus_definite_witness :
  (getCertificateStatus manager cert1 ready).1 = Returned (inr trusted) ∨
  (getCertificateStatus manager cert1 ready).1 = Returned (inr rejected).
Proof.
  destruct (getCertificateStatus_definite manager cert1 ready fixture_ready_layout)
    as (_ & _ & _ & Hanswer).
  apply Hanswer.
  - apply (bool_decide_unpack _). vm_compute. exact I.
  - intros _. apply (bool_decide_unpack _). vm_compute. exact I.
Defined.

(** A certificate filed as rejected is answered [rejected] after the
    store has been wiped. *)
Lemma answer_survives_disk_witness :
  let st1 := after (getCertificateStatus manager cert1) ready in
  (_getCertificateStatus manager cert1
     (set_disk (disk fresh) (_getCertificateStatus manager cert1 st1).2)).1
  = Returned (inr rejected).
Proof.
  cbv zeta.
  apply (answer_survives_disk manager cert1 (after (getCertificateStatus manager cert1) ready)
           (disk fresh) rejected).
  - vm_compute. reflexivity.
  - left. reflexivity.
Defined.

(** Rejecting and trusting again a trusted certificate. *)
Lemma reject_trust_round_trip_witness :
  let st := after (trustCertificate manager cert1) ready in
  let rejecting := rejectCertificate manager cert1 st in
  let trusting := trustCertificate manager cert1 rejecting.2 in
  rejecting.1 = Returned None ∧
  files (disk rejecting.2) !! certificateName manager rejected (thumbprint_of cert1)
    = Some (armour cert1 "CERTIFICATE") ∧
  trusting.1 = Returned None ∧
  files (disk trusting.2) !! certificateName manager trusted (thumbprint_of cert1)
    = Some (armour cert1 "CERTIFICATE") ∧
  status_in manager trusting.2 (thumbprint_of cert1) = trusted.
Proof.
  destruct (reject_trust_round_trip manager cert1 (armour cert1 "CERTIFICATE")
              (after (trustCertificate manager cert1) ready))
    as (H1 & H2 & _ & _ & H5 & H6 & _ & H8 & _).
  - apply fixture_trusted_ready.
  - apply (bool_decide_unpack _). vm_compute. exact I.
  - apply (bool_decide_unpack _). vm_compute. exact I.
  - apply (bool_decide_unpack _). vm_compute. exact I.
  - vm_compute. reflexivity.
  - vm_compute. reflexivity.
  - cbv zeta. split_and!; [exact H1 | exact H2 | exact H5 | exact H6 | exact H8].
Defined.

(** Rejecting a trusted certificate with a directory at its name below
    [rejected/]. *)
Lemma move_onto_directory_fails_witness :
  let st := mkdir_in (root ++ ["rejected"; "1020aa.pem"])
                     (after (trustCertificate manager cert1) ready) in
  let moving := rejectCertificate manager cert1 st in
  moving.1 = Returned (Some (EISDIR (certificateName manager rejected (thumbprint_of cert1)))) ∧
  (∃ index, Some (Thumbs.rejected (_thumbs moving.2)) = Some index ∧
            thumbprint_of cert1 ∈ index).
Proof.
  destruct (move_onto_directory_fails manager cert1 trusted rejected (armour cert1 "CERTIFICATE")
              (mkdir_in (root ++ ["rejected"; "1020aa.pem"])
                        (after (trustCertificate manager cert1) ready)))
    as (H1 & _ & _ & H4 & _).
  - unfold layout_ready. split_and!; apply (bool_decide_unpack _); vm_compute; exact I.
  - apply (bool_decide_unpack _). vm_compute. exact I.
  - vm_compute. reflexivity.
  - discriminate.
  - discriminate.
  - discriminate.
  - vm_compute. reflexivity.
  - apply (bool_decide_unpack _). vm_compute. exact I.
  - cbv zeta. split; [exact H1 | exact H4].
Defined.

(** Trusting a certificate the initialized root has never seen. *)
Lemma trust_never_seen_witness :
  let trusting := trustCertificate manager cert1 ready in
  trusting.1 = Returned None ∧
  files (disk trusting.2) !! certificateName manager trusted (thumbprint_of cert1)
    = Some (armour cert1 "CERTIFICATE") ∧
  files (disk trusting.2) !! certificateName manager rejected (thumbprint_of cert1) = None.
Proof.
  destruct (trust_never_seen manager cert1 ready) as (Hfiled & _).
  - exact fixture_ready_layout.
  - apply (bool_decide_unpack _). vm_compute. exact I.
  - vm_compute. reflexivity.
  - destruct Hfiled as (H1 & H2 & H3 & _).
    + apply (bool_decide_unpack _). vm_compute. exact I.
    + apply (bool_decide_unpack _). vm_compute. exact I.
    + cbv zeta. split_and!; [exact H1 | exact H2 | exact H3].
Defined.

(** The invariants after a bootstrap and a run of moves and queries. *)
Lemma store_invariants_from_fresh_root_witness :
  let calls := [CallTrustCertificate cert1; CallGetCertificateStatus cert2;
                CallRejectCertificate cert1; CallTrustCertificate cert2;
                CallVerifyCertificate (Some cert1) 20000; CallInitialize] in
  let st' := run manager calls (initialize manager fresh).2 in
  layout_ready manager (disk st') ∧ store_wf manager (disk st') ∧ classified_once manager st'.
Proof.
  apply (store_invariants_from_fresh_root manager fresh (list_byte_of_string "key" ++ [x00])).
  - exact fixture_pem_roundtrip.
  - exact fixture_fresh_root.
  - reflexivity.
  - vm_compute. reflexivity.
Defined.

(** A self-signed certificate before and after the bootstrap. *)
Lemma self_signed_needs_bootstrap_witness :
  let after := createSelfSignedCertificate manager params (initialize manager fresh).2 in
  createSelfSignedCertificate manager params fresh
    = (Normal (params, Some (CannotFindPrivateKey (privateKey manager))), fresh) ∧
  after.1 = Normal (with_manager_paths manager params, None) ∧
  files (disk after.2) !! (rootDir manager ++ ["own"; "certs"; "self_signed_certificate.pem"])
  = Some (armour (list_byte_of_string "self") "CERTIFICATE").
Proof.
  apply (self_signed_needs_bootstrap manager params "urn:host:application" fresh
           (list_byte_of_string "key" ++ [x00])).
  - exact fixture_fresh_root.
  - reflexivity.
  - reflexivity.
  - vm_compute. reflexivity.
  - intros n. reflexivity.
Defined.

(** The parameters of a certificate request cannot serve a second one. *)
Lemma issued_params_not_reusable_witness :
  createCertificateRequest manager (with_manager_paths manager params) 1541116800124 ready
  = (Raised (RootDirShouldNotBeSpecified (rootDir manager)), ready).
Proof.
  apply (issued_params_not_reusable manager params 1541116800123 ready
           (with_manager_paths manager params) None).
  left. exists (certificateSigningRequestFilename manager 1541116800123).
  vm_compute. reflexivity.
Defined.

(** A limit of five characters on the name of the host. *)
Lemma fqdn_within_limit_witness :
  let limited := Hostname.get_fully_qualified_domain_name (Some 5) host None in
  let full := Hostname.get_fully_qualified_domain_name None host None in
  Z.of_nat (String.length limited.1) ≤ 5 ∧
  String.prefix limited.1 full.1 = true ∧
  limited.2 = full.2.
Proof. apply (fqdn_within_limit 5 host None). lia. Defined.

(** The second call answers from the name the first call found. *)
Lemma fqdn_computed_once_witness :
  let first := Hostname.get_fully_qualified_domain_name None host None in
  Hostname.get_fully_qualified_domain_name (Some 5) renamed_host first.2
  = (Hostname.trim first.1 5, Some first.1).
Proof.
  destruct (fqdn_computed_once None host (Some 5) renamed_host) as (_ & Hcached & _).
  cbv zeta. apply Hcached. vm_compute. discriminate.
Defined.

(** The package file two levels above the script. *)
Lemma find_module_root_folder_nearest_witness :
  ∃ k, (k ≤ 4)%nat ∧ ["repo"] = Nat.iter k dirname ["repo"; "bin"; "cli"] ∧
       existsSync (Nat.iter k dirname ["repo"; "bin"; "cli"] ++ ["package.json"]) checkout = true ∧
       ∀ j, (j < k)%nat →
            existsSync (Nat.iter j dirname ["repo"; "bin"; "cli"] ++ ["package.json"]) checkout = false.
Proof.
  assert (Hfound := find_module_root_folder_nearest ["repo"; "bin"; "cli"] checkout).
  cbv zeta in Hfound.
  replace (Cli.find_module_root_folder ["repo"; "bin"; "cli"] checkout)
    with (Normal ["repo"]) in Hfound by (vm_compute; reflexivity).
  exact Hfound.
Defined.

(** The line openssl prints for a SHA-1 fingerprint. *)
Lemma printed_fingerprint_of_digest_line_witness :
  Cli.printed_fingerprint ("SHA1 Fingerprint" +:+ "=" +:+ String.concat ":" ["AB"; "CD"; "EF"; "01"] +:+ String "010" "")
    = Normal (String.concat "" ["AB"; "CD"; "EF"; "01"]) ∧
  Cli.printed_fingerprint "unable to load certificate" = Raised JsTypeError.
Proof.
  apply (printed_fingerprint_of_digest_line "SHA1 Fingerprint" ["AB"; "CD"; "EF"; "01"]
           (String "010" "") "unable to load certificate").
  - vm_compute. reflexivity.
  - discriminate.
  - repeat constructor.
  - vm_compute. reflexivity.
  - vm_compute. reflexivity.
Defined.

(** A bootstrap whose key generation fails, and the call after it. *)
Lemma failed_bootstrap_not_retried_witness :
  let first := @Cli.construct_CertificateManager crypto broken config None fresh in
  let second := @Cli.construct_CertificateManager crypto broken config first.1.2 first.2 in
  first.1 = (Normal (Some ToolchainFailure), Some manager) ∧
  second = (Normal None, Some manager, first.2) ∧
  createSelfSignedCertificate manager params second.2
    = (Normal (params, Some (CannotFindPrivateKey (privateKey manager))), second.2).
Proof.
  destruct (@failed_bootstrap_not_retried crypto broken issuance config root fresh params
              "urn:host:application") as (H1 & _ & H3 & H4).
  - reflexivity.
  - exact fixture_fresh_root.
  - reflexivity.
  - reflexivity.
  - cbv zeta. split_and!; [exact H1 | exact H3 | exact H4].
Defined.

(** Trusting a second time a certificate that is trusted. *)
Lemma move_to_current_status_quiet_witness :
  let st := after (trustCertificate manager cert1) ready in
  let moving := trustCertificate manager cert1 st in
  moving.1 = Returned None ∧
  status_in manager moving.2 (thumbprint_of cert1) = trusted.
Proof.
  destruct (move_to_current_status_quiet manager cert1 trusted
              (after (trustCertificate manager cert1) ready)) as (H1 & H2 & _).
  - apply fixture_trusted_ready.
  - apply (bool_decide_unpack _). vm_compute. exact I.
  - discriminate.
  - vm_compute. reflexivity.
  - cbv zeta. split; [exact H1 | exact H2].
Defined.

(** Rejecting a certificate the initialized root has never seen. *)
Lemma reject_never_seen_witness :
  let rejecting := rejectCertificate manager cert1 ready in
  rejecting.1 = Returned None ∧
  files (disk rejecting.2) !! certificateName manager rejected (thumbprint_of cert1)
    = Some (armour cert1 "CERTIFICATE") ∧
  status_in manager rejecting.2 (thumbprint_of cert1) = rejected.
Proof.
  destruct (reject_never_seen manager cert1 ready) as (Hfiled & _).
  - exact fixture_ready_layout.
  - apply (bool_decide_unpack _). vm_compute. exact I.
  - vm_compute. reflexivity.
  - destruct Hfiled as (H1 & H2 & _ & _ & H5 & _).
    + apply (bool_decide_unpack _). vm_compute. exact I.
    + cbv zeta. split_and!; [exact H1 | exact H2 |].
      apply H5. vm_compute. reflexivity.
Defined.

(** A bootstrap that succeeds at the second attempt. *)
Lemma initialize_retry_completes_witness :
  let first := @initialize flaky manager fresh in
  let second := @initialize flaky manager first.2 in
  first.1 = Returned (Some ToolchainFailure) ∧
  second.1 = Returned None ∧
  files (disk second.2) !! privateKey manager = Some (list_byte_of_string "key").
Proof.
  destruct (@initialize_retry_completes flaky manager fresh (list_byte_of_string "key"))
    as (H1 & _ & _ & H3 & H4 & _).
  - exact fixture_fresh_root.
  - reflexivity.
  - reflexivity.
  - cbv zeta. split_and!; [exact H1 | exact H3 | exact H4].
Defined.

End FurtherRuns.
